(** * fab-process-generator: the planner, the parser and the command line

    A shallow embedding of [src/process_planner.js] (generateFlow,
    mapLayersToSteps, calculateDuration, analyzeLayout,
    estimateMinFeatureSize, formatText, formatMarkdown), of
    [src/gds_parser.js] (parseGDS, extractLayers, getLayoutStats) and of
    the commands [generate] and [analyze] of [cli/generate_flow.js].

    Conventions of the embedding.
    - A JS number is a binary64 float ([PrimFloat.float]); [+], [-], [*],
      [/] and [Math.sqrt] are the IEEE-754 operations of the kernel,
      [Math.round] is written out from its ECMAScript definition.
    - A JS string is a [string]; a template literal is a concatenation.
    - The objects the planner reads by fixed field names (layers, layouts,
      recipes, steps, flows) are records; a field that may be missing is an
      [option] ([None] is [undefined]).
    - The three objects the planner indexes by a computed key
      ([recipes[processType]], [layerMap[step.layer]],
      [defaultDurations[step.operation]]) are finite maps of their own
      properties together with what a plain object inherits from
      [Object.prototype].
    - [throw] is a [Throw] completion.
    - [String.prototype.toUpperCase] and the number-to-string conversion of
      template literals belong to the host; they are the fields of the
      class [Host]. The recipe table [recipe_db.json] is read at load time;
      it is the variable [recipes] of the section.
    - The answers of the [fs] module are the fields of the class
      [FileSystem]; the colouring of [chalk] and [JSON.stringify] those of
      the class [Libraries]. A command is a computation in [io]: it
      returns the list of what it printed, wrote and exited with. *)

From Stdlib Require Import ZArith Floats Reals Lra Lia Psatz String Ascii List Bool.
From stdpp Require Import base option list gmap strings.

Set Warnings "-inexact-float,-clear-no-such-hyp".
Local Open Scope float_scope.

(** ** JS numbers *)

Abbreviation Number := float.

(** [ToBoolean] on a number: [+0], [-0] and [NaN] are falsy. *)
Definition truthy_number (x : Number) : bool :=
  negb (x =? 0) && negb (is_nan x).

(** [ToBoolean] on a string: only the empty string is falsy. *)
Definition truthy_string (s : string) : bool :=
  negb (String.eqb s "").

(** [if (o.f)] for an optional field. *)
Definition truthy_opt {A} (truthy : A -> bool) (o : option A) : bool :=
  match o with
  | Some a => truthy a
  | None => false
  end.

(** The number of an array length. *)
Definition number_of_nat (n : nat) : Number :=
  of_uint63 (Uint63.of_Z (Z.of_nat n)).

(** [Math.round(x)]: the integral number closest to [x], the one closer to
    +infinity when two are equally close, [x] itself when it is integral,
    infinite or NaN; the result keeps the sign of [x] when it is a zero
    (so [-0.5] rounds to [-0]). For a finite [x = (-1)^s * m * 2^e] with
    [e < 0] this is [floor (x + 1/2)], computed on integers. *)
Definition Math_round (x : Number) : Number :=
  match Prim2SF x with
  | S754_finite s m e =>
      if (0 <=? e)%Z then x
      else
        let num := ((if s then Z.neg m else Z.pos m) * 2 + 2 ^ (- e))%Z in
        let n := (num / 2 ^ (1 - e))%Z in
        let r := of_uint63 (Uint63.of_Z (Z.abs n)) in
        if (n <? 0)%Z || ((n =? 0)%Z && s) then - r else r
  | _ => x
  end.

Definition Math_sqrt (x : Number) : Number := PrimFloat.sqrt x.

(** A number that is NaN, [Infinity] or [-Infinity]. *)
Definition non_finite (x : Number) : bool :=
  match Prim2SF x with
  | S754_nan | S754_infinity _ => true
  | _ => false
  end.

(** ** JS strings *)

Definition nl : string := String (ascii_of_nat 10) EmptyString.

(** [hay.includes(needle)]. *)
Fixpoint includes (needle hay : string) : bool :=
  String.prefix needle hay
  || match hay with
     | EmptyString => false
     | String _ rest => includes needle rest
     end.

(** [s.repeat(n)]. *)
Fixpoint repeat_string (s : string) (n : nat) : string :=
  match n with
  | O => ""
  | S k => s +:+ repeat_string s k
  end.

(** [array.includes(x)] on an array of strings. *)
Definition array_includes (x : string) (l : list string) : bool :=
  existsb (String.eqb x) l.

(** What the host provides. *)
Class Host := {
  toUpperCase : string -> string;
  Number_toString : Number -> string
}.

(** An ASCII instance of the host, to run the planner on examples: letters
    [a]-[z] are uppercased, and a number is printed as the decimal numeral
    of its integer part (exact on the integers the examples print). *)
Definition upper_ascii (c : ascii) : ascii :=
  let n := nat_of_ascii c in
  if (97 <=? n)%nat && (n <=? 122)%nat then ascii_of_nat (n - 32) else c.

Fixpoint upper_string (s : string) : string :=
  match s with
  | EmptyString => EmptyString
  | String c rest => String (upper_ascii c) (upper_string rest)
  end.

Fixpoint decimal_digits (fuel : nat) (n : N) (acc : string) : string :=
  match fuel with
  | O => acc
  | S k =>
      let d := ascii_of_N (48 + N.modulo n 10) in
      let acc' := String d acc in
      if (n <? 10)%N then acc' else decimal_digits k (N.div n 10) acc'
  end.

Definition decimal_of_number (x : Number) : string :=
  match Prim2SF x with
  | S754_finite s m e =>
      let n := Z.to_N (Z.shiftl (Z.pos m) e) in
      (if s then "-" else "") +:+ decimal_digits 20 n ""
  | S754_zero _ => "0"
  | S754_infinity s => if s then "-Infinity" else "Infinity"
  | S754_nan => "NaN"
  end.

Definition ascii_host : Host :=
  {| toUpperCase := upper_string; Number_toString := decimal_of_number |}.

(** ** Objects indexed by a computed key *)

(** The own property names of [Object.prototype]: every plain object
    (an object literal, an object made by [JSON.parse]) answers to them. *)
Definition object_prototype_keys : list string :=
  [ "constructor"; "__defineGetter__"; "__defineSetter__"; "hasOwnProperty";
    "__lookupGetter__"; "__lookupSetter__"; "isPrototypeOf";
    "propertyIsEnumerable"; "toString"; "valueOf"; "__proto__";
    "toLocaleString" ]%string.

Definition inherited (k : string) : bool :=
  array_includes k object_prototype_keys.
Arguments inherited : simpl never.

(** The value of [table[key]]. *)
Inductive property (A : Type) : Type :=
| Own (a : A)               (* an entry of the table *)
| Foreign (truthy : bool)   (* reached through the prototype chain: a built-in
                               function or object (truthy) or a primitive; it
                               has none of the fields of an entry *)
| Undefined.
Arguments Own {A} a.
Arguments Foreign {A} truthy.
Arguments Undefined {A}.

(** [table[key]] on a plain object whose own properties are [table]. *)
Definition get {A} (table : gmap string A) (key : string) : property A :=
  match table !! key with
  | Some a => Own a
  | None => if inherited key then Foreign true else Undefined
  end.

(** ** Thrown values *)

Inductive exn : Type :=
| Error (message : string)       (* [new Error(message)] *)
| TypeError (message : string).  (* raised by the engine *)

Inductive completion (A : Type) : Type :=
| Return (a : A)
| Throw (e : exn).
Arguments Return {A} a.
Arguments Throw {A} e.

(** ** Data model *)

Module Layer.
Record t := {
  number : Number;
  name : string;
  datatype : Number;
  feature_count : Number
}.
End Layer.

Module Units.
Record t := { database_unit : Number; user_unit : Number }.
End Units.

Module BoundingBox.
Record t := { min_x : Number; min_y : Number; max_x : Number; max_y : Number }.
End BoundingBox.

Module Layout.
Record t := {
  filename : string;
  layers : list Layer.t;
  feature_count : Number;
  units : Units.t;
  bounding_box : BoundingBox.t
}.
End Layout.

(** A step of a recipe, and the same object once [mapLayersToSteps] has
    copied it and set [status], [layout_layer], [feature_count] and
    [warning] on the copy. *)
Module Step.
Record t := {
  step : Number;
  operation : string;
  description : string;
  layer : option string;
  material : option string;
  method : option string;
  thickness_nm : option Number;
  temperature_c : option Number;
  duration_min : option Number;
  status : option string;
  layout_layer : option Number;
  feature_count : option Number;
  warning : option string
}.

(** [s.layout_layer = v], and so on. *)
Definition set_layout_layer (v : option Number) (s : t) : t :=
  {| step := step s; operation := operation s; description := description s;
     layer := layer s; material := material s; method := method s;
     thickness_nm := thickness_nm s; temperature_c := temperature_c s;
     duration_min := duration_min s; status := status s;
     layout_layer := v; feature_count := feature_count s;
     warning := warning s |}.

Definition set_feature_count (v : option Number) (s : t) : t :=
  {| step := step s; operation := operation s; description := description s;
     layer := layer s; material := material s; method := method s;
     thickness_nm := thickness_nm s; temperature_c := temperature_c s;
     duration_min := duration_min s; status := status s;
     layout_layer := layout_layer s; feature_count := v;
     warning := warning s |}.

Definition set_status (v : string) (s : t) : t :=
  {| step := step s; operation := operation s; description := description s;
     layer := layer s; material := material s; method := method s;
     thickness_nm := thickness_nm s; temperature_c := temperature_c s;
     duration_min := duration_min s; status := Some v;
     layout_layer := layout_layer s; feature_count := feature_count s;
     warning := warning s |}.

Definition set_warning (v : string) (s : t) : t :=
  {| step := step s; operation := operation s; description := description s;
     layer := layer s; material := material s; method := method s;
     thickness_nm := thickness_nm s; temperature_c := temperature_c s;
     duration_min := duration_min s; status := status s;
     layout_layer := layout_layer s; feature_count := feature_count s;
     warning := Some v |}.

Definition set_duration_min (v : option Number) (s : t) : t :=
  {| step := step s; operation := operation s; description := description s;
     layer := layer s; material := material s; method := method s;
     thickness_nm := thickness_nm s; temperature_c := temperature_c s;
     duration_min := v; status := status s;
     layout_layer := layout_layer s; feature_count := feature_count s;
     warning := warning s |}.

(** A step as a recipe spells it: nothing but the template attributes. *)
Definition template (n : Number) (op descr : string) (l : option string)
    (d : option Number) : t :=
  {| step := n; operation := op; description := descr; layer := l;
     material := None; method := None; thickness_nm := None;
     temperature_c := None; duration_min := d; status := None;
     layout_layer := None; feature_count := None; warning := None |}.
End Step.

Module Recipe.
Record t := {
  name : string;
  technology_node : option string;
  application : option string;
  steps : list Step.t
}.
End Recipe.

Module ProcessFlow.
Record t := {
  name : string;
  process_type : string;
  technology_node : string;
  application : string;
  layout_file : string;
  layers_used : nat;
  steps : list Step.t;
  total_steps : nat;
  estimated_duration_hours : Number
}.
End ProcessFlow.

Module LayoutAnalysis.
Record t := {
  suggested_process : string;
  reason : string;
  complexity : string;
  min_feature_size : Number;
  layer_count : nat;
  feature_density : Number
}.
End LayoutAnalysis.

(** ** gds_parser.js: the layout every path yields *)

Definition mockLayout (gdsFilePath : string) : Layout.t :=
  {| Layout.filename := gdsFilePath;
     Layout.layers :=
       [ {| Layer.number := 1; Layer.name := "ACTIVE"; Layer.datatype := 0;
            Layer.feature_count := 150 |};
         {| Layer.number := 2; Layer.name := "POLY"; Layer.datatype := 0;
            Layer.feature_count := 200 |};
         {| Layer.number := 3; Layer.name := "CONTACT"; Layer.datatype := 0;
            Layer.feature_count := 300 |};
         {| Layer.number := 4; Layer.name := "METAL1"; Layer.datatype := 0;
            Layer.feature_count := 180 |};
         {| Layer.number := 5; Layer.name := "VIA1"; Layer.datatype := 0;
            Layer.feature_count := 120 |} ];
     Layout.feature_count := 950;
     Layout.units := {| Units.database_unit := 1e-9; Units.user_unit := 1e-6 |};
     Layout.bounding_box :=
       {| BoundingBox.min_x := 0; BoundingBox.min_y := 0;
          BoundingBox.max_x := 1000; BoundingBox.max_y := 1000 |} |}.

(** ** process_planner.js *)

(** [layerMap]: an object literal [{}] filled by [layerMap[layer.name] = layer].
    A plain assignment makes an own property, except under the key
    [__proto__], where it runs the setter of [Object.prototype] and the
    layer becomes the prototype of [layerMap]. *)
Module LayerMap.
Record t := { own : gmap string Layer.t; proto : option Layer.t }.

Definition empty : t := {| own := ∅; proto := None |}.

Definition set (m : t) (l : Layer.t) : t :=
  if String.eqb (Layer.name l) "__proto__"
  then {| own := own m; proto := Some l |}
  else {| own := <[Layer.name l := l]> (own m); proto := proto m |}.

(** [layerMap[key]]: own properties first, then the prototype chain, which
    is [Object.prototype], behind the layer stored under [__proto__] when
    there is one. *)
Definition get (m : t) (key : string) : property Layer.t :=
  match own m !! key with
  | Some l => Own l
  | None =>
      match proto m with
      | None => if inherited key then Foreign true else Undefined
      | Some p =>
          if String.eqb key "__proto__" then Own p
          else if String.eqb key "number" then Foreign (truthy_number (Layer.number p))
          else if String.eqb key "name" then Foreign (truthy_string (Layer.name p))
          else if String.eqb key "datatype" then Foreign (truthy_number (Layer.datatype p))
          else if String.eqb key "feature_count" then Foreign (truthy_number (Layer.feature_count p))
          else if inherited key then Foreign true
          else Undefined
      end
  end.
End LayerMap.

(** The first [forEach] of [mapLayersToSteps]. *)
Definition buildLayerMap (layers : list Layer.t) : LayerMap.t :=
  fold_left LayerMap.set layers LayerMap.empty.

(** The body of the second [forEach] of [mapLayersToSteps]: the mapped copy
    of one recipe step. *)
Definition mapStep (layerMap : LayerMap.t) (step : Step.t) : Step.t :=
  let mappedStep := step in
  match Step.layer step with
  | Some layer =>
      if truthy_string layer then
        match LayerMap.get layerMap layer with
        | Own l =>
            Step.set_status "matched"
              (Step.set_feature_count (Some (Layer.feature_count l))
                 (Step.set_layout_layer (Some (Layer.number l)) mappedStep))
        | Foreign true =>
            (* [layerMap[step.layer].number] is [undefined] *)
            Step.set_status "matched"
              (Step.set_feature_count None
                 (Step.set_layout_layer None mappedStep))
        | Foreign false | Undefined =>
            Step.set_warning ("Layer " +:+ layer +:+ " not found in layout")
              (Step.set_status "layer_missing" mappedStep)
        end
      else Step.set_status "layer_independent" mappedStep
  | None => Step.set_status "layer_independent" mappedStep
  end.

Definition mapLayersToSteps (layout : Layout.t) (recipe : Recipe.t) : list Step.t :=
  let layerMap := buildLayerMap (Layout.layers layout) in
  map (mapStep layerMap) (Recipe.steps recipe).

(** [defaultDurations], an object literal. *)
Definition defaultDurations : gmap string Number :=
  list_to_map
    [ ("lithography"%string, 2); ("etch"%string, 1); ("deposition"%string, 3);
      ("implantation"%string, 2); ("thermal_oxidation"%string, 3);
      ("cmp"%string, 1.5); ("metallization"%string, 2); ("strip"%string, 0.5);
      ("wet_etch"%string, 0.5) ].

(** [totalHours]: a number, until [+=] is given a function or an object
    (an inherited property of [defaultDurations]); then [+=] concatenates
    strings, and the text that results is not a numeral. *)
Inductive hours : Type :=
| Hours (h : Number)
| Text.

(** The body of the [forEach] of [calculateDuration]. *)
Definition addDuration (totalHours : hours) (step : Step.t) : hours :=
  match totalHours with
  | Text => Text
  | Hours h =>
      if truthy_opt truthy_number (Step.duration_min step) then
        match Step.duration_min step with
        | Some d => Hours (h + d / 60)
        | None => Hours h
        end
      else
        match get defaultDurations (Step.operation step) with
        | Own d => Hours (h + (if truthy_number d then d else 1))
        | Foreign true => Text
        | Foreign false | Undefined => Hours (h + 1)
        end
  end.

(** The sum before [Math.round]. *)
Definition totalHours (steps : list Step.t) : hours :=
  fold_left addDuration steps (Hours 0).

Definition calculateDuration (steps : list Step.t) : Number :=
  match totalHours steps with
  | Hours h => Math_round (h * 10) / 10
  | Text => nan   (* [ToNumber] of a text that is no numeral *)
  end.

(** [x || d] on an optional string. *)
Definition or_default (x : option string) (d : string) : string :=
  match x with
  | Some s => if truthy_string s then s else d
  | None => d
  end.

Definition estimateMinFeatureSize (layout : Layout.t) : Number :=
  let area := BoundingBox.max_x (Layout.bounding_box layout)
              * BoundingBox.max_y (Layout.bounding_box layout) in
  let avgFeatureArea := area / Layout.feature_count layout in
  Math_round (Math_sqrt avgFeatureArea * 10) / 10.

Section Planner.

(** The contents of [recipe_db.json], as [JSON.parse] returns them. *)
Variable recipes : gmap string Recipe.t.
Context {host : Host}.

Definition generateFlow (layout : Layout.t) (processType : string)
    : completion ProcessFlow.t :=
  match get recipes processType with
  | Undefined | Foreign false =>
      Throw (Error ("Unknown process type: " +:+ processType))
  | Foreign true =>
      (* [recipes[processType]] is a built-in of [Object.prototype]: the
         guard lets it through, [recipe.steps] is [undefined] and
         [mapLayersToSteps] calls [forEach] on it *)
      Throw (TypeError "Cannot read properties of undefined (reading 'forEach')")
  | Own recipe =>
      let mappedSteps := mapLayersToSteps layout recipe in
      let totalDuration := calculateDuration mappedSteps in
      Return
        {| ProcessFlow.name := Recipe.name recipe;
           ProcessFlow.process_type := processType;
           ProcessFlow.technology_node := or_default (Recipe.technology_node recipe) "N/A";
           ProcessFlow.application := or_default (Recipe.application recipe) "General";
           ProcessFlow.layout_file := Layout.filename layout;
           ProcessFlow.layers_used := length (Layout.layers layout);
           ProcessFlow.steps := mappedSteps;
           ProcessFlow.total_steps := length mappedSteps;
           ProcessFlow.estimated_duration_hours := totalDuration |}
  end.

(** [generateFlow(layout)]: the default of the second parameter. *)
Definition generateFlow_default (layout : Layout.t) : completion ProcessFlow.t :=
  generateFlow layout "cmos_standard".

Definition analyzeLayout (layout : Layout.t) : LayoutAnalysis.t :=
  let layerNames := map (fun l => toUpperCase (Layer.name l)) (Layout.layers layout) in
  let featureCount := Layout.feature_count layout in
  let '(suggestedProcess, reason, complexity) :=
    if existsb (fun name => includes "CANTILEVER" name || includes "MEMBRANE" name) layerNames
    then
      if existsb (fun name => includes "ELECTRODE" name) layerNames
      then ("mems_cantilever", "Detected cantilever structures with electrodes", "high")
      else ("mems_pressure_sensor", "Detected MEMS membrane structures", "high")
    else if existsb (fun name => includes "WAVEGUIDE" name || includes "GRATING" name) layerNames
    then ("photonics_waveguide", "Detected photonic waveguide patterns", "high")
    else if array_includes "POLY" layerNames && array_includes "ACTIVE" layerNames
    then ("cmos_standard", "Standard CMOS layers detected (POLY, ACTIVE)",
          if 1000 <? featureCount then "high" else "medium")
    else ("cmos_standard", "Default CMOS process", "medium") in
  let minFeatureSize := estimateMinFeatureSize layout in
  {| LayoutAnalysis.suggested_process := suggestedProcess;
     LayoutAnalysis.reason := reason;
     LayoutAnalysis.complexity := complexity;
     LayoutAnalysis.min_feature_size := minFeatureSize;
     LayoutAnalysis.layer_count := length (Layout.layers layout);
     LayoutAnalysis.feature_density :=
       featureCount
       / (BoundingBox.max_x (Layout.bounding_box layout)
          * BoundingBox.max_y (Layout.bounding_box layout)) |}.

(** [if (field) output += line(field)] for a string field and for a number
    field. *)
Definition when_string (field : option string) (line : string -> string) : string :=
  match field with
  | Some s => if truthy_string s then line s else ""
  | None => ""
  end.

Definition when_number (field : option Number) (line : string -> string) : string :=
  match field with
  | Some x => if truthy_number x then line (Number_toString x) else ""
  | None => ""
  end.

(** The body of the [forEach] of [formatText]: what one step appends. *)
Definition formatText_step (step : Step.t) : string :=
  "Step " +:+ Number_toString (Step.step step) +:+ ": "
    +:+ toUpperCase (Step.operation step) +:+ nl
  +:+ "  Description: " +:+ Step.description step +:+ nl
  +:+ when_string (Step.material step) (fun v => "  Material: " +:+ v +:+ nl)
  +:+ when_string (Step.method step) (fun v => "  Method: " +:+ v +:+ nl)
  +:+ when_number (Step.thickness_nm step) (fun v => "  Thickness: " +:+ v +:+ " nm" +:+ nl)
  +:+ when_number (Step.temperature_c step) (fun v => "  Temperature: " +:+ v +:+ "°C" +:+ nl)
  +:+ when_string (Step.layer step) (fun v => "  Mask Layer: " +:+ v +:+ nl)
  +:+ when_string (Step.warning step) (fun v => "  ⚠ WARNING: " +:+ v +:+ nl)
  +:+ nl.

Definition formatText_header (processFlow : ProcessFlow.t) : string :=
  repeat_string "=" 60 +:+ nl
  +:+ "FABRICATION PROCESS FLOW" +:+ nl
  +:+ repeat_string "=" 60 +:+ nl +:+ nl
  +:+ "Process: " +:+ ProcessFlow.name processFlow +:+ nl
  +:+ "Type: " +:+ ProcessFlow.process_type processFlow +:+ nl
  +:+ "Technology: " +:+ ProcessFlow.technology_node processFlow +:+ nl
  +:+ "Application: " +:+ ProcessFlow.application processFlow +:+ nl
  +:+ "Layout File: " +:+ ProcessFlow.layout_file processFlow +:+ nl
  +:+ "Total Steps: "
    +:+ Number_toString (number_of_nat (ProcessFlow.total_steps processFlow)) +:+ nl
  +:+ "Estimated Duration: "
    +:+ Number_toString (ProcessFlow.estimated_duration_hours processFlow)
    +:+ " hours" +:+ nl +:+ nl
  +:+ repeat_string "-" 60 +:+ nl
  +:+ "PROCESS STEPS" +:+ nl
  +:+ repeat_string "-" 60 +:+ nl +:+ nl.

Definition formatText (processFlow : ProcessFlow.t) : string :=
  fold_left (fun output step => output +:+ formatText_step step)
    (ProcessFlow.steps processFlow) (formatText_header processFlow).

(** The body of the [forEach] of [formatMarkdown]. *)
Definition formatMarkdown_step (step : Step.t) : string :=
  "### Step " +:+ Number_toString (Step.step step) +:+ ": "
    +:+ Step.operation step +:+ nl +:+ nl
  +:+ Step.description step +:+ nl +:+ nl
  +:+ (if truthy_opt truthy_string (Step.material step)
          || truthy_opt truthy_string (Step.method step)
          || truthy_opt truthy_number (Step.thickness_nm step)
          || truthy_opt truthy_number (Step.temperature_c step)
       then
         "**Parameters:**" +:+ nl
         +:+ when_string (Step.material step) (fun v => "- Material: " +:+ v +:+ nl)
         +:+ when_string (Step.method step) (fun v => "- Method: " +:+ v +:+ nl)
         +:+ when_number (Step.thickness_nm step) (fun v => "- Thickness: " +:+ v +:+ " nm" +:+ nl)
         +:+ when_number (Step.temperature_c step) (fun v => "- Temperature: " +:+ v +:+ "°C" +:+ nl)
         +:+ when_string (Step.layer step) (fun v => "- Mask Layer: " +:+ v +:+ nl)
         +:+ nl
       else "")
  +:+ when_string (Step.warning step) (fun v => "> ⚠️ **Warning**: " +:+ v +:+ nl +:+ nl).

Definition formatMarkdown_header (processFlow : ProcessFlow.t) : string :=
  "# Fabrication Process Flow" +:+ nl +:+ nl
  +:+ "## Process Information" +:+ nl +:+ nl
  +:+ "- **Process**: " +:+ ProcessFlow.name processFlow +:+ nl
  +:+ "- **Type**: " +:+ ProcessFlow.process_type processFlow +:+ nl
  +:+ "- **Technology**: " +:+ ProcessFlow.technology_node processFlow +:+ nl
  +:+ "- **Application**: " +:+ ProcessFlow.application processFlow +:+ nl
  +:+ "- **Layout File**: " +:+ ProcessFlow.layout_file processFlow +:+ nl
  +:+ "- **Total Steps**: "
    +:+ Number_toString (number_of_nat (ProcessFlow.total_steps processFlow)) +:+ nl
  +:+ "- **Estimated Duration**: "
    +:+ Number_toString (ProcessFlow.estimated_duration_hours processFlow)
    +:+ " hours" +:+ nl +:+ nl
  +:+ "## Process Steps" +:+ nl +:+ nl.

Definition formatMarkdown (processFlow : ProcessFlow.t) : string :=
  fold_left (fun output step => output +:+ formatMarkdown_step step)
    (ProcessFlow.steps processFlow) (formatMarkdown_header processFlow).

End Planner.

(** ** Sample data

    [recipe_db.json] is read at load time and is no part of the planner; the
    table below is a small one to run the planner on. *)

Definition demo_recipe : Recipe.t :=
  {| Recipe.name := "Demo CMOS flow";
     Recipe.technology_node := Some "180nm"%string;
     Recipe.application := None;
     Recipe.steps :=
       [ Step.template 1 "lithography" "Pattern active area" (Some "ACTIVE"%string) None;
         Step.template 2 "etch" "Etch second via" (Some "VIA2"%string) (Some 30);
         Step.template 3 "clean" "Wafer clean" None None ] |}.

Definition demo_recipes : gmap string Recipe.t :=
  {[ "cmos_standard"%string := demo_recipe ]}.

(** A recipe whose only step names the layer [constructor]. *)
Definition constructor_recipe : Recipe.t :=
  {| Recipe.name := "One step";
     Recipe.technology_node := None;
     Recipe.application := None;
     Recipe.steps :=
       [ Step.template 1 "etch" "Etch" (Some "constructor"%string) None ] |}.

(** ** The spec's reading of the duration of a step *)

(** The fixed table of default durations, as the specification lists it,
    with its fallback of one hour. *)
Definition spec_default_hours (operation : string) : Number :=
  if String.eqb operation "lithography" then 2
  else if String.eqb operation "etch" then 1
  else if String.eqb operation "deposition" then 3
  else if String.eqb operation "implantation" then 2
  else if String.eqb operation "thermal_oxidation" then 3
  else if String.eqb operation "cmp" then 1.5
  else if String.eqb operation "metallization" then 2
  else if String.eqb operation "strip" then 0.5
  else if String.eqb operation "wet_etch" then 0.5
  else 1.

(** "[duration_min / 60] when [duration_min] is present, otherwise the
    default of the operation". *)
Definition spec_contribution (step : Step.t) : Number :=
  match Step.duration_min step with
  | Some d => d / 60
  | None => spec_default_hours (Step.operation step)
  end.

(** The same with "present" read as the planner reads it: present, and
    neither zero nor NaN. *)
Definition contribution (step : Step.t) : Number :=
  match Step.duration_min step with
  | Some d => if truthy_number d then d / 60 else spec_default_hours (Step.operation step)
  | None => spec_default_hours (Step.operation step)
  end.

(** The sum of the contributions, from 0, in the order of the steps. *)
Definition sum_hours (f : Step.t -> Number) (steps : list Step.t) : Number :=
  fold_left (fun total step => total + f step) steps 0.

(** Rounding to one decimal place, halves up. *)
Definition round_1_decimal (h : Number) : Number := Math_round (h * 10) / 10.

Definition spec_duration (steps : list Step.t) : Number :=
  round_1_decimal (sum_hours spec_contribution steps).

(** ** gds_parser.js: the statistics of a layout *)

(** [getLayoutStats] of gds_parser.js, which measures the bounding box from
    its minimum corner. *)
Module LayoutStats.
Record t := {
  total_layers : nat;
  total_features : Number;
  area_mm2 : Number;
  density : Number
}.
End LayoutStats.

Definition getLayoutStats (layout : Layout.t) : LayoutStats.t :=
  let box := Layout.bounding_box layout in
  {| LayoutStats.total_layers := length (Layout.layers layout);
     LayoutStats.total_features := Layout.feature_count layout;
     LayoutStats.area_mm2 :=
       ((BoundingBox.max_x box - BoundingBox.min_x box)
        * (BoundingBox.max_y box - BoundingBox.min_y box)) / 1e6;
     LayoutStats.density :=
       Layout.feature_count layout
       / (((BoundingBox.max_x box - BoundingBox.min_x box)
           * (BoundingBox.max_y box - BoundingBox.min_y box)) / 1e6) |}.

(** ** gds_parser.js: reading a file and listing its layers *)

(** What the [fs] module answers to the calls of the parser and of the
    command line. [None] stands for a call that returns; [Some e] for one
    that throws [e]. *)
Class FileSystem := {
  existsSync : string -> bool;
  statSync : string -> option exn;
  writeFileSync : string -> string -> option exn
}.

(** [parseGDS]: the file is looked up and its status read; its contents
    are not. *)
Definition parseGDS {fs : FileSystem} (gdsFilePath : string) : completion Layout.t :=
  if negb (existsSync gdsFilePath) then
    Throw (Error ("GDS file not found: " +:+ gdsFilePath))
  else
    match statSync gdsFilePath with
    | Some e => Throw e
    | None => Return (mockLayout gdsFilePath)
    end.

(** An element of the array of [extractLayers]. *)
Module LayerSummary.
Record t := {
  number : Number;
  name : string;
  feature_count : Number
}.
End LayerSummary.

Definition extractLayers (layout : Layout.t) : list LayerSummary.t :=
  map (fun layer =>
         {| LayerSummary.number := Layer.number layer;
            LayerSummary.name := Layer.name layer;
            LayerSummary.feature_count := Layer.feature_count layer |})
      (Layout.layers layout).

(** ** cli/generate_flow.js: the commands [generate] and [analyze] *)

(** The styles of [chalk] the commands use. *)
Inductive style : Type :=
| blue_bold | yellow | green | cyan | red | green_bold.

(** What the packages and the engine provide: the colouring of [chalk] and
    [JSON.stringify(processFlow, null, 2)]. *)
Class Libraries := {
  chalk : style -> string -> string;
  JSON_stringify : ProcessFlow.t -> string
}.

(** The options of [generate], with the defaults [commander] gives them. *)
Module Options.
Record t := {
  process : string;
  output : string;
  format : string
}.

Definition defaults : t :=
  {| process := "cmos_standard"; output := "process_flow.txt"; format := "text" |}.
End Options.

(** What a command does to the outside. *)
Inductive event : Type :=
| console_log (line : string)
| console_error (line : string)
| fs_writeFileSync (path data : string)   (* the call, whether it returns or throws *)
| process_exit (code : nat).

(** [error.message]. *)
Definition message (e : exn) : string :=
  match e with
  | Error m => m
  | TypeError m => m
  end.

(** A computation that acts on the outside and returns or throws. *)
Definition io (A : Type) : Type := (list event * completion A)%type.

#[global] Instance io_ret : MRet io := fun A a => ([], Return a).

#[global] Instance io_bind : MBind io := fun A B f m =>
  match m with
  | (out, Return a) => let '(out', r) := f a in (out ++ out', r)
  | (out, Throw e) => (out, Throw e)
  end.

Definition emit (e : event) : io unit := ([e], Return tt).

Definition lift {A} (c : completion A) : io A := ([], c).

(** [try { body } catch (error) { handler }]. *)
Definition try_catch (body : io unit) (handler : exn -> io unit) : io unit :=
  match body with
  | (out, Return _) => (out, Return tt)
  | (out, Throw e) => let '(out', r) := handler e in (out ++ out', r)
  end.

Section CommandLine.

Variable recipes : gmap string Recipe.t.
Context {host : Host} {fs : FileSystem} {libraries : Libraries}.

(** The [catch] block of both commands. [process.exit(1)] ends the process;
    it is the last statement of the action. *)
Definition report (error : exn) : io unit :=
  emit (console_error (chalk red (nl +:+ "✗ Error: " +:+ message error +:+ nl))) ;;
  emit (process_exit 1).

(** The [switch] on [options.format]. *)
Definition render (format : string) (processFlow : ProcessFlow.t) : string :=
  if String.eqb format "json" then JSON_stringify processFlow
  else if String.eqb format "markdown" then formatMarkdown processFlow
  else formatText processFlow.

(** The action of [generate <gds-file>]. *)
Definition generate (gdsFile : string) (options : Options.t) : io unit :=
  emit (console_log (chalk blue_bold (nl +:+ "=== Fab Process Generator ===" +:+ nl))) ;;
  try_catch
    (emit (console_log (chalk yellow "Parsing GDS-II file...")) ;;
     layout ← lift (parseGDS gdsFile);
     emit (console_log
             (chalk green
                ("✓ Found "
                 +:+ Number_toString (number_of_nat (length (Layout.layers layout)))
                 +:+ " layers"))) ;;
     emit (console_log (chalk yellow (nl +:+ "Generating process flow..."))) ;;
     processFlow ← lift (generateFlow recipes layout (Options.process options));
     emit (console_log
             (chalk green
                ("✓ Generated "
                 +:+ Number_toString (number_of_nat (length (ProcessFlow.steps processFlow)))
                 +:+ " process steps"))) ;;
     let output := render (Options.format options) processFlow in
     emit (fs_writeFileSync (Options.output options) output) ;;
     lift (match writeFileSync (Options.output options) output with
           | Some e => Throw e
           | None => Return tt
           end) ;;
     emit (console_log
             (chalk green
                (nl +:+ "✓ Process flow saved to " +:+ Options.output options +:+ nl))) ;;
     emit (console_log (chalk cyan "Process Summary:")) ;;
     emit (console_log ("  Process: " +:+ ProcessFlow.name processFlow)) ;;
     emit (console_log
             ("  Total Steps: "
              +:+ Number_toString (number_of_nat (length (ProcessFlow.steps processFlow))))) ;;
     emit (console_log
             ("  Lithography Masks: "
              +:+ Number_toString (number_of_nat (length (Layout.layers layout))))) ;;
     emit (console_log
             ("  Estimated Duration: "
              +:+ Number_toString (ProcessFlow.estimated_duration_hours processFlow)
              +:+ " hours" +:+ nl)))
    report.

(** The action of [analyze <gds-file>]. *)
Definition analyze (gdsFile : string) : io unit :=
  emit (console_log (chalk blue_bold (nl +:+ "=== Layout Analysis ===" +:+ nl))) ;;
  try_catch
    (layout ← lift (parseGDS gdsFile);
     let analysis := analyzeLayout layout in
     emit (console_log (chalk cyan "Layout Information:")) ;;
     emit (console_log
             ("  Layers: "
              +:+ Number_toString (number_of_nat (length (Layout.layers layout))))) ;;
     emit (console_log
             ("  Features: " +:+ Number_toString (Layout.feature_count layout))) ;;
     emit (console_log
             ("  Min Feature Size: "
              +:+ Number_toString (LayoutAnalysis.min_feature_size analysis) +:+ " µm")) ;;
     emit (console_log ("  Complexity: " +:+ LayoutAnalysis.complexity analysis)) ;;
     emit (console_log (chalk cyan (nl +:+ "Suggested Process:"))) ;;
     emit (console_log
             ("  Type: " +:+ chalk green_bold (LayoutAnalysis.suggested_process analysis))) ;;
     emit (console_log ("  Reason: " +:+ LayoutAnalysis.reason analysis)) ;;
     emit (console_log ""))
    report.

End CommandLine.

(** * Vocabulary of the properties *)

(** The layer a name stands for: the last layer of the layout of that name
    (a later layer overwrites an earlier one of the same name). *)
Definition last_named (key : string) (layers : list Layer.t) : option Layer.t :=
  last (filter (fun l => Layer.name l = key) layers).

(** A step names a layer when its [layer] is a non-empty string. *)
Definition names_layer (template : Step.t) (name : string) : Prop :=
  Step.layer template = Some name /\ name <> ""%string.

Definition in_layout (layers : list Layer.t) (name : string) : Prop :=
  exists l, l ∈ layers /\ Layer.name l = name.

(** The steps whose hours [calculateDuration] adds as numbers: a step with
    a [duration_min] that counts, or with an operation that is not an
    inherited name. *)
Definition adds_hours (step : Step.t) : bool :=
  truthy_opt truthy_number (Step.duration_min step)
  || negb (inherited (Step.operation step)).

(** An etch step whose [duration_min] is present and zero. *)
Definition zero_minutes_etch : Step.t :=
  Step.template 1 "etch" "Etch" None (Some 0).

(** A step of an operation outside the table, called [constructor], whose
    [duration_min] is present and zero. *)
Definition zero_minutes_constructor : Step.t :=
  Step.template 1 "constructor" "Custom step" None (Some 0).

(** Some name of the list contains the word. *)
Definition some_contains (names : list string) (word : string) : Prop :=
  exists name, In name names /\ exists pre post, name = pre +:+ word +:+ post.

(** The layout with another minimum corner of its bounding box. *)
Definition with_min_corner (x y : Number) (layout : Layout.t) : Layout.t :=
  {| Layout.filename := Layout.filename layout;
     Layout.layers := Layout.layers layout;
     Layout.feature_count := Layout.feature_count layout;
     Layout.units := Layout.units layout;
     Layout.bounding_box :=
       {| BoundingBox.min_x := x; BoundingBox.min_y := y;
          BoundingBox.max_x := BoundingBox.max_x (Layout.bounding_box layout);
          BoundingBox.max_y := BoundingBox.max_y (Layout.bounding_box layout) |} |}.

(** The layout with another feature count and another maximum corner. *)
Definition with_size (count x y : Number) (layout : Layout.t) : Layout.t :=
  {| Layout.filename := Layout.filename layout;
     Layout.layers := Layout.layers layout;
     Layout.feature_count := count;
     Layout.units := Layout.units layout;
     Layout.bounding_box :=
       {| BoundingBox.min_x := BoundingBox.min_x (Layout.bounding_box layout);
          BoundingBox.min_y := BoundingBox.min_y (Layout.bounding_box layout);
          BoundingBox.max_x := x; BoundingBox.max_y := y |} |}.

(** The layout of the parser with no feature, and with an empty bounding
    box. *)
Definition featureless_layout : Layout.t :=
  with_size 0 1000 1000 (mockLayout "chip.gds").

Definition flat_layout : Layout.t :=
  with_size 950 1000 0 (mockLayout "chip.gds").

(** The text of the steps, one after the other. *)
Fixpoint concat_steps (render : Step.t -> string) (steps : list Step.t) : string :=
  match steps with
  | [] => ""
  | step :: rest => render step +:+ concat_steps render rest
  end.

(** A lithography step on the layer ACTIVE, as [mapLayersToSteps] returns
    it on the layout of the parser. *)
Definition lithography_step : Step.t :=
  mapStep (buildLayerMap (Layout.layers (mockLayout "chip.gds")))
    (Step.template 1 "lithography" "Pattern active area" (Some "ACTIVE"%string) None).

(** An etch of 6e17 minutes, that is 1e16 hours, and an etch step with the
    default duration of one hour. *)
Definition long_etch : Step.t :=
  Step.template 1 "etch" "Deep etch" None (Some 6e17).

Definition plain_etch : Step.t :=
  Step.template 2 "etch" "Etch" None None.

Section LayoutClasses.

Context {host : Host}.

(** The uppercased layer names of a layout. *)
Definition upper_names (layout : Layout.t) : list string :=
  map (fun l => toUpperCase (Layer.name l)) (Layout.layers layout).

Definition mems_layout (layout : Layout.t) : Prop :=
  some_contains (upper_names layout) "CANTILEVER"
  \/ some_contains (upper_names layout) "MEMBRANE".

Definition photonics_layout (layout : Layout.t) : Prop :=
  some_contains (upper_names layout) "WAVEGUIDE"
  \/ some_contains (upper_names layout) "GRATING".

Definition cmos_layout (layout : Layout.t) : Prop :=
  In "POLY"%string (upper_names layout) /\ In "ACTIVE"%string (upper_names layout).

End LayoutClasses.

(** ** Vocabulary and samples for the parser, the renderings and the commands *)

(** The recipe with other steps. *)
Definition with_steps (steps : list Step.t) (recipe : Recipe.t) : Recipe.t :=
  {| Recipe.name := Recipe.name recipe;
     Recipe.technology_node := Recipe.technology_node recipe;
     Recipe.application := Recipe.application recipe;
     Recipe.steps := steps |}.

(** A step whose [duration_min], if it has one, is not below zero. *)
Definition no_negative_minutes (step : Step.t) : bool :=
  match Step.duration_min step with
  | Some d => negb (d <? 0)
  | None => true
  end.

(** A recipe with no step, and a table that holds it beside the demo. *)
Definition empty_recipe : Recipe.t :=
  {| Recipe.name := "Bare wafer";
     Recipe.technology_node := None;
     Recipe.application := Some "Test"%string;
     Recipe.steps := [] |}.

Definition sample_recipes : gmap string Recipe.t :=
  {[ "cmos_standard"%string := demo_recipe; "bare"%string := empty_recipe ]}.

(** The names of the layers [parseGDS] returns. *)
Definition mock_layer_names : list string :=
  [ "ACTIVE"; "POLY"; "CONTACT"; "METAL1"; "VIA1" ]%string.

(** The layout of the parser with [max_x = min_x]: a box of no width. *)
Definition empty_box_layout : Layout.t :=
  with_size 950 0 1000 (mockLayout "chip.gds").

(** The line of a mask layer in the text rendering, and the line of a
    warning in each rendering. *)
Definition text_mask_layer (layer : string) : string :=
  "  Mask Layer: " +:+ layer +:+ nl.

Definition text_warning (warning : string) : string :=
  "  ⚠ WARNING: " +:+ warning +:+ nl.

Definition markdown_warning (warning : string) : string :=
  "> ⚠️ **Warning**: " +:+ warning +:+ nl +:+ nl.

(** What a run did, and whether it called [process.exit(1)]. *)
Definition events {A} (run : io A) : list event := fst run.

Definition exits (run : io unit) : Prop := In (process_exit 1) (events run).

(** A file system that holds the listed files and writes without fail. *)
Definition disk (files : list string) : FileSystem :=
  {| existsSync := fun path => array_includes path files;
     statSync := fun _ => None;
     writeFileSync := fun _ _ => None |}.

(** [chalk] with colours off. The JSON text is the engine's; the examples
    do not ask for it, and this instance does not spell it out. *)
Definition plain_libraries : Libraries :=
  {| chalk := fun _ text => text;
     JSON_stringify := fun _ => "{}"%string |}.

(** Options that ask for a format the command does not know, and for a
    process the table does not hold. *)
Definition yaml_options : Options.t :=
  {| Options.process := "cmos_standard"; Options.output := "flow.yaml";
     Options.format := "yaml" |}.

Definition finfet_options : Options.t :=
  {| Options.process := "finfet"; Options.output := "process_flow.txt";
     Options.format := "text" |}.

(** ** Binary64: values, order and rounding of doubles *)

Module Binary64.

Local Open Scope R_scope.

Definition pow2 (e : Z) : R := powerRZ 2 e.
Arguments pow2 : simpl never.

(** The value of a mantissa and an exponent. *)
Definition F2R (m e : Z) : R := IZR m * pow2 e.
Arguments F2R : simpl never.

Definition digits (m : Z) : Z := Zdigits2 m.

Definition fexp (e : Z) : Z := SpecFloat.fexp prec emax e.

(** A positive mantissa in its canonical position: 53 digits, or fewer at
    the least exponent. The exponent is not bounded from above. *)
Definition canonical (m e : Z) : Prop :=
  (0 < m)%Z /\ fexp (digits m + e) = e.

Definition SFval (x : spec_float) : R :=
  match x with
  | S754_finite s m e => F2R (cond_Zopp s (Z.pos m)) e
  | _ => 0
  end.

(** The place of a float in the order: an infinity stands at [2^1024],
    beyond every finite double. *)
Definition rank (x : spec_float) : R :=
  match x with
  | S754_infinity s => if s then - pow2 1024 else pow2 1024
  | _ => SFval x
  end.

Definition is_number (x : spec_float) : bool :=
  match x with
  | S754_nan => false
  | _ => true
  end.

Definition valid (x : spec_float) : Prop := SpecFloat.valid_binary prec emax x = true.

Definition signed (s : bool) (u : R) : R := if s then - u else u.

Definition Rcmp (x y : R) (c : comparison) : Prop :=
  match c with
  | Lt => x < y
  | Eq => x = y
  | Gt => y < x
  end.

(** Where a real [x] stands between [m 2^e] and [(m+1) 2^e]. *)
Definition inbetween (m e : Z) (l : location) (x : R) : Prop :=
  match l with
  | loc_Exact => x = F2R m e
  | loc_Inexact Lt => F2R m e < x < F2R m e + pow2 e / 2
  | loc_Inexact Eq => x = F2R m e + pow2 e / 2
  | loc_Inexact Gt => F2R m e + pow2 e / 2 < x < F2R m e + pow2 e
  end.

(** A mantissa on the grid of the format: canonical, or zero at the least
    exponent. *)
Definition grid (m e : Z) : Prop :=
  (m = 0%Z /\ e = (-1074)%Z) \/ canonical m e.

(** The values of the format, exponents unbounded from above. *)
Definition float_value (f : R) : Prop :=
  f = 0 \/ exists m e, canonical m e /\ f = F2R m e.

(** [u] is at least as close to [x] as every value of the format. *)
Definition nearest (u x : R) : Prop :=
  forall f, float_value f ->
    (f <= x -> f <= u /\ u + f <= 2 * x)
    /\ (x <= f -> u <= f /\ 2 * x <= u + f).

(** The result of a rounding, from its mantissa and exponent. *)
Definition encode (s : bool) (m e : Z) : spec_float :=
  match m with
  | Z0 => S754_zero s
  | Zpos p => if (e <=? 971)%Z then S754_finite s p e else S754_infinity s
  | Zneg _ => S754_nan
  end.

Definition clamp (u : R) : R := Rmin u (pow2 1024).

(** [r] is a rounding to nearest of the real [x]. *)
Definition rounds (r : spec_float) (x : R) : Prop :=
  exists s m e,
    r = encode s m e
    /\ (m = 0%Z \/ canonical m e)
    /\ nearest (F2R m e) (Rabs x)
    /\ (0 < x -> s = false) /\ (x < 0 -> s = true).

Definition finite_or_zero (x : spec_float) : bool :=
  match x with
  | S754_zero _ | S754_finite _ _ _ => true
  | _ => false
  end.

Definition ten : spec_float := S754_finite false 5629499534213120 (-49).

(** [Math_round] on spec floats. *)
Definition SFround (x : spec_float) : spec_float :=
  match x with
  | S754_finite s m e =>
      if (0 <=? e)%Z then x
      else
        let num := ((if s then Z.neg m else Z.pos m) * 2 + 2 ^ (- e))%Z in
        let n := (num / 2 ^ (1 - e))%Z in
        let r := binary_normalize prec emax (Z.abs n) 0 false in
        if (n <? 0)%Z || ((n =? 0)%Z && s) then SFopp r else r
  | _ => x
  end.

Definition round_half_up (v : R) : R := IZR (Zfloor (v + / 2)).

End Binary64.

(** * Properties *)

(** ** Computed keys *)

Lemma get_own {A} (table : gmap string A) key a :
  table !! key = Some a -> get table key = Own a.
Proof. intros H. unfold get. now rewrite H. Qed.

Lemma get_missing {A} (table : gmap string A) key :
  table !! key = None -> inherited key = false -> get table key = Undefined.
Proof. intros H Hk. unfold get. now rewrite H, Hk. Qed.

Lemma get_inherited {A} (table : gmap string A) key :
  table !! key = None -> inherited key = true -> get table key = Foreign true.
Proof. intros H Hk. unfold get. now rewrite H, Hk. Qed.

(** ** generateFlow: the recipe lookup *)

Section GenerateFlow.

Variable recipes : gmap string Recipe.t.

(** A process type that is a key of the table never fails, whatever the
    layout: a step whose layer the layout lacks only gets a warning. *)
Lemma generateFlow_known layout processType recipe :
  recipes !! processType = Some recipe ->
  exists flow,
    generateFlow recipes layout processType = Return flow
    /\ ProcessFlow.steps flow = mapLayersToSteps layout recipe.
Proof.
  intros H. unfold generateFlow. rewrite (get_own _ _ _ H).
  eexists. split; reflexivity.
Qed.

(** Away from the names every object inherits, the guard is the test of
    membership: the call fails, with the error of the guard, exactly when
    the process type is no key of the table. *)
Lemma generateFlow_unknown layout processType :
  inherited processType = false ->
  generateFlow recipes layout processType
    = Throw (Error ("Unknown process type: " +:+ processType))
  <-> recipes !! processType = None.
Proof.
  intros Hk. unfold generateFlow, get. rewrite Hk.
  destruct (recipes !! processType); split; intros H; try discriminate; reflexivity.
Qed.

(** An inherited name that is no key passes the guard and fails later, with
    a [TypeError]. *)
Lemma generateFlow_inherited layout processType :
  recipes !! processType = None ->
  inherited processType = true ->
  generateFlow recipes layout processType
    = Throw (TypeError "Cannot read properties of undefined (reading 'forEach')").
Proof.
  intros H Hk. unfold generateFlow. now rewrite (get_inherited _ _ H Hk).
Qed.

End GenerateFlow.

(** C1, at the process type [constructor]: it is no key of the table, and
    the call does not fail with the error of the guard ("Unknown process
    type: constructor") but with a [TypeError], raised when
    [mapLayersToSteps] reads [recipe.steps.forEach] on the inherited
    [Object.prototype.constructor]. *)
Theorem generateFlow_constructor_TypeError :
  demo_recipes !! "constructor"%string = None
  /\ generateFlow demo_recipes (mockLayout "chip.gds") "constructor"
     = Throw (TypeError "Cannot read properties of undefined (reading 'forEach')")
  /\ generateFlow demo_recipes (mockLayout "chip.gds") "constructor"
     <> Throw (Error "Unknown process type: constructor").
Proof.
  split; [reflexivity|]. split; [reflexivity|]. discriminate.
Qed.

(** ** mapLayersToSteps *)

Ltac case_mapStep layerMap template :=
  unfold mapStep;
  destruct template as [? ? ? [layer|] ? ? ? ? ? ? ? ? ?]; cbn; [|reflexivity];
  destruct (truthy_string layer); [|reflexivity];
  destruct (LayerMap.get layerMap layer) as [l|[|]|]; reflexivity.

(** The attributes of a recipe step are those of its mapped copy. *)
Lemma mapStep_template layerMap template :
  let mapped := mapStep layerMap template in
  Step.step mapped = Step.step template
  /\ Step.operation mapped = Step.operation template
  /\ Step.description mapped = Step.description template
  /\ Step.layer mapped = Step.layer template
  /\ Step.material mapped = Step.material template
  /\ Step.method mapped = Step.method template
  /\ Step.thickness_nm mapped = Step.thickness_nm template
  /\ Step.temperature_c mapped = Step.temperature_c template
  /\ Step.duration_min mapped = Step.duration_min template.
Proof.
  cbv zeta. repeat split; case_mapStep layerMap template.
Qed.

(** C4: for a process type of the table, [total_steps] is the number of
    steps of the recipe, and the i-th step of the flow is the mapped copy of
    the i-th step of the recipe, with the attributes of the template
    (step, operation, description, material, method, thickness_nm,
    temperature_c, duration_min, and layer) unchanged. *)
Theorem generateFlow_steps_in_recipe_order
    (recipes : gmap string Recipe.t) (layout : Layout.t)
    (processType : string) (recipe : Recipe.t) :
  recipes !! processType = Some recipe ->
  exists flow,
    generateFlow recipes layout processType = Return flow
    /\ ProcessFlow.total_steps flow = length (Recipe.steps recipe)
    /\ length (ProcessFlow.steps flow) = length (Recipe.steps recipe)
    /\ forall (i : nat) (template : Step.t),
         Recipe.steps recipe !! i = Some template ->
         exists mapped,
           ProcessFlow.steps flow !! i = Some mapped
           /\ mapped = mapStep (buildLayerMap (Layout.layers layout)) template
           /\ Step.step mapped = Step.step template
           /\ Step.operation mapped = Step.operation template
           /\ Step.description mapped = Step.description template
           /\ Step.layer mapped = Step.layer template
           /\ Step.material mapped = Step.material template
           /\ Step.method mapped = Step.method template
           /\ Step.thickness_nm mapped = Step.thickness_nm template
           /\ Step.temperature_c mapped = Step.temperature_c template
           /\ Step.duration_min mapped = Step.duration_min template.
Proof.
  intros H. unfold generateFlow. rewrite (get_own _ _ _ H).
  eexists. split; [reflexivity|]. cbn.
  unfold mapLayersToSteps. rewrite length_map.
  split; [reflexivity|]. split; [reflexivity|].
  intros i template Hi.
  exists (mapStep (buildLayerMap (Layout.layers layout)) template).
  split.
  - rewrite list_lookup_fmap, Hi. reflexivity.
  - split; [reflexivity|]. apply mapStep_template.
Qed.

Lemma generateFlow_steps_in_recipe_order_demo :
  exists flow,
    generateFlow demo_recipes (mockLayout "chip.gds") "cmos_standard" = Return flow
    /\ ProcessFlow.total_steps flow = length (Recipe.steps demo_recipe)
    /\ length (ProcessFlow.steps flow) = length (Recipe.steps demo_recipe)
    /\ forall (i : nat) (template : Step.t),
         Recipe.steps demo_recipe !! i = Some template ->
         exists mapped,
           ProcessFlow.steps flow !! i = Some mapped
           /\ mapped = mapStep (buildLayerMap (Layout.layers (mockLayout "chip.gds"))) template
           /\ Step.step mapped = Step.step template
           /\ Step.operation mapped = Step.operation template
           /\ Step.description mapped = Step.description template
           /\ Step.layer mapped = Step.layer template
           /\ Step.material mapped = Step.material template
           /\ Step.method mapped = Step.method template
           /\ Step.thickness_nm mapped = Step.thickness_nm template
           /\ Step.temperature_c mapped = Step.temperature_c template
           /\ Step.duration_min mapped = Step.duration_min template.
Proof.
  apply (generateFlow_steps_in_recipe_order demo_recipes (mockLayout "chip.gds")
           "cmos_standard" demo_recipe).
  reflexivity.
Defined.

(** *** The layer index *)

Lemma last_named_cons key l layers :
  last_named key (l :: layers)
  = match last_named key layers with
    | Some l' => Some l'
    | None => if decide (Layer.name l = key) then Some l else None
    end.
Proof.
  unfold last_named. rewrite filter_cons.
  destruct (decide (Layer.name l = key)) as [Heq|Hne].
  - change (l :: filter (fun l0 => Layer.name l0 = key) layers)
      with ([l] ++ filter (fun l0 => Layer.name l0 = key) layers).
    rewrite last_app. reflexivity.
  - now destruct (last _).
Qed.

Lemma last_named_Some key layers l :
  last_named key layers = Some l -> l ∈ layers /\ Layer.name l = key.
Proof.
  unfold last_named. intros H. apply last_Some_elem_of in H.
  now apply list_elem_of_filter in H as [? ?].
Qed.

Lemma last_named_None key layers :
  last_named key layers = None <-> forall l, l ∈ layers -> Layer.name l <> key.
Proof.
  unfold last_named. rewrite last_None. split.
  - intros H l Hl Hk.
    assert (Hin : l ∈ filter (fun l0 => Layer.name l0 = key) layers)
      by (apply list_elem_of_filter; auto).
    rewrite H in Hin. now apply not_elem_of_nil in Hin.
  - intros H. destruct (filter _ layers) as [|l rest] eqn:E; [reflexivity|].
    assert (Hin : l ∈ filter (fun l0 => Layer.name l0 = key) layers)
      by (rewrite E; apply list_elem_of_here).
    apply list_elem_of_filter in Hin as [Hk Hl]. now apply H in Hl.
Qed.

Lemma fold_set_own layers : forall m key,
  key <> "__proto__"%string ->
  LayerMap.own (fold_left LayerMap.set layers m) !! key
  = match last_named key layers with
    | Some l => Some l
    | None => LayerMap.own m !! key
    end.
Proof.
  induction layers as [|l layers IH]; intros m key Hkey; [reflexivity|].
  cbn [fold_left]. rewrite IH by assumption. rewrite last_named_cons.
  destruct (last_named key layers); [reflexivity|].
  unfold LayerMap.set.
  destruct (String.eqb_spec (Layer.name l) "__proto__") as [Hp|Hp]; cbn.
  - destruct (decide (Layer.name l = key)); [congruence|reflexivity].
  - destruct (decide (Layer.name l = key)) as [Heq|Hne].
    + rewrite Heq. apply lookup_insert_eq.
    + now apply lookup_insert_ne.
Qed.

Lemma fold_set_proto layers : forall m,
  (forall l, l ∈ layers -> Layer.name l <> "__proto__"%string) ->
  LayerMap.proto (fold_left LayerMap.set layers m) = LayerMap.proto m.
Proof.
  induction layers as [|l layers IH]; intros m H; [reflexivity|].
  cbn [fold_left]. rewrite IH.
  - unfold LayerMap.set.
    destruct (String.eqb_spec (Layer.name l) "__proto__") as [Hp|Hp]; [|reflexivity].
    exfalso. apply (H l); [apply list_elem_of_here|assumption].
  - intros l' Hl'. apply H. now apply list_elem_of_further.
Qed.

(** Away from the inherited names (and when no layer is called
    [__proto__]) the index holds the names of the layout, the last layer of
    a name winning. *)
Lemma buildLayerMap_get layers key :
  (forall l, l ∈ layers -> Layer.name l <> "__proto__"%string) ->
  inherited key = false ->
  LayerMap.get (buildLayerMap layers) key
  = match last_named key layers with
    | Some l => Own l
    | None => Undefined
    end.
Proof.
  intros Hproto Hkey. unfold LayerMap.get, buildLayerMap.
  assert (Hk : key <> "__proto__"%string)
    by (intros ->; discriminate Hkey).
  rewrite (fold_set_own layers LayerMap.empty key Hk).
  rewrite (fold_set_proto layers LayerMap.empty Hproto).
  destruct (last_named key layers); [reflexivity|].
  cbn [LayerMap.own LayerMap.proto LayerMap.empty].
  rewrite lookup_empty. now rewrite Hkey.
Qed.

Lemma truthy_string_true s : truthy_string s = true <-> s <> ""%string.
Proof.
  unfold truthy_string. destruct (String.eqb_spec s ""); split; intros H;
    try discriminate; try reflexivity; congruence.
Qed.

(** The statuses of [mapLayersToSteps], for a step whose layer is not one
    of the inherited names, on a layout with no layer called [__proto__]:
    the step is matched exactly when it names a layer of the layout (and
    then carries the number and feature count of the last layer of that
    name), misses its layer exactly when it names a layer the layout
    lacks (and then carries the warning, its [layout_layer] and
    [feature_count] left as they were), and is layer independent exactly
    when it names no layer. *)
Lemma mapStep_status layers template :
  (forall l, l ∈ layers -> Layer.name l <> "__proto__"%string) ->
  (forall name, Step.layer template = Some name -> inherited name = false) ->
  let mapped := mapStep (buildLayerMap layers) template in
  (Step.status mapped = Some "matched"%string
   <-> exists name, names_layer template name /\ in_layout layers name)
  /\ (Step.status mapped = Some "layer_missing"%string
      <-> exists name, names_layer template name /\ ~ in_layout layers name)
  /\ (Step.status mapped = Some "layer_independent"%string
      <-> ~ exists name, names_layer template name)
  /\ (forall name, names_layer template name -> in_layout layers name ->
      exists l, last_named name layers = Some l
        /\ Step.layout_layer mapped = Some (Layer.number l)
        /\ Step.feature_count mapped = Some (Layer.feature_count l)
        /\ Step.warning mapped = Step.warning template)
  /\ (forall name, names_layer template name -> ~ in_layout layers name ->
      Step.warning mapped = Some ("Layer " +:+ name +:+ " not found in layout")
      /\ Step.layout_layer mapped = Step.layout_layer template
      /\ Step.feature_count mapped = Step.feature_count template).
Proof.
  intros Hproto Hinh. unfold names_layer, in_layout.
  destruct template as [? ? ? [name|] ? ? ? ? ? ? ? ? ?];
    cbn [Step.layer] in *; unfold mapStep; cbn [Step.layer].
  2:{ cbn. repeat split; naive_solver. }
  destruct (truthy_string name) eqn:Ht.
  2:{ assert (Hn : name = ""%string).
      { unfold truthy_string in Ht.
        destruct (String.eqb_spec name ""); [assumption|discriminate]. }
      cbn. repeat split; naive_solver. }
  apply truthy_string_true in Ht.
  rewrite (buildLayerMap_get layers name Hproto (Hinh name eq_refl)).
  destruct (last_named name layers) as [l|] eqn:El; cbn.
  - apply last_named_Some in El as Hl. destruct Hl as [Hin Hname].
    repeat split; try naive_solver.
    intros n [[= <-] _] _. exists l. now repeat split.
  - pose proof (proj1 (last_named_None name layers) El) as Hnone.
    repeat split; naive_solver.
Qed.

(** C2, at a step that names the layer [constructor]: the layout has no
    layer of that name, and the step is [matched] all the same, with no
    [layout_layer], no [feature_count] and no warning; the claim gives it
    the status [layer_missing] and the warning. *)
Theorem mapLayersToSteps_constructor_matched :
  last_named "constructor" (Layout.layers (mockLayout "chip.gds")) = None
  /\ map Step.status (mapLayersToSteps (mockLayout "chip.gds") constructor_recipe)
     = [Some "matched"%string]
  /\ map Step.layout_layer (mapLayersToSteps (mockLayout "chip.gds") constructor_recipe)
     = [None]
  /\ map Step.feature_count (mapLayersToSteps (mockLayout "chip.gds") constructor_recipe)
     = [None]
  /\ map Step.warning (mapLayersToSteps (mockLayout "chip.gds") constructor_recipe)
     = [None].
Proof. repeat split; vm_compute; reflexivity. Qed.

(** ** calculateDuration *)

Lemma defaultDurations_lookup operation :
  defaultDurations !! operation
  = if String.eqb operation "lithography" then Some 2
    else if String.eqb operation "etch" then Some 1
    else if String.eqb operation "deposition" then Some 3
    else if String.eqb operation "implantation" then Some 2
    else if String.eqb operation "thermal_oxidation" then Some 3
    else if String.eqb operation "cmp" then Some 1.5
    else if String.eqb operation "metallization" then Some 2
    else if String.eqb operation "strip" then Some 0.5
    else if String.eqb operation "wet_etch" then Some 0.5
    else None.
Proof.
  unfold defaultDurations. cbn [list_to_map foldr fst snd].
  repeat
    (match goal with
     | |- context [String.eqb operation ?k] =>
         destruct (String.eqb_spec operation k) as [->|?];
         [reflexivity|rewrite lookup_insert_ne by congruence]
     end).
  apply lookup_empty.
Qed.

(** The default of an operation, as [defaultDurations[operation] || 1]
    finds it, is the one of the table of the specification, unless the
    operation is one of the inherited names. *)
Lemma default_hours operation :
  inherited operation = false ->
  match get defaultDurations operation with
  | Own d => Some (if truthy_number d then d else 1)
  | Foreign true => None
  | Foreign false | Undefined => Some 1
  end = Some (spec_default_hours operation).
Proof.
  intros Hk. unfold get. rewrite defaultDurations_lookup, Hk.
  unfold spec_default_hours.
  repeat
    (match goal with
     | |- context [String.eqb operation ?k] =>
         destruct (String.eqb operation k); [reflexivity|]
     end).
  reflexivity.
Qed.

Lemma addDuration_contribution h step :
  adds_hours step = true ->
  addDuration (Hours h) step = Hours (h + contribution step).
Proof.
  unfold adds_hours, addDuration, contribution.
  destruct (Step.duration_min step) as [d|]; cbn [truthy_opt].
  - destruct (truthy_number d); [reflexivity|]. cbn [orb]. intros Hk.
    apply negb_true_iff in Hk. pose proof (default_hours _ Hk) as Hd.
    destruct (get defaultDurations (Step.operation step)) as [v|[|]|];
      congruence.
  - cbn [orb]. intros Hk.
    apply negb_true_iff in Hk. pose proof (default_hours _ Hk) as Hd.
    destruct (get defaultDurations (Step.operation step)) as [v|[|]|];
      congruence.
Qed.

Lemma totalHours_sum steps : forall h,
  forallb adds_hours steps = true ->
  fold_left addDuration steps (Hours h)
  = Hours (fold_left (fun total step => total + contribution step) steps h).
Proof.
  induction steps as [|step steps IH]; intros h Hall; [reflexivity|].
  cbn [forallb] in Hall. apply andb_true_iff in Hall as [Hstep Hrest].
  cbn [fold_left]. rewrite (addDuration_contribution h step Hstep).
  now apply IH.
Qed.

(** C3, as the planner has it: [estimated_duration_hours] is the sum, in
    step order, of [duration_min / 60] for a step whose [duration_min] is
    present and not zero, and otherwise of the default of the operation
    (lithography 2, etch 1, deposition 3, implantation 2,
    thermal_oxidation 3, cmp 1.5, metallization 2, strip 0.5,
    wet_etch 0.5, any other operation 1), rounded to one decimal place by
    [Math.round(10 h) / 10]. The steps are those whose hours are added as
    numbers. *)
Theorem calculateDuration_sum (steps : list Step.t) :
  forallb adds_hours steps = true ->
  totalHours steps = Hours (sum_hours contribution steps)
  /\ calculateDuration steps = round_1_decimal (sum_hours contribution steps).
Proof.
  intros Hall. unfold calculateDuration, totalHours.
  rewrite (totalHours_sum steps 0 Hall). split; reflexivity.
Qed.

Lemma calculateDuration_sum_demo :
  totalHours (Recipe.steps demo_recipe)
    = Hours (sum_hours contribution (Recipe.steps demo_recipe))
  /\ calculateDuration (Recipe.steps demo_recipe)
     = round_1_decimal (sum_hours contribution (Recipe.steps demo_recipe)).
Proof.
  apply (calculateDuration_sum (Recipe.steps demo_recipe)). reflexivity.
Defined.

(** C3 as stated fails on a step whose [duration_min] is present and zero:
    the claim counts [0 / 60 = 0] hours, the planner the default of the
    operation. *)
Lemma calculateDuration_zero_minutes_etch :
  spec_contribution zero_minutes_etch = 0
  /\ spec_duration [zero_minutes_etch] = 0
  /\ calculateDuration [zero_minutes_etch] = 1.
Proof. repeat split; vm_compute; reflexivity. Qed.

(** [Math.round] sends a half to the integer above it, and rounding to one
    decimal place follows. *)
Lemma Math_round_halves :
  Math_round 0.5 = 1 /\ Math_round 1.5 = 2 /\ Math_round 2.5 = 3
  /\ Math_round (-0.5) = (-0) /\ Math_round (-1.5) = (-1)
  /\ Math_round 2.4 = 2 /\ Math_round 2.6 = 3
  /\ round_1_decimal 0.25 = 0.3 /\ round_1_decimal 7.75 = 7.8.
Proof. repeat split; vm_compute; reflexivity. Qed.

(** The contributions the specification singles out: an etch step with no
    [duration_min] counts one hour, and so does a step of an unknown
    operation. *)
Lemma contribution_examples :
  totalHours [Step.template 1 "etch" "Etch" None None] = Hours 1
  /\ totalHours [Step.template 1 "anneal" "Anneal" None None] = Hours 1
  /\ totalHours [Step.template 1 "cmp" "Polish" None None] = Hours 1.5
  /\ totalHours [Step.template 1 "etch" "Etch" None (Some 30)] = Hours 0.5.
Proof. repeat split; vm_compute; reflexivity. Qed.

(** X24: a [duration_min] that is present and zero is treated as an absent
    one, step by step and in the total, for every step; and for a step
    whose operation is not an inherited name it counts the default of the
    operation (one hour for an operation outside the table), not zero
    hours: the sum grows by that default, and the estimate of the step
    alone is the default rounded, a positive number. *)
Theorem zero_minutes_count_as_absent :
  (forall (total : hours) (step : Step.t),
     addDuration total (Step.set_duration_min (Some 0) step)
     = addDuration total (Step.set_duration_min None step))
  /\ (forall (before after : list Step.t) (step : Step.t),
        calculateDuration (before ++ Step.set_duration_min (Some 0) step :: after)
        = calculateDuration (before ++ Step.set_duration_min None step :: after))
  /\ (forall (before : list Step.t) (h : Number) (step : Step.t),
        inherited (Step.operation step) = false ->
        totalHours before = Hours h ->
        totalHours (before ++ [Step.set_duration_min (Some 0) step])
        = Hours (h + spec_default_hours (Step.operation step))
        /\ calculateDuration (before ++ [Step.set_duration_min (Some 0) step])
           = round_1_decimal (h + spec_default_hours (Step.operation step)))
  /\ (forall step : Step.t,
        inherited (Step.operation step) = false ->
        calculateDuration [Step.set_duration_min (Some 0) step]
        = round_1_decimal (0 + spec_default_hours (Step.operation step))
        /\ (0 <? calculateDuration [Step.set_duration_min (Some 0) step]) = true).
Proof.
  assert (Hstep : forall total step,
             addDuration total (Step.set_duration_min (Some 0) step)
             = addDuration total (Step.set_duration_min None step)).
  { intros [h|] step; reflexivity. }
  assert (Hone : forall before h step,
             inherited (Step.operation step) = false ->
             totalHours before = Hours h ->
             totalHours (before ++ [Step.set_duration_min (Some 0) step])
             = Hours (h + spec_default_hours (Step.operation step))).
  { intros before h step Hk Hb. unfold totalHours in *.
    rewrite fold_left_app, Hb. cbn [fold_left].
    rewrite (addDuration_contribution h); [reflexivity|].
    unfold adds_hours. cbn. now rewrite Hk. }
  split; [exact Hstep|]. split; [|split].
  - intros before after step. unfold calculateDuration, totalHours.
    rewrite !fold_left_app. cbn [fold_left]. now rewrite Hstep.
  - intros before h step Hk Hb. split; [now apply Hone|].
    unfold calculateDuration. now rewrite (Hone before h step Hk Hb).
  - intros step Hk.
    assert (E : calculateDuration [Step.set_duration_min (Some 0) step]
                = round_1_decimal (0 + spec_default_hours (Step.operation step))).
    { pose proof (Hone [] 0 step Hk eq_refl) as H0. cbn [app] in H0.
      unfold calculateDuration. now rewrite H0. }
    split; [exact E|]. rewrite E. unfold spec_default_hours.
    repeat match goal with
           | |- context [String.eqb ?o ?k] => destruct (String.eqb o k); [reflexivity|]
           end.
    reflexivity.
Qed.

(** C10, at a step of the operation [constructor] whose [duration_min] is
    present and zero: the table has no default for the operation, so the
    claim gives the step the fallback of one hour; the planner reads the
    inherited [Object.prototype.constructor] as its default, the sum
    turns into a text, and the estimate is NaN, for the step alone and
    for a list that holds it. *)
Theorem calculateDuration_zero_minutes_constructor :
  Step.duration_min zero_minutes_constructor = Some 0
  /\ defaultDurations !! Step.operation zero_minutes_constructor = None
  /\ spec_default_hours (Step.operation zero_minutes_constructor) = 1
  /\ totalHours [zero_minutes_constructor] = Text
  /\ is_nan (calculateDuration [zero_minutes_constructor]) = true
  /\ (calculateDuration [zero_minutes_constructor] =? 1) = false
  /\ totalHours [plain_etch; zero_minutes_constructor] = Text
  /\ is_nan (calculateDuration [plain_etch; zero_minutes_constructor]) = true.
Proof. repeat split; vm_compute; reflexivity. Qed.

(** ** analyzeLayout: the suggestion *)

Lemma prefix_spec (a b : string) :
  String.prefix a b = true <-> exists post, b = a +:+ post.
Proof.
  revert b. induction a as [|c a IH]; intros [|d b]; cbn.
  - split; [intros _; now exists ""%string|reflexivity].
  - split; [intros _; now exists (String d b)|reflexivity].
  - split; [discriminate|intros [post [=]]].
  - destruct (Ascii.ascii_dec c d) as [->|Hne].
    + rewrite IH. split; intros [post Hp]; exists post; [now rewrite Hp|now injection Hp].
    + split; [discriminate|]. intros [post [= Hcd _]]. congruence.
Qed.

(** [includes] is the substring test. *)
Lemma includes_spec (needle hay : string) :
  includes needle hay = true
  <-> exists pre post, hay = pre +:+ needle +:+ post.
Proof.
  induction hay as [|c hay IH]; cbn [includes].
  - rewrite orb_false_r, prefix_spec. split.
    + intros [post Hp]. now exists ""%string, post.
    + intros (pre & post & Hp). destruct pre as [|d pre]; [now exists post|discriminate].
  - rewrite orb_true_iff, prefix_spec, IH. split.
    + intros [[post Hp]|(pre & post & Hp)].
      * now exists ""%string, post.
      * exists (String c pre), post. cbn. now rewrite Hp.
    + intros (pre & post & Hp). destruct pre as [|d pre].
      * left. now exists post.
      * right. injection Hp as _ Hp. now exists pre, post.
Qed.

Lemma some_contains_spec names word1 word2 :
  existsb (fun name => includes word1 name || includes word2 name) names = true
  <-> some_contains names word1 \/ some_contains names word2.
Proof.
  rewrite existsb_exists. unfold some_contains. split.
  - intros (name & Hin & H). apply orb_true_iff in H as [H|H];
      apply includes_spec in H; [left|right]; now exists name.
  - intros [(name & Hin & H)|(name & Hin & H)]; exists name; split; try assumption;
      apply orb_true_iff; [left|right]; now apply includes_spec.
Qed.

Lemma some_contains_spec1 names word :
  existsb (fun name => includes word name) names = true
  <-> some_contains names word.
Proof.
  rewrite existsb_exists. unfold some_contains. split.
  - intros (name & Hin & H). apply includes_spec in H. now exists name.
  - intros (name & Hin & H). exists name. split; [assumption|]. now apply includes_spec.
Qed.

Lemma array_includes_spec x l : array_includes x l = true <-> In x l.
Proof.
  unfold array_includes. rewrite existsb_exists. split.
  - intros (y & Hin & H). apply String.eqb_eq in H. now subst.
  - intros H. exists x. split; [assumption|apply String.eqb_refl].
Qed.

Section AnalyzeLayout.

Context {host : Host}.

(** C5: the rules of [analyzeLayout], the first that applies deciding, and
    no complexity other than medium and high. *)
Theorem analyzeLayout_rules (layout : Layout.t) :
  let analysis := analyzeLayout layout in
  (mems_layout layout ->
     LayoutAnalysis.complexity analysis = "high"%string
     /\ (some_contains (upper_names layout) "ELECTRODE" ->
         LayoutAnalysis.suggested_process analysis = "mems_cantilever"%string)
     /\ (~ some_contains (upper_names layout) "ELECTRODE" ->
         LayoutAnalysis.suggested_process analysis = "mems_pressure_sensor"%string))
  /\ (~ mems_layout layout -> photonics_layout layout ->
        LayoutAnalysis.suggested_process analysis = "photonics_waveguide"%string
        /\ LayoutAnalysis.complexity analysis = "high"%string)
  /\ (~ mems_layout layout -> ~ photonics_layout layout -> cmos_layout layout ->
        LayoutAnalysis.suggested_process analysis = "cmos_standard"%string
        /\ LayoutAnalysis.complexity analysis
           = if 1000 <? Layout.feature_count layout then "high"%string else "medium"%string)
  /\ (~ mems_layout layout -> ~ photonics_layout layout -> ~ cmos_layout layout ->
        LayoutAnalysis.suggested_process analysis = "cmos_standard"%string
        /\ LayoutAnalysis.complexity analysis = "medium"%string)
  /\ LayoutAnalysis.complexity analysis <> "low"%string
  /\ (LayoutAnalysis.complexity analysis = "medium"%string
      \/ LayoutAnalysis.complexity analysis = "high"%string).
Proof.
  cbv zeta. unfold mems_layout, photonics_layout, cmos_layout, analyzeLayout.
  fold (upper_names layout).
  rewrite <- !some_contains_spec, <- !some_contains_spec1, <- !array_includes_spec.
  destruct (existsb (fun name => includes "CANTILEVER" name || includes "MEMBRANE" name)
              (upper_names layout));
    [destruct (existsb (fun name => includes "ELECTRODE" name) (upper_names layout))|
     destruct (existsb (fun name => includes "WAVEGUIDE" name || includes "GRATING" name)
                 (upper_names layout));
     [|destruct (array_includes "POLY" (upper_names layout));
       destruct (array_includes "ACTIVE" (upper_names layout))]];
    cbn;
    repeat match goal with |- _ /\ _ => split end;
    first [ intuition congruence
          | destruct (1000 <? Layout.feature_count layout); intuition congruence ].
Qed.

End AnalyzeLayout.

(** ** analyzeLayout: the metrics *)

(** The two numbers of the analysis. *)
Lemma analyzeLayout_numbers {host : Host} (layout : Layout.t) :
  LayoutAnalysis.min_feature_size (analyzeLayout layout)
  = estimateMinFeatureSize layout
  /\ LayoutAnalysis.feature_density (analyzeLayout layout)
     = Layout.feature_count layout
       / (BoundingBox.max_x (Layout.bounding_box layout)
          * BoundingBox.max_y (Layout.bounding_box layout)).
Proof.
  unfold analyzeLayout.
  match goal with
  | |- context [match ?X with pair _ _ => _ end] => destruct X as [[? ?] ?]
  end.
  split; reflexivity.
Qed.

(** C6: [min_feature_size] is [round(sqrt(max_x max_y / feature_count) 10) / 10]
    and [feature_density] is [feature_count / (max_x max_y)]; neither reads
    the minimum corner of the bounding box; on the layout of the parser
    (950 features, bounding box (0,0)-(1000,1000)) the size is 32.4. *)
Theorem analyzeLayout_metrics {host : Host} :
  (forall layout : Layout.t,
     let box := Layout.bounding_box layout in
     LayoutAnalysis.min_feature_size (analyzeLayout layout)
     = Math_round
         (Math_sqrt ((BoundingBox.max_x box * BoundingBox.max_y box)
                     / Layout.feature_count layout) * 10) / 10
     /\ LayoutAnalysis.feature_density (analyzeLayout layout)
        = Layout.feature_count layout
          / (BoundingBox.max_x box * BoundingBox.max_y box))
  /\ (forall (layout : Layout.t) (x y : Number),
        LayoutAnalysis.min_feature_size (analyzeLayout (with_min_corner x y layout))
        = LayoutAnalysis.min_feature_size (analyzeLayout layout)
        /\ LayoutAnalysis.feature_density (analyzeLayout (with_min_corner x y layout))
           = LayoutAnalysis.feature_density (analyzeLayout layout))
  /\ (forall gdsFilePath : string,
        LayoutAnalysis.min_feature_size (analyzeLayout (mockLayout gdsFilePath)) = 32.4).
Proof.
  split; [|split].
  - intros layout. cbv zeta. apply analyzeLayout_numbers.
  - intros layout x y.
    destruct (analyzeLayout_numbers (with_min_corner x y layout)) as [-> ->].
    destruct (analyzeLayout_numbers layout) as [-> ->]. split; reflexivity.
  - intros gdsFilePath. rewrite (proj1 (analyzeLayout_numbers _)).
    vm_compute. reflexivity.
Qed.

(** The statistics of the parser do read the minimum corner: moving it
    changes the area they report, and leaves the density of [analyzeLayout]
    as it was. *)
Lemma getLayoutStats_reads_min_corner :
  LayoutStats.area_mm2 (getLayoutStats (mockLayout "chip.gds")) = 1
  /\ LayoutStats.area_mm2
       (getLayoutStats (with_min_corner 500 500 (mockLayout "chip.gds"))) = 0.25
  /\ LayoutAnalysis.feature_density
       (@analyzeLayout ascii_host (with_min_corner 500 500 (mockLayout "chip.gds")))
     = 0.00095.
Proof. repeat split; vm_compute; reflexivity. Qed.

(** The scenario of the specification: the layout of the parser is a
    standard CMOS layout of medium complexity. *)
Lemma analyzeLayout_mockLayout :
  @analyzeLayout ascii_host (mockLayout "chip.gds")
  = {| LayoutAnalysis.suggested_process := "cmos_standard";
       LayoutAnalysis.reason := "Standard CMOS layers detected (POLY, ACTIVE)";
       LayoutAnalysis.complexity := "medium";
       LayoutAnalysis.min_feature_size := 32.4;
       LayoutAnalysis.layer_count := 5;
       LayoutAnalysis.feature_density := 0.00095 |}.
Proof. vm_compute. reflexivity. Qed.

(** *** Division by zero *)

Lemma zero_spec (z : Number) :
  (z =? 0) = true -> exists s, Prim2SF z = S754_zero s.
Proof.
  rewrite FloatAxioms.eqb_spec. change (Prim2SF 0) with (S754_zero false).
  destruct (Prim2SF z) as [s|s| |s m e]; try discriminate.
  - intros _. now exists s.
  - destruct s; discriminate.
  - destruct s; discriminate.
Qed.

Lemma div_by_zero_non_finite (x z : Number) :
  (z =? 0) = true -> non_finite (x / z) = true.
Proof.
  intros Hz. apply zero_spec in Hz as [s Hz].
  unfold non_finite. rewrite div_spec, Hz.
  destruct (Prim2SF x) as [sx|sx| |sx m e]; reflexivity.
Qed.

Lemma sqrt_non_finite (x : Number) :
  non_finite x = true -> non_finite (Math_sqrt x) = true.
Proof.
  unfold non_finite, Math_sqrt. rewrite sqrt_spec.
  destruct (Prim2SF x) as [s|[|]| |s m e]; try discriminate; reflexivity.
Qed.

Lemma times_10_non_finite (x : Number) :
  non_finite x = true -> non_finite (x * 10) = true.
Proof.
  unfold non_finite. rewrite mul_spec.
  change (Prim2SF 10) with (S754_finite false 5629499534213120 (-49)).
  destruct (Prim2SF x) as [s|s| |s m e]; try discriminate; reflexivity.
Qed.

Lemma Math_round_non_finite (x : Number) :
  non_finite x = true -> non_finite (Math_round x) = true.
Proof.
  unfold non_finite at 1. unfold Math_round.
  destruct (Prim2SF x) as [s|s| |s m e] eqn:E; try discriminate;
    intros _; unfold non_finite; now rewrite E.
Qed.

Lemma over_10_non_finite (x : Number) :
  non_finite x = true -> non_finite (x / 10) = true.
Proof.
  unfold non_finite. rewrite div_spec.
  change (Prim2SF 10) with (S754_finite false 5629499534213120 (-49)).
  destruct (Prim2SF x) as [s|s| |s m e]; try discriminate; reflexivity.
Qed.

(** C7 as stated fails: with no feature on a bounding box of a million
    square microns the density is the finite [0 / 1000000 = 0], and with
    950 features on an empty bounding box the feature size is the finite
    [round(sqrt(0 / 950) 10) / 10 = 0]. *)
Lemma analyzeLayout_finite_on_degenerate_layout :
  Layout.feature_count featureless_layout = 0
  /\ LayoutAnalysis.feature_density (@analyzeLayout ascii_host featureless_layout) = 0
  /\ non_finite (LayoutAnalysis.feature_density (@analyzeLayout ascii_host featureless_layout))
     = false
  /\ BoundingBox.max_x (Layout.bounding_box flat_layout)
     * BoundingBox.max_y (Layout.bounding_box flat_layout) = 0
  /\ LayoutAnalysis.min_feature_size (@analyzeLayout ascii_host flat_layout) = 0
  /\ non_finite (LayoutAnalysis.min_feature_size (@analyzeLayout ascii_host flat_layout))
     = false.
Proof. repeat split; vm_compute; reflexivity. Qed.

(** C7, amended: [analyzeLayout] is a function of every layout (it has no
    way to throw); a feature count of zero makes [min_feature_size] NaN or
    an infinity, and a bounding box with [max_x max_y] zero makes
    [feature_density] NaN or an infinity. The other metric may stay
    finite. *)
Theorem analyzeLayout_division_by_zero {host : Host} (layout : Layout.t) :
  ((Layout.feature_count layout =? 0) = true ->
     non_finite (LayoutAnalysis.min_feature_size (analyzeLayout layout)) = true)
  /\ ((BoundingBox.max_x (Layout.bounding_box layout)
       * BoundingBox.max_y (Layout.bounding_box layout) =? 0) = true ->
        non_finite (LayoutAnalysis.feature_density (analyzeLayout layout)) = true)
  /\ LayoutAnalysis.min_feature_size (analyzeLayout featureless_layout) = infinity
  /\ LayoutAnalysis.feature_density (analyzeLayout flat_layout) = infinity
  /\ LayoutAnalysis.min_feature_size (analyzeLayout (with_size 0 0 0 layout)) = nan
  /\ LayoutAnalysis.feature_density (analyzeLayout (with_size 0 0 0 layout)) = nan.
Proof.
  repeat split.
  - intros Hz. rewrite (proj1 (analyzeLayout_numbers layout)).
    apply over_10_non_finite, Math_round_non_finite, times_10_non_finite,
      sqrt_non_finite, div_by_zero_non_finite, Hz.
  - intros Hz. rewrite (proj2 (analyzeLayout_numbers layout)).
    now apply div_by_zero_non_finite.
  - rewrite (proj1 (analyzeLayout_numbers _)). vm_compute. reflexivity.
  - rewrite (proj2 (analyzeLayout_numbers _)). vm_compute. reflexivity.
  - rewrite (proj1 (analyzeLayout_numbers _)). vm_compute. reflexivity.
  - rewrite (proj2 (analyzeLayout_numbers _)). vm_compute. reflexivity.
Qed.

(** ** formatText and formatMarkdown *)

Lemma append_assoc (a b c : string) : (a +:+ b) +:+ c = a +:+ (b +:+ c).
Proof.
  induction a as [|x a IH]; [reflexivity|].
  change (String x ((a +:+ b) +:+ c) = String x (a +:+ (b +:+ c))).
  now rewrite IH.
Qed.

Lemma append_empty_r (a : string) : a +:+ "" = a.
Proof.
  induction a as [|x a IH]; [reflexivity|].
  change (String x (a +:+ "") = String x a). now rewrite IH.
Qed.

Lemma fold_left_append (render : Step.t -> string) steps : forall output,
  fold_left (fun output step => output +:+ render step) steps output
  = output +:+ concat_steps render steps.
Proof.
  induction steps as [|step steps IH]; intros output; cbn [fold_left concat_steps].
  - now rewrite append_empty_r.
  - now rewrite IH, append_assoc.
Qed.

Section Formatters.

Context {host : Host}.

(** Both renderers write their header, then every step in the order of the
    flow. *)
Lemma formatText_in_flow_order (processFlow : ProcessFlow.t) :
  formatText processFlow
  = formatText_header processFlow
    +:+ concat_steps formatText_step (ProcessFlow.steps processFlow).
Proof. apply fold_left_append. Qed.

Lemma formatMarkdown_in_flow_order (processFlow : ProcessFlow.t) :
  formatMarkdown processFlow
  = formatMarkdown_header processFlow
    +:+ concat_steps formatMarkdown_step (ProcessFlow.steps processFlow).
Proof. apply fold_left_append. Qed.

(** X13: the Markdown renderer writes the mask layer inside the block of
    parameters: a step with none of material, method, thickness and
    temperature gets its title, its description and its warning, whatever
    its layer. *)
Lemma formatMarkdown_step_without_parameters (step : Step.t) :
  truthy_opt truthy_string (Step.material step) = false ->
  truthy_opt truthy_string (Step.method step) = false ->
  truthy_opt truthy_number (Step.thickness_nm step) = false ->
  truthy_opt truthy_number (Step.temperature_c step) = false ->
  formatMarkdown_step step
  = "### Step " +:+ Number_toString (Step.step step) +:+ ": "
      +:+ Step.operation step +:+ nl +:+ nl
    +:+ Step.description step +:+ nl +:+ nl
    +:+ when_string (Step.warning step)
          (fun v => "> ⚠️ **Warning**: " +:+ v +:+ nl +:+ nl).
Proof.
  intros H1 H2 H3 H4. unfold formatMarkdown_step.
  rewrite H1, H2, H3, H4. reflexivity.
Qed.

End Formatters.

(** C9, at a lithography step whose layer is ACTIVE and which has no
    material, method, thickness or temperature: the text renderer writes
    its mask layer, the Markdown renderer does not, neither for the step
    alone nor in the rendering of the flow of the sample recipe. *)
Theorem formatMarkdown_omits_mask_layer :
  Step.layer lithography_step = Some "ACTIVE"%string
  /\ (forall host : Host,
        formatText_step lithography_step
        = "Step " +:+ Number_toString 1 +:+ ": " +:+ toUpperCase "lithography" +:+ nl
          +:+ "  Description: Pattern active area" +:+ nl
          +:+ "  Mask Layer: ACTIVE" +:+ nl +:+ nl)
  /\ (forall host : Host,
        formatMarkdown_step lithography_step
        = "### Step " +:+ Number_toString 1 +:+ ": lithography" +:+ nl +:+ nl
          +:+ "Pattern active area" +:+ nl +:+ nl)
  /\ exists flow,
       generateFlow demo_recipes (mockLayout "chip.gds") "cmos_standard" = Return flow
       /\ includes "Mask Layer: ACTIVE" (@formatText ascii_host flow) = true
       /\ includes "Mask Layer: ACTIVE" (@formatMarkdown ascii_host flow) = false.
Proof.
  split; [reflexivity|]. split; [intros host; reflexivity|].
  split; [intros host; reflexivity|].
  eexists. split; [reflexivity|]. split; vm_compute; reflexivity.
Qed.

(** ** Monotonicity of the duration *)

(** *** Binary64: rounding to nearest is monotone *)

Module Binary64Facts.

Import Binary64.

Local Open Scope R_scope.

Lemma pow2_pos e : 0 < pow2 e.
Proof. apply powerRZ_lt. lra. Qed.

Lemma pow2_add a b : pow2 (a + b) = pow2 a * pow2 b.
Proof. apply powerRZ_add. lra. Qed.

Lemma pow2_0 : pow2 0 = 1.
Proof. reflexivity. Qed.

Lemma pow2_1 : pow2 1 = 2.
Proof. unfold pow2, powerRZ. simpl. ring. Qed.

Lemma pow2_succ e : pow2 (e + 1) = 2 * pow2 e.
Proof. rewrite pow2_add, pow2_1. lra. Qed.

Lemma pow2_pred e : pow2 e = 2 * pow2 (e - 1).
Proof. rewrite <- pow2_succ. f_equal. lia. Qed.

Lemma pow2_IZR k : (0 <= k)%Z -> pow2 k = IZR (2 ^ k).
Proof.
  intros Hk. unfold pow2.
  rewrite <- (Z2Nat.id k Hk) at 1. rewrite <- pow_powerRZ.
  rewrite <- (Z2Nat.id k Hk) at 2. now rewrite <- pow_IZR.
Qed.

Lemma pow2_le a b : (a <= b)%Z -> pow2 a <= pow2 b.
Proof.
  intros H. replace b with (a + (b - a))%Z by lia.
  rewrite pow2_add. rewrite (pow2_IZR (b - a)) by lia.
  assert (1 <= IZR (2 ^ (b - a))).
  { apply IZR_le. assert (0 < 2 ^ (b - a))%Z by (apply Z.pow_pos_nonneg; lia). lia. }
  pose proof (pow2_pos a). nra.
Qed.

Lemma pow2_lt a b : (a < b)%Z -> pow2 a < pow2 b.
Proof.
  intros H. apply Rlt_le_trans with (pow2 (a + 1)).
  - rewrite pow2_succ. pose proof (pow2_pos a). lra.
  - apply pow2_le. lia.
Qed.

Lemma pow2_lt_inv a b : pow2 a < pow2 b -> (a < b)%Z.
Proof.
  intros H. destruct (Z_lt_le_dec a b) as [|Hle]; [assumption|].
  apply pow2_le in Hle. lra.
Qed.

Lemma F2R_shift m e k : (0 <= k)%Z -> F2R (m * 2 ^ k) e = F2R m (e + k).
Proof.
  intros Hk. unfold F2R. rewrite mult_IZR, pow2_add, <- pow2_IZR by assumption. ring.
Qed.

Lemma F2R_lt m1 m2 e : (m1 < m2)%Z -> F2R m1 e < F2R m2 e.
Proof.
  intros H. unfold F2R. apply IZR_lt in H. pose proof (pow2_pos e). nra.
Qed.

Lemma F2R_le m1 m2 e : (m1 <= m2)%Z -> F2R m1 e <= F2R m2 e.
Proof.
  intros H. unfold F2R. apply IZR_le in H. pose proof (pow2_pos e). nra.
Qed.

Lemma F2R_lt_inv m1 m2 e : F2R m1 e < F2R m2 e -> (m1 < m2)%Z.
Proof.
  intros H. destruct (Z_lt_le_dec m1 m2) as [|Hle]; [assumption|].
  apply (F2R_le _ _ e) in Hle. lra.
Qed.

Lemma F2R_le_inv m1 m2 e : F2R m1 e <= F2R m2 e -> (m1 <= m2)%Z.
Proof.
  intros H. destruct (Z_le_gt_dec m1 m2) as [|Hgt]; [assumption|].
  apply Z.gt_lt, (F2R_lt _ _ e) in Hgt. lra.
Qed.

(** ** Digits *)

Lemma digits2_pos_bounds p :
  (2 ^ (Z.pos (digits2_pos p) - 1) <= Z.pos p < 2 ^ Z.pos (digits2_pos p))%Z.
Proof.
  induction p as [p IH|p IH|]; cbn [digits2_pos].
  - rewrite Pos2Z.inj_succ.
    replace (Z.succ (Z.pos (digits2_pos p)) - 1)%Z with (Z.pos (digits2_pos p) - 1 + 1)%Z by lia.
    rewrite Z.pow_succ_r by lia.
    assert (0 <= Z.pos (digits2_pos p) - 1)%Z by lia.
    rewrite Z.pow_add_r by lia. change (2 ^ 1)%Z with 2%Z. lia.
  - rewrite Pos2Z.inj_succ.
    replace (Z.succ (Z.pos (digits2_pos p)) - 1)%Z with (Z.pos (digits2_pos p) - 1 + 1)%Z by lia.
    rewrite Z.pow_succ_r by lia.
    rewrite Z.pow_add_r by lia. change (2 ^ 1)%Z with 2%Z. lia.
  - cbn. lia.
Qed.

Lemma digits_pos p : digits (Z.pos p) = Z.pos (digits2_pos p).
Proof. reflexivity. Qed.

Lemma digits_bounds m :
  (0 < m)%Z -> (0 < digits m /\ 2 ^ (digits m - 1) <= m < 2 ^ digits m)%Z.
Proof.
  destruct m as [|p|p]; try lia. intros _. rewrite digits_pos.
  split; [lia|apply digits2_pos_bounds].
Qed.

(** The number of digits is determined by the bounds. *)
Lemma digits_unique m d :
  (0 < d)%Z -> (2 ^ (d - 1) <= m < 2 ^ d)%Z -> digits m = d.
Proof.
  intros Hd [Hlo Hhi].
  assert (Hm : (0 < m)%Z).
  { assert (0 < 2 ^ (d - 1))%Z by (apply Z.pow_pos_nonneg; lia). lia. }
  destruct (digits_bounds m Hm) as (Hd' & Hlo' & Hhi').
  destruct (Z.lt_trichotomy (digits m) d) as [Hlt|[Heq|Hgt]]; [|assumption|].
  - assert (2 ^ digits m <= 2 ^ (d - 1))%Z by (apply Z.pow_le_mono_r; lia). lia.
  - assert (2 ^ d <= 2 ^ (digits m - 1))%Z by (apply Z.pow_le_mono_r; lia). lia.
Qed.

Lemma digits_0 : digits 0 = 0%Z.
Proof. reflexivity. Qed.

Lemma digits_nonneg m : (0 <= digits m)%Z.
Proof. destruct m; cbn; lia. Qed.

(** ** The format *)

Lemma fexp_spec e : fexp e = Z.max (e - 53) (-1074).
Proof. reflexivity. Qed.

Lemma canonical_facts m e :
  canonical m e ->
  (0 < m /\ -1074 <= e /\ 0 < digits m <= 53 /\ (-1074 < e -> digits m = 53)
   /\ m < 2 ^ 53 /\ (-1074 < e -> 2 ^ 52 <= m))%Z.
Proof.
  intros [Hm He]. rewrite fexp_spec in He.
  destruct (digits_bounds m Hm) as (Hd & Hlo & Hhi).
  assert (Hd53 : (digits m <= 53)%Z) by lia.
  assert (H53 : (2 ^ digits m <= 2 ^ 53)%Z) by (apply Z.pow_le_mono_r; lia).
  repeat split; try lia.
  intros Hn. assert (Heq : digits m = 53%Z) by lia.
  rewrite Heq in Hlo. exact Hlo.
Qed.

Lemma canonical_mantissa_spec m e :
  canonical_mantissa prec emax m e = true <-> canonical (Z.pos m) e.
Proof.
  unfold canonical_mantissa, canonical. rewrite Z.eqb_eq. rewrite digits_pos.
  unfold fexp. intuition lia.
Qed.

Lemma IZR_pow2 k : (0 <= k)%Z -> IZR (2 ^ k) = pow2 k.
Proof. intros. now rewrite pow2_IZR. Qed.

(** Among canonical mantissas, the one with the greater exponent has the
    greater value. *)
Lemma canonical_exponent_lt m1 e1 m2 e2 :
  canonical m1 e1 -> canonical m2 e2 -> (e1 < e2)%Z ->
  F2R m1 e1 < F2R m2 e2.
Proof.
  intros H1 H2 He.
  apply canonical_facts in H1 as (Hm1 & He1 & Hd1 & _ & Hlt1 & _).
  apply canonical_facts in H2 as (Hm2 & He2 & Hd2 & _ & _ & Hge2).
  specialize (Hge2 ltac:(lia)).
  apply Rlt_le_trans with (F2R (2 ^ 53) e1).
  - now apply F2R_lt.
  - apply Rle_trans with (F2R (2 ^ 52) e2).
    + unfold F2R. rewrite !IZR_pow2 by lia. rewrite <- !pow2_add.
      apply pow2_le. lia.
    + now apply F2R_le.
Qed.

Lemma canonical_le m1 e1 m2 e2 :
  canonical m1 e1 -> canonical m2 e2 ->
  F2R m1 e1 <= F2R m2 e2 ->
  (e1 < e2 \/ (e1 = e2 /\ m1 <= m2))%Z.
Proof.
  intros H1 H2 Hle.
  destruct (Z.lt_trichotomy e1 e2) as [Hlt|[Heq|Hgt]].
  - now left.
  - right. subst e2. split; [reflexivity|]. now apply F2R_le_inv in Hle.
  - pose proof (canonical_exponent_lt _ _ _ _ H2 H1 Hgt). lra.
Qed.

Lemma canonical_eq m1 e1 m2 e2 :
  canonical m1 e1 -> canonical m2 e2 ->
  F2R m1 e1 = F2R m2 e2 -> m1 = m2 /\ e1 = e2.
Proof.
  intros H1 H2 Heq.
  destruct (canonical_le _ _ _ _ H1 H2 ltac:(lra)) as [Hlt|[He Hm]].
  - pose proof (canonical_exponent_lt _ _ _ _ H1 H2 Hlt). lra.
  - destruct (canonical_le _ _ _ _ H2 H1 ltac:(lra)) as [Hlt|[He' Hm']]; lia.
Qed.

Lemma canonical_pos m e : canonical m e -> 0 < F2R m e.
Proof.
  intros [Hm _]. unfold F2R. apply IZR_lt in Hm. pose proof (pow2_pos e). nra.
Qed.

(** ** Values and order of spec floats *)

Lemma valid_finite s m e :
  valid (S754_finite s m e) <-> canonical (Z.pos m) e /\ (e <= 971)%Z.
Proof.
  unfold valid, SpecFloat.valid_binary, SpecFloat.bounded.
  rewrite andb_true_iff, canonical_mantissa_spec, Z.leb_le. reflexivity.
Qed.

Lemma F2R_opp m e : F2R (- m) e = - F2R m e.
Proof. unfold F2R. rewrite opp_IZR. ring. Qed.

Lemma F2R_cond_Zopp s m e : F2R (cond_Zopp s m) e = signed s (F2R m e).
Proof. destruct s; cbn [cond_Zopp signed]; [apply F2R_opp|reflexivity]. Qed.

Lemma finite_below_infinity m e :
  canonical m e -> (e <= 971)%Z -> F2R m e < pow2 1024.
Proof.
  intros Hc He. apply canonical_facts in Hc as (Hm & _ & _ & _ & Hlt & _).
  apply Rlt_le_trans with (F2R (2 ^ 53) e).
  - now apply F2R_lt.
  - unfold F2R. rewrite IZR_pow2 by lia. rewrite <- pow2_add. apply pow2_le. lia.
Qed.

Lemma overflow_above_infinity m e :
  canonical m e -> (971 < e)%Z -> pow2 1024 <= F2R m e.
Proof.
  intros Hc He. apply canonical_facts in Hc as (Hm & _ & _ & _ & _ & Hge).
  specialize (Hge ltac:(lia)).
  apply Rle_trans with (F2R (2 ^ 52) e).
  - unfold F2R. rewrite IZR_pow2 by lia. rewrite <- pow2_add. apply pow2_le. lia.
  - now apply F2R_le.
Qed.

Lemma Rcmp_opp x y c : Rcmp x y c -> Rcmp (- x) (- y) (CompOpp c).
Proof. destruct c; cbn; lra. Qed.

Lemma compare_canonical m1 e1 m2 e2 :
  canonical (Z.pos m1) e1 -> canonical (Z.pos m2) e2 ->
  Rcmp (F2R (Z.pos m1) e1) (F2R (Z.pos m2) e2)
    match (e1 ?= e2)%Z with
    | Lt => Lt
    | Gt => Gt
    | Eq => Pos.compare_cont Eq m1 m2
    end.
Proof.
  intros H1 H2. destruct (Z.compare_spec e1 e2) as [He|He|He].
  - subst e2. change (Pos.compare_cont Eq m1 m2) with (m1 ?= m2)%positive.
    destruct (Pos.compare_spec m1 m2) as [Hm|Hm|Hm]; cbn.
    + now subst.
    + apply F2R_lt. lia.
    + apply F2R_lt. lia.
  - cbn. now apply canonical_exponent_lt.
  - cbn. now apply canonical_exponent_lt.
Qed.

Lemma SFcompare_rank a b :
  valid a -> valid b -> is_number a = true -> is_number b = true ->
  exists c, SFcompare a b = Some c /\ Rcmp (rank a) (rank b) c.
Proof.
  intros Ha Hb Na Nb.
  pose proof (pow2_pos 1024) as Hinf.
  destruct a as [sa|sa| |sa ma ea]; try discriminate;
    destruct b as [sb|sb| |sb mb eb]; try discriminate;
    cbn [SFcompare rank SFval];
    try (apply valid_finite in Ha as [Hca Hea];
         pose proof (canonical_pos _ _ Hca);
         pose proof (finite_below_infinity _ _ Hca Hea));
    try (apply valid_finite in Hb as [Hcb Heb];
         pose proof (canonical_pos _ _ Hcb);
         pose proof (finite_below_infinity _ _ Hcb Heb)).
  - exists Eq. split; reflexivity.
  - destruct sb; eexists; (split; [reflexivity|cbn [Rcmp]; lra]).
  - destruct sb; eexists; (split; [reflexivity|]); cbn [cond_Zopp Rcmp];
      try rewrite F2R_opp; lra.
  - destruct sa; eexists; (split; [reflexivity|cbn [Rcmp]; lra]).
  - destruct sa, sb; eexists; (split; [reflexivity|cbn [Rcmp]; lra]).
  - destruct sa, sb; eexists; (split; [reflexivity|]); cbn [cond_Zopp Rcmp];
      try rewrite F2R_opp; lra.
  - destruct sa; eexists; (split; [reflexivity|]); cbn [cond_Zopp Rcmp];
      try rewrite F2R_opp; lra.
  - destruct sa, sb; eexists; (split; [reflexivity|]); cbn [cond_Zopp Rcmp];
      try rewrite F2R_opp; lra.
  - pose proof (compare_canonical _ _ _ _ Hca Hcb) as Hc.
    destruct sa, sb; eexists; (split; [reflexivity|]); cbn [cond_Zopp];
      rewrite ?F2R_opp.
    + apply Rcmp_opp in Hc.
      destruct (ea ?= eb)%Z; exact Hc.
    + cbn [Rcmp]. lra.
    + cbn [Rcmp]. lra.
    + exact Hc.
Qed.

Lemma SFleb_rank a b :
  valid a -> valid b -> is_number a = true -> is_number b = true ->
  (SFleb a b = true <-> rank a <= rank b).
Proof.
  intros Ha Hb Na Nb.
  destruct (SFcompare_rank a b Ha Hb Na Nb) as (c & Hc & Hr).
  unfold SFleb. rewrite Hc. destruct c; cbn [Rcmp] in Hr; split; intros H;
    try reflexivity; try discriminate; lra.
Qed.

Lemma SFltb_rank a b :
  valid a -> valid b -> is_number a = true -> is_number b = true ->
  (SFltb a b = true <-> rank a < rank b).
Proof.
  intros Ha Hb Na Nb.
  destruct (SFcompare_rank a b Ha Hb Na Nb) as (c & Hc & Hr).
  unfold SFltb. rewrite Hc. destruct c; cbn [Rcmp] in Hr; split; intros H;
    try reflexivity; try discriminate; lra.
Qed.

Lemma SFleb_number a b : SFleb a b = true -> is_number a = true /\ is_number b = true.
Proof.
  unfold SFleb. destruct a as [| | |]; destruct b as [| | |]; cbn; try discriminate; auto.
Qed.

(** ** Locations *)

Lemma loc_of_shr_record_of_loc m l :
  loc_of_shr_record (shr_record_of_loc m l) = l
  /\ shr_m (shr_record_of_loc m l) = m.
Proof. destruct l as [|[| |]]; split; reflexivity. Qed.

Lemma F2R_succ m e : F2R (m + 1) e = F2R m e + pow2 e.
Proof. unfold F2R. rewrite plus_IZR. ring. Qed.

Lemma F2R_double m e : F2R (2 * m) e = F2R m (e + 1).
Proof. unfold F2R. rewrite mult_IZR, pow2_succ. ring. Qed.

Lemma F2R_0 e : F2R 0 e = 0.
Proof. unfold F2R. ring. Qed.

(** One step of the right shift keeps the location. *)
Lemma shr_1_inbetween mrs e x :
  (0 <= shr_m mrs)%Z ->
  inbetween (shr_m mrs) e (loc_of_shr_record mrs) x ->
  inbetween (shr_m (shr_1 mrs)) (e + 1) (loc_of_shr_record (shr_1 mrs)) x
  /\ shr_m (shr_1 mrs) = (shr_m mrs / 2)%Z.
Proof.
  destruct mrs as [m r s]. cbn [shr_m]. intros Hm Hin.
  pose proof (pow2_pos e) as Hp. pose proof (pow2_succ e) as Hs.
  destruct m as [|[p|p|]|p]; try lia; cbn [shr_1 shr_m loc_of_shr_record].
  - split; [|reflexivity]. revert Hin.
    destruct r, s; cbn [orb loc_of_shr_record inbetween]; rewrite ?F2R_0; lra.
  - split.
    + revert Hin.
      destruct r, s; cbn [orb loc_of_shr_record inbetween];
        rewrite Pos2Z.inj_xI, F2R_succ, F2R_double; lra.
    + rewrite Pos2Z.inj_xI. apply (Z.div_unique _ _ _ 1); lia.
  - split.
    + revert Hin.
      destruct r, s; cbn [orb loc_of_shr_record inbetween];
        rewrite Pos2Z.inj_xO, F2R_double; lra.
    + rewrite Pos2Z.inj_xO. apply (Z.div_unique _ _ _ 0); lia.
  - split; [|reflexivity]. revert Hin.
    assert (H1 : F2R 1 e = pow2 e) by (unfold F2R; ring).
    destruct r, s; cbn [orb loc_of_shr_record inbetween]; rewrite ?F2R_0, H1; lra.
Qed.

Lemma Zpow_xO p : (2 ^ Z.pos p~0 = 2 ^ Z.pos p * 2 ^ Z.pos p)%Z.
Proof. rewrite <- Z.pow_add_r by lia. f_equal. lia. Qed.

Lemma Zpow_xI p : (2 ^ Z.pos p~1 = 2 * (2 ^ Z.pos p * 2 ^ Z.pos p))%Z.
Proof.
  rewrite <- Z.pow_add_r by lia. rewrite <- Z.pow_succ_r by lia. f_equal. lia.
Qed.

Lemma iter_pos_shr_1 p : forall mrs e x,
  (0 <= shr_m mrs)%Z ->
  inbetween (shr_m mrs) e (loc_of_shr_record mrs) x ->
  let mrs' := @SpecFloat.iter_pos shr_record shr_1 p mrs in
  inbetween (shr_m mrs') (e + Z.pos p) (loc_of_shr_record mrs') x
  /\ shr_m mrs' = (shr_m mrs / 2 ^ Z.pos p)%Z.
Proof.
  assert (Hpos : forall k, (0 < 2 ^ Z.pos k)%Z)
    by (intros k; apply Z.pow_pos_nonneg; lia).
  assert (Hnn : forall m k, (0 <= m -> 0 <= m / 2 ^ Z.pos k)%Z).
  { intros m k Hm. apply Z.div_pos; [assumption|apply Hpos]. }
  induction p as [p IH|p IH|]; intros mrs e x Hm Hin;
    cbn [SpecFloat.iter_pos]; cbv zeta.
  - destruct (shr_1_inbetween mrs e x Hm Hin) as [H1 M1].
    assert (Hm1 : (0 <= shr_m (shr_1 mrs))%Z)
      by (rewrite M1; apply Z.div_pos; lia).
    destruct (IH _ _ _ Hm1 H1) as [H2 M2]. cbv zeta in H2, M2.
    assert (Hm2 : (0 <= shr_m (@SpecFloat.iter_pos shr_record shr_1 p (shr_1 mrs)))%Z)
      by (rewrite M2; now apply Hnn).
    destruct (IH _ _ _ Hm2 H2) as [H3 M3]. cbv zeta in H3, M3.
    split.
    + replace (e + Z.pos p~1)%Z with (e + 1 + Z.pos p + Z.pos p)%Z by lia. exact H3.
    + rewrite M3, M2, M1.
      pose proof (Hpos p).
      rewrite !Z.div_div by lia. now rewrite Zpow_xI.
  - destruct (IH _ _ _ Hm Hin) as [H2 M2]. cbv zeta in H2, M2.
    assert (Hm2 : (0 <= shr_m (@SpecFloat.iter_pos shr_record shr_1 p mrs))%Z)
      by (rewrite M2; now apply Hnn).
    destruct (IH _ _ _ Hm2 H2) as [H3 M3]. cbv zeta in H3, M3.
    split.
    + replace (e + Z.pos p~0)%Z with (e + Z.pos p + Z.pos p)%Z by lia. exact H3.
    + rewrite M3, M2.
      pose proof (Hpos p).
      rewrite !Z.div_div by lia. now rewrite Zpow_xO.
  - destruct (shr_1_inbetween mrs e x Hm Hin) as [H1 M1].
    split; [exact H1|]. rewrite M1. reflexivity.
Qed.

(** The right shift by [n] places. *)
Lemma shr_inbetween mrs e n x :
  (0 <= shr_m mrs)%Z -> (0 <= n)%Z ->
  inbetween (shr_m mrs) e (loc_of_shr_record mrs) x ->
  let '(mrs', e') := shr mrs e n in
  inbetween (shr_m mrs') e' (loc_of_shr_record mrs') x
  /\ shr_m mrs' = (shr_m mrs / 2 ^ n)%Z
  /\ e' = (e + n)%Z.
Proof.
  intros Hm Hn Hin. destruct n as [|p|p]; try lia; cbn [shr].
  - repeat split; [exact Hin|now rewrite Z.div_1_r|lia].
  - destruct (iter_pos_shr_1 p mrs e x Hm Hin) as [H M]. now repeat split.
Qed.

(** The digits of a shifted mantissa. *)
Lemma digits_shift m n :
  (0 < m)%Z -> (0 <= n < digits m)%Z -> digits (m / 2 ^ n) = (digits m - n)%Z.
Proof.
  intros Hm Hn. destruct (digits_bounds m Hm) as (Hd & Hlo & Hhi).
  assert (H2n : (0 < 2 ^ n)%Z) by (apply Z.pow_pos_nonneg; lia).
  apply digits_unique; [lia|]. split.
  - apply Z.div_le_lower_bound; [assumption|].
    rewrite <- Z.pow_add_r by lia. now replace (n + (digits m - n - 1))%Z with (digits m - 1)%Z by lia.
  - apply Z.div_lt_upper_bound; [assumption|].
    rewrite <- Z.pow_add_r by lia. now replace (n + (digits m - n))%Z with (digits m) by lia.
Qed.

Lemma shift_out m n :
  (0 <= m)%Z -> (digits m <= n)%Z -> (m / 2 ^ n = 0)%Z.
Proof.
  intros Hm Hn. destruct (Z.eq_dec m 0%Z) as [->|Hne].
  - apply Z.div_0_l. assert (0 < 2 ^ n)%Z by (apply Z.pow_pos_nonneg; pose proof (digits_nonneg 0); lia). lia.
  - destruct (digits_bounds m ltac:(lia)) as (Hd & Hlo & Hhi).
    apply Z.div_small. split; [lia|].
    assert (2 ^ digits m <= 2 ^ n)%Z by (apply Z.pow_le_mono_r; lia). lia.
Qed.

(** ** Rounding to nearest *)

Lemma grid_nonneg m e : grid m e -> (0 <= m)%Z.
Proof. intros [[-> _]|[Hm _]]; lia. Qed.

Lemma F2R_nonneg m e : (0 <= m)%Z -> 0 <= F2R m e.
Proof.
  intros Hm. unfold F2R. apply IZR_le in Hm. pose proof (pow2_pos e). nra.
Qed.

Lemma F2R_pos m e : (0 < m)%Z -> 0 < F2R m e.
Proof.
  intros Hm. unfold F2R. apply IZR_lt in Hm. pose proof (pow2_pos e). nra.
Qed.

(** No value of the format lies strictly between two neighbours of the
    grid. *)
Lemma no_float_between m e f :
  grid m e -> float_value f -> F2R m e < f -> F2R m e + pow2 e <= f.
Proof.
  intros Hg Hf Hlt. pose proof (F2R_nonneg m e (grid_nonneg _ _ Hg)) as Hnn.
  destruct Hf as [->|(mf & ef & Hc & ->)]; [lra|].
  destruct (Z_le_gt_dec e ef) as [Hle|Hgt].
  - replace ef with (e + (ef - e))%Z in Hlt |- * by lia.
    rewrite <- F2R_shift in Hlt |- * by lia.
    apply F2R_lt_inv in Hlt. rewrite <- F2R_succ. apply F2R_le. lia.
  - exfalso.
    pose proof (canonical_facts _ _ Hc) as (Hmf & Hef & _ & _ & Hlt53 & _).
    destruct Hg as [[_ ->]|Hcm]; [lia|].
    pose proof (canonical_facts _ _ Hcm) as (_ & _ & _ & _ & _ & Hge).
    specialize (Hge ltac:(lia)).
    assert (H1 : F2R mf ef < F2R (2 ^ 53) ef) by now apply F2R_lt.
    assert (H2 : F2R (2 ^ 53) ef <= F2R (2 ^ 52) e).
    { unfold F2R. rewrite !IZR_pow2 by lia. rewrite <- !pow2_add. apply pow2_le. lia. }
    assert (H3 : F2R (2 ^ 52) e <= F2R m e) by now apply F2R_le.
    lra.
Qed.

Lemma round_nearest_even_nearest m e l x :
  grid m e -> inbetween m e l x ->
  let m' := round_nearest_even m l in
  nearest (F2R m' e) x /\ (m' = m \/ m' = (m + 1)%Z).
Proof.
  intros Hg Hin. cbv zeta.
  pose proof (pow2_pos e) as Hp.
  assert (Hm' : round_nearest_even m l = m \/ round_nearest_even m l = (m + 1)%Z).
  { destruct l as [|[| |]]; cbn; auto. destruct (Z.even m); auto. }
  split; [|exact Hm'].
  intros f Hf.
  assert (Hup : F2R m e < f -> F2R m e + pow2 e <= f)
    by now apply no_float_between.
  assert (Hdn : f < F2R m e + pow2 e -> f <= F2R m e).
  { intros H. destruct (Rle_or_lt f (F2R m e)) as [|Hlt]; [assumption|].
    apply Hup in Hlt. lra. }
  destruct l as [|[| |]]; cbn [inbetween round_nearest_even] in *.
  - subst x. split; intros H; lra.
  - subst x. destruct (Z.even m); rewrite ?F2R_succ; split; intros H.
    + pose proof (Hdn ltac:(lra)). lra.
    + destruct (Rle_or_lt f (F2R m e)); [lra|]. pose proof (Hup ltac:(lra)). lra.
    + pose proof (Hdn ltac:(lra)). lra.
    + destruct (Rle_or_lt f (F2R m e)); [lra|]. pose proof (Hup ltac:(lra)). lra.
  - split; intros H.
    + pose proof (Hdn ltac:(lra)). lra.
    + pose proof (Hup ltac:(lra)). lra.
  - rewrite F2R_succ. split; intros H.
    + pose proof (Hdn ltac:(lra)). lra.
    + pose proof (Hup ltac:(lra)). lra.
Qed.

Lemma shr_fexp_unfold m e l :
  shr_fexp prec emax m e l
  = shr (shr_record_of_loc m l) e (fexp (digits m + e) - e).
Proof. reflexivity. Qed.

(** The first shift of [binary_round_aux]: the mantissa is brought to the
    grid, its location kept. *)
Lemma shr_fexp_grid m e l x :
  (0 <= m)%Z -> inbetween m e l x -> (e <= fexp (digits m + e))%Z ->
  let '(mrs', e') := shr_fexp prec emax m e l in
  inbetween (shr_m mrs') e' (loc_of_shr_record mrs') x
  /\ grid (shr_m mrs') e'.
Proof.
  intros Hm Hin He. rewrite shr_fexp_unfold.
  destruct (loc_of_shr_record_of_loc m l) as [Hl Hsm].
  pose proof (shr_inbetween (shr_record_of_loc m l) e (fexp (digits m + e) - e) x) as Hs.
  rewrite Hl, Hsm in Hs. specialize (Hs Hm ltac:(lia) Hin).
  destruct (shr _ _ _) as [mrs' e']. destruct Hs as (Hin' & Hm' & He').
  split; [exact Hin'|]. rewrite Hm', He'.
  replace (e + (fexp (digits m + e) - e))%Z with (fexp (digits m + e)) by lia.
  destruct (Z.eq_dec m 0%Z) as [->|Hne].
  - left. split.
    + apply Z.div_0_l. assert (0 < 2 ^ (fexp (digits 0 + e) - e))%Z
        by (apply Z.pow_pos_nonneg; lia). lia.
    + rewrite digits_0 in *. rewrite fexp_spec in *. lia.
  - assert (Hpos : (0 < m)%Z) by lia.
    destruct (digits_bounds m Hpos) as (Hd & _ & _).
    destruct (Z_lt_le_dec (fexp (digits m + e) - e)%Z (digits m)) as [Hlt|Hge].
    + right. pose proof (digits_shift m (fexp (digits m + e) - e) Hpos ltac:(lia)) as Hds.
      split.
      * assert (0 <= m / 2 ^ (fexp (digits m + e) - e))%Z.
        { apply Z.div_pos; [lia|]. apply Z.pow_pos_nonneg; lia. }
        destruct (Z.eq_dec (m / 2 ^ (fexp (digits m + e) - e))%Z 0%Z) as [H0|H0]; [|lia].
        rewrite H0, digits_0 in Hds. lia.
      * rewrite Hds. f_equal. lia.
    + left. split.
      * apply shift_out; lia.
      * rewrite fexp_spec in *. lia.
Qed.

Lemma shr_0 mrs e : shr mrs e 0 = (mrs, e).
Proof. reflexivity. Qed.

(** The second shift of [binary_round_aux]: a carry into a 54th digit is
    shifted out; the value is kept. *)
Lemma shr_fexp_carry m1 e1 m2 :
  grid m1 e1 -> (m2 = m1 \/ m2 = (m1 + 1)%Z) ->
  let '(mrs', e') := shr_fexp prec emax m2 e1 loc_Exact in
  (shr_m mrs' = 0%Z \/ canonical (shr_m mrs') e')
  /\ F2R (shr_m mrs') e' = F2R m2 e1.
Proof.
  intros Hg Hm2. rewrite shr_fexp_unfold.
  assert (Hcases : (m2 = 0%Z /\ e1 = (-1074)%Z) \/ canonical m2 e1
                   \/ (m2 = (2 ^ 53)%Z /\ (-1074 <= e1)%Z)).
  { destruct Hg as [[-> ->]|Hc].
    - destruct Hm2 as [->| ->]; [now left|]. right. left. split; [lia|reflexivity].
    - destruct Hm2 as [->| ->]; [now (right; left)|].
      pose proof (canonical_facts _ _ Hc) as (Hm & He & Hd & Hn & Hlt & Hge).
      destruct (digits_bounds m1 Hm) as (_ & Hlo & Hhi).
      destruct (Z.eq_dec (m1 + 1)%Z (2 ^ digits m1)%Z) as [Heq|Hne].
      + assert (Hd' : digits (m1 + 1) = (digits m1 + 1)%Z).
        { apply digits_unique; [lia|]. rewrite Heq.
          replace (digits m1 + 1 - 1)%Z with (digits m1) by lia.
          split; [lia|]. apply Z.pow_lt_mono_r; lia. }
        destruct (Z.eq_dec (digits m1) 53%Z) as [H53|H53].
        * right. right. rewrite Heq, H53. split; [reflexivity|lia].
        * right. left. split; [lia|]. rewrite Hd'.
          destruct Hc as [_ Hc]. rewrite fexp_spec in *. lia.
      + right. left. split; [lia|].
        assert (Hd' : digits (m1 + 1) = digits m1).
        { apply digits_unique; lia. }
        rewrite Hd'. apply Hc. }
  destruct Hcases as [[-> ->]|[Hc|[-> He]]].
  - cbn. split; [now left|reflexivity].
  - destruct Hc as [Hm Hc]. rewrite Hc, Z.sub_diag, shr_0. cbn [shr_record_of_loc shr_m].
    split; [right; now split|reflexivity].
  - assert (Hn : (fexp (digits (2 ^ 53) + e1) - e1 = 1)%Z).
    { change (digits (2 ^ 53)) with 54%Z. rewrite fexp_spec. lia. }
    rewrite Hn. cbn [shr shr_record_of_loc SpecFloat.iter_pos].
    change (2 ^ 53)%Z with (Z.pos (4503599627370496~0)).
    cbn [shr_1 shr_m].
    split.
    + right. split; [lia|]. change (digits (Z.pos 4503599627370496)) with 53%Z.
      rewrite fexp_spec. lia.
    + change (Z.pos (4503599627370496~0)) with (2 * Z.pos 4503599627370496)%Z.
      now rewrite F2R_double.
Qed.

(** The result of [binary_round_aux]: a mantissa and an exponent on the
    grid, nearest to [x]. *)
Lemma binary_round_aux_nearest sx mx ex lx x :
  (0 <= mx)%Z -> inbetween mx ex lx x -> (ex <= fexp (digits mx + ex))%Z ->
  exists m e,
    binary_round_aux prec emax sx mx ex lx = encode sx m e
    /\ (m = 0%Z \/ canonical m e)
    /\ nearest (F2R m e) x.
Proof.
  intros Hm Hin He. unfold binary_round_aux.
  pose proof (shr_fexp_grid mx ex lx x Hm Hin He) as H1.
  destruct (shr_fexp prec emax mx ex lx) as [mrs1 e1]. destruct H1 as [Hin1 Hg1].
  destruct (round_nearest_even_nearest _ _ _ _ Hg1 Hin1) as [Hn Hm2].
  pose proof (shr_fexp_carry _ _ _ Hg1 Hm2) as H3.
  destruct (shr_fexp prec emax _ e1 loc_Exact) as [mrs3 e3]. destruct H3 as [Hc3 Hv3].
  exists (shr_m mrs3), e3. split; [|split].
  - unfold encode. destruct (shr_m mrs3); reflexivity.
  - exact Hc3.
  - now rewrite Hv3.
Qed.

(** ** Roundings and the order *)

Lemma clamp_le u v : u <= v -> clamp u <= clamp v.
Proof. unfold clamp. intros H. apply Rle_min_compat_r. exact H. Qed.

Lemma clamp_nonneg u : 0 <= u -> 0 <= clamp u.
Proof.
  unfold clamp. intros H. pose proof (pow2_pos 1024).
  apply Rmin_glb; lra.
Qed.

Lemma clamp_0 : clamp 0 = 0.
Proof. unfold clamp. pose proof (pow2_pos 1024). rewrite Rmin_left; lra. Qed.

Lemma rank_encode s m e :
  (m = 0%Z \/ canonical m e) ->
  rank (encode s m e) = signed s (clamp (F2R m e)).
Proof.
  intros [->|Hc].
  - cbn [encode rank SFval]. rewrite F2R_0, clamp_0. destruct s; cbn; lra.
  - pose proof (proj1 Hc) as Hm. destruct m as [|p|p]; try lia.
    cbn [encode]. destruct (Z.leb_spec e 971) as [He|He].
    + pose proof (finite_below_infinity _ _ Hc He) as Hlt.
      cbn [rank SFval]. unfold clamp. rewrite Rmin_left by lra.
      apply F2R_cond_Zopp.
    + pose proof (overflow_above_infinity _ _ Hc He) as Hge.
      cbn [rank]. unfold clamp. rewrite Rmin_right by lra.
      destruct s; reflexivity.
Qed.

Lemma encode_valid s m e :
  (m = 0%Z \/ canonical m e) ->
  valid (encode s m e) /\ is_number (encode s m e) = true.
Proof.
  intros [->|Hc]; [split; reflexivity|].
  pose proof (proj1 Hc) as Hm. destruct m as [|p|p]; try lia.
  cbn [encode]. destruct (Z.leb_spec e 971) as [He|He].
  - split; [|reflexivity]. now apply valid_finite.
  - split; reflexivity.
Qed.

Lemma SFopp_encode s m e : SFopp (encode s m e) = encode (negb s) m e.
Proof.
  destruct m as [|p|p]; cbn [encode SFopp]; try reflexivity.
  destruct (e <=? 971)%Z; reflexivity.
Qed.

Lemma float_value_grid m e : (m = 0%Z \/ canonical m e) -> float_value (F2R m e).
Proof.
  intros [->|Hc]; [left; apply F2R_0|right; now exists m, e].
Qed.

Lemma float_value_nonneg f : float_value f -> 0 <= f.
Proof.
  intros [->|(m & e & Hc & ->)]; [lra|]. pose proof (canonical_pos _ _ Hc). lra.
Qed.

Lemma nearest_mono u x v y :
  nearest u x -> nearest v y -> float_value u -> float_value v ->
  x < y -> u <= v.
Proof.
  intros Hu Hv Fu Fv Hxy.
  destruct (Rle_or_lt u v) as [|Hlt]; [assumption|exfalso].
  destruct (Hu v Fv) as [Hu1 Hu2]. destruct (Hv u Fu) as [Hv1 Hv2].
  destruct (Rle_or_lt x v) as [Hxv|Hxv]; [pose proof (Hu2 Hxv); lra|].
  destruct (Rle_or_lt u y) as [Huy|Huy]; [pose proof (Hv1 Huy); lra|].
  pose proof (Hu1 ltac:(lra)). pose proof (Hv2 ltac:(lra)). lra.
Qed.

Lemma nearest_exact u x : nearest u x -> float_value x -> u = x.
Proof.
  intros Hu Fx. destruct (Hu x Fx) as [H1 H2].
  pose proof (H1 ltac:(lra)). pose proof (H2 ltac:(lra)). lra.
Qed.

Lemma nearest_refl u : nearest u u.
Proof. intros f _. split; intros H; lra. Qed.

Lemma rounds_valid r x : rounds r x -> valid r /\ is_number r = true.
Proof. intros (s & m & e & -> & Hg & _). now apply encode_valid. Qed.

Lemma rounds_rank_sign r x :
  rounds r x -> (x <= 0 -> rank r <= 0) /\ (0 <= x -> 0 <= rank r).
Proof.
  intros (s & m & e & -> & Hg & Hn & Hpos & Hneg).
  rewrite (rank_encode _ _ _ Hg).
  pose proof (float_value_nonneg _ (float_value_grid _ _ Hg)) as Hu.
  pose proof (clamp_nonneg _ Hu) as Hc.
  assert (H0 : x = 0 -> clamp (F2R m e) = 0).
  { intros ->. rewrite Rabs_R0 in Hn.
    rewrite (nearest_exact _ _ Hn (or_introl eq_refl)). apply clamp_0. }
  split; intros Hx.
  - destruct (Rle_lt_or_eq_dec _ _ Hx) as [Hlt|Heq].
    + rewrite (Hneg Hlt). cbn. lra.
    + rewrite (H0 Heq). destruct s; cbn; lra.
  - destruct (Rle_lt_or_eq_dec _ _ Hx) as [Hlt|Heq].
    + rewrite (Hpos Hlt). cbn. lra.
    + rewrite (H0 (eq_sym Heq)). destruct s; cbn; lra.
Qed.

(** Rounding to nearest is monotone. *)
Lemma rounds_mono r x r' y :
  rounds r x -> rounds r' y -> x < y -> rank r <= rank r'.
Proof.
  intros Hr Hr' Hxy.
  destruct (rounds_rank_sign _ _ Hr) as [Hr1 Hr2].
  destruct (rounds_rank_sign _ _ Hr') as [Hr1' Hr2'].
  destruct (Rle_or_lt x 0) as [Hx|Hx].
  - destruct (Rle_or_lt 0 y) as [Hy|Hy].
    + pose proof (Hr1 Hx). pose proof (Hr2' Hy). lra.
    + destruct Hr as (s & m & e & -> & Hg & Hn & Hpos & Hneg).
      destruct Hr' as (s' & m' & e' & -> & Hg' & Hn' & Hpos' & Hneg').
      rewrite !rank_encode by assumption.
      rewrite (Hneg ltac:(lra)), (Hneg' Hy). cbn [signed].
      rewrite Rabs_left in Hn, Hn' by lra.
      pose proof (nearest_mono _ _ _ _ Hn' Hn (float_value_grid _ _ Hg')
                    (float_value_grid _ _ Hg) ltac:(lra)) as Hle.
      apply clamp_le in Hle. lra.
  - destruct Hr as (s & m & e & -> & Hg & Hn & Hpos & Hneg).
    destruct Hr' as (s' & m' & e' & -> & Hg' & Hn' & Hpos' & Hneg').
    rewrite !rank_encode by assumption.
    rewrite (Hpos Hx), (Hpos' ltac:(lra)). cbn [signed].
    rewrite Rabs_right in Hn, Hn' by lra.
    pose proof (nearest_mono _ _ _ _ Hn Hn' (float_value_grid _ _ Hg)
                  (float_value_grid _ _ Hg') Hxy) as Hle.
    now apply clamp_le.
Qed.

(** A value of the format has one rounding only. *)
Lemma rounds_unique r r' x :
  rounds r x -> rounds r' x -> float_value (Rabs x) -> rank r = rank r'.
Proof.
  intros Hr Hr' Fx.
  destruct (Req_dec x 0) as [H0|H0].
  - destruct (rounds_rank_sign _ _ Hr) as [Hr1 Hr2].
    destruct (rounds_rank_sign _ _ Hr') as [Hr1' Hr2'].
    pose proof (Hr1 ltac:(lra)). pose proof (Hr2 ltac:(lra)).
    pose proof (Hr1' ltac:(lra)). pose proof (Hr2' ltac:(lra)). lra.
  - destruct Hr as (s & m & e & -> & Hg & Hn & Hpos & Hneg).
    destruct Hr' as (s' & m' & e' & -> & Hg' & Hn' & Hpos' & Hneg').
    rewrite !rank_encode by assumption.
    rewrite (nearest_exact _ _ Hn Fx), (nearest_exact _ _ Hn' Fx).
    destruct (Rlt_or_le 0 x) as [Hx|Hx].
    + now rewrite (Hpos Hx), (Hpos' Hx).
    + assert (Hlt : x < 0) by lra. now rewrite (Hneg Hlt), (Hneg' Hlt).
Qed.

(** A finite double is its own rounding. *)
Lemma rounds_finite s m e :
  valid (S754_finite s m e) ->
  rounds (S754_finite s m e) (SFval (S754_finite s m e)).
Proof.
  intros Hv. apply valid_finite in Hv as [Hc He].
  pose proof (canonical_pos _ _ Hc) as Hpos.
  exists s, (Z.pos m), e. split; [|split; [|split; [|split]]].
  - cbn [encode]. destruct (Z.leb_spec e 971); [reflexivity|lia].
  - now right.
  - cbn [SFval]. rewrite F2R_cond_Zopp. destruct s; cbn [signed].
    + rewrite Rabs_left by lra. rewrite Ropp_involutive. apply nearest_refl.
    + rewrite Rabs_right by lra. apply nearest_refl.
  - cbn [SFval]. rewrite F2R_cond_Zopp. destruct s; [|reflexivity]. cbn [signed]. lra.
  - cbn [SFval]. rewrite F2R_cond_Zopp. destruct s; [reflexivity|]. cbn [signed]. lra.
Qed.

Lemma rounds_zero s : rounds (S754_zero s) 0.
Proof.
  exists s, 0%Z, 0%Z. split; [reflexivity|split; [|split; [|split]]].
  - now left.
  - rewrite F2R_0, Rabs_R0. apply nearest_refl.
  - lra.
  - lra.
Qed.

Lemma rank_bounds r :
  valid r -> is_number r = true -> - pow2 1024 <= rank r <= pow2 1024.
Proof.
  intros Hv Hn. pose proof (pow2_pos 1024).
  destruct r as [s|s| |s m e]; try discriminate; cbn [rank SFval].
  - lra.
  - destruct s; lra.
  - apply valid_finite in Hv as [Hc He].
    pose proof (canonical_pos _ _ Hc). pose proof (finite_below_infinity _ _ Hc He).
    rewrite F2R_cond_Zopp. destruct s; cbn [signed]; lra.
Qed.

(** ** The operations *)

Lemma Pos_iter_xO m d : Z.pos (Pos.iter xO m d) = (Z.pos m * 2 ^ Z.pos d)%Z.
Proof.
  revert m. induction d as [|d IH] using Pos.peano_ind; intros m.
  - cbn [Pos.iter]. lia.
  - rewrite Pos.iter_succ, Pos2Z.inj_xO, IH, Pos2Z.inj_succ, Z.pow_succ_r by lia. ring.
Qed.

Lemma digits_mul_pow2 m k :
  (0 < m)%Z -> (0 <= k)%Z -> digits (m * 2 ^ k) = (digits m + k)%Z.
Proof.
  intros Hm Hk. destruct (digits_bounds m Hm) as (Hd & Hlo & Hhi).
  assert (H2k : (0 < 2 ^ k)%Z) by (apply Z.pow_pos_nonneg; lia).
  apply digits_unique; [lia|]. split.
  - replace (digits m + k - 1)%Z with (digits m - 1 + k)%Z by lia.
    rewrite Z.pow_add_r by lia. apply Z.mul_le_mono_nonneg_r; lia.
  - rewrite Z.pow_add_r by lia. apply Z.mul_lt_mono_pos_r; lia.
Qed.

Lemma digits_mul_ge a b :
  (0 < a)%Z -> (0 < b)%Z -> (digits a + digits b - 1 <= digits (a * b))%Z.
Proof.
  intros Ha Hb.
  destruct (digits_bounds a Ha) as (Hda & Hloa & _).
  destruct (digits_bounds b Hb) as (Hdb & Hlob & _).
  destruct (digits_bounds (a * b) ltac:(lia)) as (Hd & _ & Hhi).
  destruct (Z_le_gt_dec (digits a + digits b - 1) (digits (a * b))) as [|Hgt];
    [assumption|exfalso].
  assert (H1 : (2 ^ (digits a - 1) * 2 ^ (digits b - 1) <= a * b)%Z)
    by (apply Z.mul_le_mono_nonneg; try lia; apply Z.pow_nonneg; lia).
  rewrite <- Z.pow_add_r in H1 by lia.
  assert (H2 : (2 ^ digits (a * b) <= 2 ^ (digits a - 1 + (digits b - 1)))%Z)
    by (apply Z.pow_le_mono_r; lia).
  lia.
Qed.

Lemma shl_align_spec mx ex ex' :
  let '(m', e') := shl_align mx ex ex' in
  F2R (Z.pos m') e' = F2R (Z.pos mx) ex
  /\ ((ex' < ex)%Z -> e' = ex' /\ Z.pos m' = (Z.pos mx * 2 ^ (ex - ex'))%Z)
  /\ ((ex <= ex')%Z -> e' = ex /\ m' = mx).
Proof.
  unfold shl_align. destruct (ex' - ex)%Z as [|d|d] eqn:E.
  - split; [reflexivity|]. split; intros H; [lia|now split].
  - split; [reflexivity|]. split; intros H; [lia|now split].
  - assert (Hd : (ex - ex' = Z.pos d)%Z) by lia.
    split; [|split; intros H; [|lia]].
    + rewrite Pos_iter_xO, F2R_shift by lia. f_equal. lia.
    + split; [reflexivity|]. now rewrite Pos_iter_xO, Hd.
Qed.

Lemma inbetween_exact m e : inbetween m e loc_Exact (F2R m e).
Proof. reflexivity. Qed.

Lemma rounds_of_nearest s m e x :
  (m = 0%Z \/ canonical m e) -> 0 < x -> nearest (F2R m e) x ->
  rounds (encode s m e) (signed s x).
Proof.
  intros Hg Hx Hn. exists s, m, e. split; [reflexivity|]. split; [exact Hg|].
  destruct s; cbn [signed].
  - rewrite Rabs_left by lra. rewrite Ropp_involutive.
    split; [exact Hn|]. split; intros H; [lra|reflexivity].
  - rewrite Rabs_right by lra.
    split; [exact Hn|]. split; intros H; [reflexivity|lra].
Qed.

Lemma binary_round_rounds s m e :
  rounds (binary_round prec emax s m e) (signed s (F2R (Z.pos m) e)).
Proof.
  unfold binary_round.
  pose proof (shl_align_spec m e (SpecFloat.fexp prec emax (Z.pos (digits2_pos m) + e))) as Hs.
  destruct (shl_align m e _) as [mz ez]. destruct Hs as (Hv & Hlt & Hge).
  change (SpecFloat.fexp prec emax (Z.pos (digits2_pos m) + e))
    with (fexp (digits (Z.pos m) + e)) in Hlt, Hge.
  assert (Hpre : (ez <= fexp (digits (Z.pos mz) + ez))%Z).
  { destruct (Z_lt_le_dec (fexp (digits (Z.pos m) + e)) e) as [H|H].
    - destruct (Hlt H) as [-> Hm]. rewrite Hm.
      rewrite digits_mul_pow2 by lia.
      replace (digits (Z.pos m) + (e - fexp (digits (Z.pos m) + e))
               + fexp (digits (Z.pos m) + e))%Z
        with (digits (Z.pos m) + e)%Z by lia. lia.
    - destruct (Hge H) as [-> ->]. exact H. }
  destruct (binary_round_aux_nearest s (Z.pos mz) ez loc_Exact (F2R (Z.pos mz) ez)
              ltac:(lia) (inbetween_exact _ _) Hpre) as (m' & e' & -> & Hg & Hn).
  rewrite <- Hv. apply rounds_of_nearest; try assumption.
  apply F2R_pos. lia.
Qed.

Lemma binary_normalize_rounds M e sz :
  rounds (binary_normalize prec emax M e sz) (F2R M e).
Proof.
  destruct M as [|p|p]; cbn [binary_normalize].
  - rewrite F2R_0. apply rounds_zero.
  - apply (binary_round_rounds false).
  - change (Z.neg p) with (cond_Zopp true (Z.pos p)). rewrite F2R_cond_Zopp.
    apply (binary_round_rounds true).
Qed.

Lemma F2R_plus a b e : F2R (a + b) e = F2R a e + F2R b e.
Proof. unfold F2R. rewrite plus_IZR. ring. Qed.

(** Addition of two finite doubles rounds their sum. *)
Lemma SFadd_rounds sa ma ea sb mb eb :
  rounds (SFadd prec emax (S754_finite sa ma ea) (S754_finite sb mb eb))
    (SFval (S754_finite sa ma ea) + SFval (S754_finite sb mb eb)).
Proof.
  cbn [SFadd SFval]. cbv zeta.
  pose proof (shl_align_spec ma ea (Z.min ea eb)) as Ha.
  pose proof (shl_align_spec mb eb (Z.min ea eb)) as Hb.
  destruct (shl_align ma ea (Z.min ea eb)) as [ma' ea'].
  destruct (shl_align mb eb (Z.min ea eb)) as [mb' eb'].
  cbn [fst]. destruct Ha as (Hva & Hlta & Hgea). destruct Hb as (Hvb & Hltb & Hgeb).
  assert (Hea : ea' = Z.min ea eb).
  { destruct (Z_lt_le_dec (Z.min ea eb) ea) as [H|H];
      [apply Hlta in H|apply Hgea in H]; lia. }
  assert (Heb : eb' = Z.min ea eb).
  { destruct (Z_lt_le_dec (Z.min ea eb) eb) as [H|H];
      [apply Hltb in H|apply Hgeb in H]; lia. }
  subst ea' eb'.
  replace (F2R (cond_Zopp sa (Z.pos ma)) ea + F2R (cond_Zopp sb (Z.pos mb)) eb)
    with (F2R (cond_Zopp sa (Z.pos ma') + cond_Zopp sb (Z.pos mb')) (Z.min ea eb)).
  - apply binary_normalize_rounds.
  - rewrite F2R_plus, !F2R_cond_Zopp, Hva, Hvb. reflexivity.
Qed.

Lemma signed_mult sa sb u v :
  signed sa u * signed sb v = signed (xorb sa sb) (u * v).
Proof. destruct sa, sb; cbn; ring. Qed.

Lemma F2R_mult m1 e1 m2 e2 : F2R m1 e1 * F2R m2 e2 = F2R (m1 * m2) (e1 + e2).
Proof. unfold F2R. rewrite mult_IZR, pow2_add. ring. Qed.

(** Multiplication of a finite double by a normal one rounds their
    product. *)
Lemma SFmul_rounds sa ma ea sc mc ec :
  digits (Z.pos mc) = 53%Z ->
  rounds (SFmul prec emax (S754_finite sa ma ea) (S754_finite sc mc ec))
    (SFval (S754_finite sa ma ea) * SFval (S754_finite sc mc ec)).
Proof.
  intros Hc. cbn [SFmul SFval].
  rewrite !F2R_cond_Zopp, signed_mult, F2R_mult.
  change (Z.pos ma * Z.pos mc)%Z with (Z.pos (ma * mc)).
  assert (Hpre : (ea + ec <= fexp (digits (Z.pos (ma * mc)) + (ea + ec)))%Z).
  { pose proof (digits_mul_ge (Z.pos ma) (Z.pos mc) ltac:(lia) ltac:(lia)) as Hd.
    destruct (digits_bounds (Z.pos ma) ltac:(lia)) as (Hda & _).
    change (Z.pos ma * Z.pos mc)%Z with (Z.pos (ma * mc)) in Hd.
    rewrite fexp_spec. lia. }
  destruct (binary_round_aux_nearest (xorb sa sc) (Z.pos (ma * mc)) (ea + ec) loc_Exact
              (F2R (Z.pos (ma * mc)) (ea + ec))
              ltac:(lia) (inbetween_exact _ _) Hpre) as (m' & e' & -> & Hg & Hn).
  apply rounds_of_nearest; try assumption. apply F2R_pos. lia.
Qed.

(** *** Division *)

Lemma new_location_spec m2 r :
  (0 < m2)%Z -> (0 <= r < m2)%Z ->
  match new_location m2 r with
  | loc_Exact => r = 0%Z
  | loc_Inexact Lt => (0 < r /\ 2 * r < m2)%Z
  | loc_Inexact Eq => (0 < r /\ 2 * r = m2)%Z
  | loc_Inexact Gt => (0 < r /\ m2 < 2 * r)%Z
  end.
Proof.
  intros Hm2 Hr. unfold new_location.
  destruct (Z.even m2) eqn:Hev.
  - unfold new_location_even. destruct (Z.eqb_spec r 0) as [->|Hne]; [reflexivity|].
    destruct (Z.compare_spec (2 * r) m2); lia.
  - unfold new_location_odd. destruct (Z.eqb_spec r 0) as [->|Hne]; [reflexivity|].
    assert (Hodd : Z.odd m2 = true) by (rewrite <- Z.negb_even, Hev; reflexivity).
    apply Z.odd_spec in Hodd as [k Hk].
    destruct (Z.compare_spec (2 * r + 1) m2); lia.
Qed.

Lemma SFdiv_core_spec m1 e1 m2 e2 :
  (0 < m1)%Z -> (0 < m2)%Z ->
  let '(q, e', l) := SFdiv_core_binary prec emax m1 e1 m2 e2 in
  (0 <= q)%Z
  /\ inbetween q e' l (F2R m1 e1 / F2R m2 e2)
  /\ (e' <= fexp (digits q + e'))%Z.
Proof.
  intros Hm1 Hm2. unfold SFdiv_core_binary.
  change (Zdigits2 m1) with (digits m1). change (Zdigits2 m2) with (digits m2).
  change (SpecFloat.fexp prec emax) with fexp.
  set (e' := Z.min (fexp (digits m1 + e1 - (digits m2 + e2))) (e1 - e2)).
  set (s := (e1 - e2 - e')%Z).
  assert (Hs : (0 <= s)%Z) by (unfold s, e'; lia).
  assert (Hm' : match s with
                | Z.pos _ => Z.shiftl m1 s
                | 0%Z => m1
                | Z.neg _ => 0%Z
                end = (m1 * 2 ^ s)%Z).
  { destruct s as [|p|p] eqn:E; [cbn; lia| |lia].
    now rewrite Z.shiftl_mul_pow2 by lia. }
  rewrite Hm'. clear Hm'.
  pose proof (Z_div_mod (m1 * 2 ^ s) m2 ltac:(lia)) as Hdm.
  destruct (Z.div_eucl (m1 * 2 ^ s) m2) as [q r]. destruct Hdm as [Heq Hr].
  assert (H2s : (0 < 2 ^ s)%Z) by (apply Z.pow_pos_nonneg; lia).
  assert (Hq : (0 <= q)%Z) by nia.
  split; [exact Hq|]. split.
  - (* the location *)
    pose proof (pow2_pos e') as HP. pose proof (pow2_pos e2) as HP2.
    assert (Hm2R : 0 < IZR m2) by now apply IZR_lt.
    assert (HeqR : IZR m1 * pow2 s = IZR m2 * IZR q + IZR r).
    { rewrite pow2_IZR by lia. rewrite <- mult_IZR, Heq, plus_IZR, mult_IZR. reflexivity. }
    assert (Hx : F2R m1 e1 / F2R m2 e2 = F2R q e' + IZR r / IZR m2 * pow2 e').
    { unfold F2R. replace e1 with (s + e' + e2)%Z by (unfold s; lia).
      rewrite !pow2_add.
      replace (IZR m1 * (pow2 s * pow2 e' * pow2 e2))
        with ((IZR m2 * IZR q + IZR r) * pow2 e' * pow2 e2) by (rewrite <- HeqR; ring).
      field. split; lra. }
    rewrite Hx.
    pose proof (new_location_spec m2 r Hm2 Hr) as Hl.
    assert (Hrho : forall a b : Z, (a * r < b * m2)%Z -> IZR a * (IZR r / IZR m2) < IZR b).
    { intros a b H. apply IZR_lt in H. rewrite !mult_IZR in H.
      apply Rmult_lt_reg_r with (IZR m2); [assumption|].
      replace (IZR a * (IZR r / IZR m2) * IZR m2) with (IZR a * IZR r) by (field; lra).
      exact H. }
    assert (Hrho' : forall a b : Z, (b * m2 < a * r)%Z -> IZR b < IZR a * (IZR r / IZR m2)).
    { intros a b H. apply IZR_lt in H. rewrite !mult_IZR in H.
      apply Rmult_lt_reg_r with (IZR m2); [assumption|].
      replace (IZR a * (IZR r / IZR m2) * IZR m2) with (IZR a * IZR r) by (field; lra).
      exact H. }
    set (rho := IZR r / IZR m2) in *.
    destruct (new_location m2 r) as [|[| |]]; cbn [inbetween].
    + subst r. unfold rho. replace (0 / IZR m2) with 0 by (field; lra). lra.
    + destruct Hl as [Hl1 Hl2].
      assert (Hhalf : rho = / 2).
      { unfold rho. apply IZR_eq in Hl2. rewrite mult_IZR in Hl2.
        field_simplify_eq; lra. }
      rewrite Hhalf. lra.
    + destruct Hl as [Hl1 Hl2].
      pose proof (Hrho' 1%Z 0%Z ltac:(lia)) as H1.
      pose proof (Hrho 2%Z 1%Z ltac:(lia)) as H2.
      nra.
    + destruct Hl as [Hl1 Hl2].
      pose proof (Hrho' 2%Z 1%Z ltac:(lia)) as H1.
      pose proof (Hrho 1%Z 1%Z ltac:(lia)) as H2.
      nra.
  - (* enough digits *)
    assert (Hdq : (digits m1 - digits m2 + s <= digits q)%Z).
    { destruct (digits_bounds m1 Hm1) as (Hd1 & Hlo1 & _).
      destruct (digits_bounds m2 Hm2) as (Hd2 & _ & Hhi2).
      pose proof (digits_nonneg q) as Hnn.
      destruct (Z_le_gt_dec (digits m1 - digits m2 + s) 0) as [|Hk]; [lia|].
      set (k := (digits m1 - 1 + s - digits m2)%Z).
      assert (Hk0 : (0 <= k)%Z) by (unfold k; lia).
      assert (Hqk : (2 ^ k <= q)%Z).
      { assert (H1 : (2 ^ k * 2 ^ digits m2 <= m1 * 2 ^ s)%Z).
        { rewrite <- Z.pow_add_r by lia.
          replace (k + digits m2)%Z with (digits m1 - 1 + s)%Z by (unfold k; lia).
          rewrite Z.pow_add_r by lia. apply Z.mul_le_mono_nonneg_r; lia. }
        assert (H2k : (0 < 2 ^ k)%Z) by (apply Z.pow_pos_nonneg; lia).
        destruct (Z_le_gt_dec (2 ^ k) q) as [|Hgt]; [assumption|exfalso].
        assert (q + 1 <= 2 ^ k)%Z by lia.
        assert (m2 * q + r < m2 * (q + 1))%Z by lia.
        assert (m2 * (q + 1) <= m2 * 2 ^ k)%Z by (apply Z.mul_le_mono_nonneg_l; lia).
        assert (m2 * 2 ^ k < 2 ^ digits m2 * 2 ^ k)%Z by (apply Z.mul_lt_mono_pos_r; lia).
        lia. }
      assert (Hq0 : (0 < q)%Z).
      { assert (0 < 2 ^ k)%Z by (apply Z.pow_pos_nonneg; lia). lia. }
      destruct (digits_bounds q Hq0) as (_ & _ & Hhiq).
      destruct (Z_le_gt_dec (digits q) k) as [Hle|Hgt]; [|unfold k in *; lia].
      assert (2 ^ digits q <= 2 ^ k)%Z by (apply Z.pow_le_mono_r; lia). lia. }
    unfold e' at 1.
    assert (Hmono : (fexp (digits m1 + e1 - (digits m2 + e2)) <= fexp (digits q + e'))%Z).
    { rewrite !fexp_spec. unfold s in Hdq. lia. }
    lia.
Qed.

(** Division of two finite doubles rounds their quotient. *)
Lemma SFdiv_rounds sa ma ea sc mc ec :
  rounds (SFdiv prec emax (S754_finite sa ma ea) (S754_finite sc mc ec))
    (SFval (S754_finite sa ma ea) / SFval (S754_finite sc mc ec)).
Proof.
  cbn [SFdiv SFval].
  pose proof (SFdiv_core_spec (Z.pos ma) ea (Z.pos mc) ec ltac:(lia) ltac:(lia)) as Hcore.
  destruct (SFdiv_core_binary prec emax (Z.pos ma) ea (Z.pos mc) ec) as [[q e'] l].
  destruct Hcore as (Hq & Hin & Hpre).
  pose proof (F2R_pos (Z.pos ma) ea ltac:(lia)) as Ha.
  pose proof (F2R_pos (Z.pos mc) ec ltac:(lia)) as Hc.
  assert (Hx : 0 < F2R (Z.pos ma) ea / F2R (Z.pos mc) ec).
  { apply Rdiv_lt_0_compat; assumption. }
  destruct (binary_round_aux_nearest (xorb sa sc) q e' l _ Hq Hin Hpre)
    as (m' & e'' & -> & Hg & Hn).
  replace (F2R (cond_Zopp sa (Z.pos ma)) ea / F2R (cond_Zopp sc (Z.pos mc)) ec)
    with (signed (xorb sa sc) (F2R (Z.pos ma) ea / F2R (Z.pos mc) ec)).
  - now apply rounds_of_nearest.
  - rewrite !F2R_cond_Zopp. destruct sa, sc; cbn [signed xorb]; field; lra.
Qed.

(** ** Monotone operations *)

Lemma rank_finite_or_zero a : finite_or_zero a = true -> rank a = SFval a.
Proof. destruct a; try discriminate; reflexivity. Qed.

Lemma rounds_self a : valid a -> finite_or_zero a = true -> rounds a (SFval a).
Proof.
  destruct a as [s|s| |s m e]; try discriminate; intros Hv _.
  - apply rounds_zero.
  - now apply rounds_finite.
Qed.

(** Two finite doubles of the same value are the same double, unless they
    are zeros. *)
Lemma SFval_inj a b :
  valid a -> valid b -> finite_or_zero a = true -> finite_or_zero b = true ->
  SFval a = SFval b -> a = b \/ SFval a = 0.
Proof.
  destruct a as [sa|sa| |sa ma ea]; try discriminate;
    destruct b as [sb|sb| |sb mb eb]; try discriminate;
    intros Ha Hb _ _; cbn [SFval]; intros H;
    [now right|now right|right; exact H|].
  apply valid_finite in Ha as [Hca _]. apply valid_finite in Hb as [Hcb _].
  pose proof (canonical_pos _ _ Hca). pose proof (canonical_pos _ _ Hcb).
  rewrite !F2R_cond_Zopp in H. left.
  destruct sa, sb; cbn [signed] in H; try lra.
  - destruct (canonical_eq _ _ _ _ Hca Hcb ltac:(lra)) as [[= ->] ->]. reflexivity.
  - destruct (canonical_eq _ _ _ _ Hca Hcb ltac:(lra)) as [[= ->] ->]. reflexivity.
Qed.

(** An operation that rounds a monotone function of its argument, and
    keeps the infinities, is monotone. *)
Lemma op_monotone (op : spec_float -> spec_float) (g : R -> R) :
  (forall x y, x <= y -> g x <= g y) ->
  (forall a, valid a -> finite_or_zero a = true -> rounds (op a) (g (SFval a))) ->
  (forall a b, valid a -> valid b ->
     finite_or_zero a = true -> finite_or_zero b = true ->
     g (SFval a) = g (SFval b) -> rank (op a) = rank (op b)) ->
  (forall s, op (S754_infinity s) = S754_infinity s) ->
  forall a b, valid a -> valid b ->
    SFleb a b = true -> SFleb (op a) (op b) = true.
Proof.
  intros Hg Hfin Heq Hinf a b Ha Hb Hle.
  destruct (SFleb_number _ _ Hle) as [Na Nb].
  apply (SFleb_rank _ _ Ha Hb Na Nb) in Hle.
  assert (Hop : forall c, valid c -> is_number c = true ->
                  valid (op c) /\ is_number (op c) = true).
  { intros c Hc Nc. destruct c as [s|s| |s m e]; try discriminate.
    - apply (rounds_valid _ _ (Hfin _ Hc eq_refl)).
    - rewrite Hinf. split; reflexivity.
    - apply (rounds_valid _ _ (Hfin _ Hc eq_refl)). }
  destruct (Hop a Ha Na) as [Va' Na']. destruct (Hop b Hb Nb) as [Vb' Nb'].
  apply (SFleb_rank _ _ Va' Vb' Na' Nb').
  pose proof (rank_bounds _ Va' Na') as Ba. pose proof (rank_bounds _ Vb' Nb') as Bb.
  pose proof (rank_bounds _ Ha Na) as Ba0. pose proof (rank_bounds _ Hb Nb) as Bb0.
  pose proof (pow2_pos 1024) as Hp.
  assert (Hfinlt : forall c, valid c -> finite_or_zero c = true ->
                     - pow2 1024 < rank c < pow2 1024).
  { intros c Hc Fc. destruct c as [s|s| |s m e]; try discriminate; cbn [rank SFval].
    - lra.
    - apply valid_finite in Hc as [Hcc Hce].
      pose proof (canonical_pos _ _ Hcc). pose proof (finite_below_infinity _ _ Hcc Hce).
      rewrite F2R_cond_Zopp. destruct s; cbn [signed]; lra. }
  destruct (finite_or_zero a) eqn:Fa; destruct (finite_or_zero b) eqn:Fb.
  - rewrite (rank_finite_or_zero _ Fa), (rank_finite_or_zero _ Fb) in Hle.
    destruct (Rle_lt_or_eq_dec _ _ (Hg _ _ Hle)) as [Hlt|Hge].
    + apply (rounds_mono _ _ _ _ (Hfin _ Ha Fa) (Hfin _ Hb Fb) Hlt).
    + rewrite (Heq a b Ha Hb Fa Fb Hge). lra.
  - destruct b as [sb|sb| |sb mb eb]; try discriminate.
    pose proof (Hfinlt _ Ha Fa). rewrite Hinf. cbn [rank] in *.
    destruct sb; lra.
  - destruct a as [sa|sa| |sa ma ea]; try discriminate.
    pose proof (Hfinlt _ Hb Fb). rewrite Hinf. cbn [rank] in *.
    destruct sa; lra.
  - destruct a as [sa|sa| |sa ma ea]; try discriminate.
    destruct b as [sb|sb| |sb mb eb]; try discriminate.
    rewrite !Hinf. exact Hle.
Qed.

(** *** Ten *)

Lemma SFval_ten : SFval ten = 10.
Proof.
  cbn [SFval ten cond_Zopp].
  change (Z.pos 5629499534213120) with (10 * 2 ^ 49)%Z.
  rewrite F2R_shift by lia. change (-49 + 49)%Z with 0%Z.
  unfold F2R. rewrite pow2_0. lra.
Qed.

Lemma times_ten_monotone a b :
  valid a -> valid b -> SFleb a b = true ->
  SFleb (SFmul prec emax a ten) (SFmul prec emax b ten) = true.
Proof.
  apply (op_monotone (fun a => SFmul prec emax a ten) (fun x => x * 10)).
  - intros x y H. lra.
  - intros [s|s| |s m e] Hv Hf; try discriminate.
    + cbn [SFmul ten SFval]. rewrite Rmult_0_l. apply rounds_zero.
    + rewrite <- SFval_ten. now apply SFmul_rounds.
  - intros c d Hc Hd Fc Fd H.
    destruct (SFval_inj c d Hc Hd Fc Fd ltac:(lra)) as [->|H0]; [reflexivity|].
    assert (H0' : SFval d = 0) by lra.
    destruct c as [sc|sc| |sc mc ec]; try discriminate;
      destruct d as [sd|sd| |sd md ed]; try discriminate;
      try reflexivity; exfalso.
    + apply valid_finite in Hd as [Hcd _]. pose proof (canonical_pos _ _ Hcd).
      cbn [SFval] in H0'. rewrite F2R_cond_Zopp in H0'. destruct sd; cbn [signed] in H0'; lra.
    + apply valid_finite in Hc as [Hcc _]. pose proof (canonical_pos _ _ Hcc).
      cbn [SFval] in H0. rewrite F2R_cond_Zopp in H0. destruct sc; cbn [signed] in H0; lra.
    + apply valid_finite in Hc as [Hcc _]. pose proof (canonical_pos _ _ Hcc).
      cbn [SFval] in H0. rewrite F2R_cond_Zopp in H0. destruct sc; cbn [signed] in H0; lra.
  - intros s. cbn [SFmul ten]. now destruct s.
Qed.

Lemma over_ten_monotone a b :
  valid a -> valid b -> SFleb a b = true ->
  SFleb (SFdiv prec emax a ten) (SFdiv prec emax b ten) = true.
Proof.
  apply (op_monotone (fun a => SFdiv prec emax a ten) (fun x => x / 10)).
  - intros x y H. lra.
  - intros [s|s| |s m e] Hv Hf; try discriminate.
    + cbn [SFdiv ten SFval]. replace (0 / 10) with 0 by lra. apply rounds_zero.
    + rewrite <- SFval_ten. apply SFdiv_rounds.
  - intros c d Hc Hd Fc Fd H.
    destruct (SFval_inj c d Hc Hd Fc Fd ltac:(lra)) as [->|H0]; [reflexivity|].
    assert (H0' : SFval d = 0) by lra.
    destruct c as [sc|sc| |sc mc ec]; try discriminate;
      destruct d as [sd|sd| |sd md ed]; try discriminate;
      try reflexivity; exfalso.
    + apply valid_finite in Hd as [Hcd _]. pose proof (canonical_pos _ _ Hcd).
      cbn [SFval] in H0'. rewrite F2R_cond_Zopp in H0'. destruct sd; cbn [signed] in H0'; lra.
    + apply valid_finite in Hc as [Hcc _]. pose proof (canonical_pos _ _ Hcc).
      cbn [SFval] in H0. rewrite F2R_cond_Zopp in H0. destruct sc; cbn [signed] in H0; lra.
    + apply valid_finite in Hc as [Hcc _]. pose proof (canonical_pos _ _ Hcc).
      cbn [SFval] in H0. rewrite F2R_cond_Zopp in H0. destruct sc; cbn [signed] in H0; lra.
  - intros s. cbn [SFdiv ten]. now destruct s.
Qed.

(** *** Adding a positive number *)

Lemma add_positive_le a c :
  valid a -> valid c ->
  SFltb (S754_zero false) c = true ->
  is_number (SFadd prec emax a c) = true ->
  SFleb a (SFadd prec emax a c) = true.
Proof.
  intros Ha Hc Hpos Hnum.
  destruct c as [sc|sc| |sc mc ec]; [destruct sc| destruct sc| |destruct sc];
    try (exfalso; cbv in Hpos; discriminate Hpos).
  - (* c is +infinity *)
    destruct a as [sa|[|]| |sa ma ea]; try (exfalso; cbv in Hnum; discriminate Hnum);
      reflexivity.
  - (* c is finite and positive *)
    pose proof Hc as Hc'. apply valid_finite in Hc' as [Hcc Hce].
    pose proof (canonical_pos _ _ Hcc) as Hcpos.
    destruct a as [sa|sa| |sa ma ea].
    + cbn [SFadd]. apply (SFleb_rank _ _ Ha Hc eq_refl eq_refl).
      cbn [rank SFval cond_Zopp]. lra.
    + cbn [SFadd]. apply (SFleb_rank _ _ Ha Ha eq_refl eq_refl). lra.
    + exfalso. cbv in Hnum. discriminate Hnum.
    + pose proof (SFadd_rounds sa ma ea false mc ec) as Hr.
      destruct (rounds_valid _ _ Hr) as [Vr Nr].
      apply (SFleb_rank _ _ Ha Vr eq_refl Nr).
      rewrite (rank_finite_or_zero (S754_finite sa ma ea) eq_refl).
      apply (rounds_mono _ _ _ _ (rounds_finite _ _ _ Ha) Hr).
      cbn [SFval cond_Zopp] in *. lra.
Qed.

(** *** Math.round *)

Lemma rounds_opp r x : rounds r x -> rounds (SFopp r) (- x).
Proof.
  intros (s & m & e & -> & Hg & Hn & Hpos & Hneg).
  exists (negb s), m, e. split; [apply SFopp_encode|]. split; [exact Hg|].
  rewrite Rabs_Ropp. split; [exact Hn|]. split; intros H.
  - rewrite Hneg by lra. reflexivity.
  - rewrite Hpos by lra. reflexivity.
Qed.

(** The integers below [2^53] are values of the format. *)
Lemma float_value_integer k :
  (0 <= k < 2 ^ 53)%Z -> float_value (IZR k).
Proof.
  intros [Hk0 Hk]. destruct (Z.eq_dec k 0%Z) as [->|Hne]; [now left|].
  assert (Hpos : (0 < k)%Z) by lia.
  destruct (digits_bounds k Hpos) as (Hd & Hlo & Hhi).
  assert (Hd53 : (digits k <= 53)%Z).
  { destruct (Z_le_gt_dec (digits k) 53) as [|Hgt]; [assumption|exfalso].
    assert (2 ^ 53 <= 2 ^ (digits k - 1))%Z by (apply Z.pow_le_mono_r; lia). lia. }
  right. exists (k * 2 ^ (53 - digits k))%Z, (digits k - 53)%Z. split.
  - split.
    + apply Z.mul_pos_pos; [lia|]. apply Z.pow_pos_nonneg; lia.
    + rewrite digits_mul_pow2 by lia. rewrite fexp_spec. lia.
  - rewrite F2R_shift by lia.
    replace (digits k - 53 + (53 - digits k))%Z with 0%Z by lia.
    unfold F2R. rewrite pow2_0. ring.
Qed.

Lemma round_quotient_bound (s : bool) (m : positive) (e : Z) :
  (Z.pos m < 2 ^ 53)%Z -> (e < 0)%Z ->
  (- 2 ^ 52
   <= ((if s then Z.neg m else Z.pos m) * 2 + 2 ^ (- e)) / 2 ^ (1 - e)
   <= 2 ^ 52)%Z.
Proof.
  intros Hm He.
  set (P := (2 ^ (- e))%Z).
  assert (HP : (2 <= P)%Z).
  { unfold P. change 2%Z with (2 ^ 1)%Z at 1. apply Z.pow_le_mono_r; lia. }
  assert (HK : (2 ^ (1 - e) = 2 * P)%Z).
  { unfold P. replace (1 - e)%Z with (Z.succ (- e)) by lia.
    rewrite Z.pow_succ_r by lia. reflexivity. }
  rewrite HK.
  pose proof (Z_div_mod ((if s then Z.neg m else Z.pos m) * 2 + P) (2 * P) ltac:(lia)) as Hdm.
  unfold Z.div. destruct (Z.div_eucl _ (2 * P)) as [q r]. cbn [fst].
  destruct Hdm as [Hq Hr].
  assert (- 2 ^ 53 < (if s then Z.neg m else Z.pos m) < 2 ^ 53)%Z by (destruct s; lia).
  nia.
Qed.

Lemma SFround_rounds a :
  valid a -> finite_or_zero a = true ->
  exists n : Z,
    rounds (SFround a) (IZR n)
    /\ IZR n <= SFval a + / 2 < IZR n + 1
    /\ float_value (Rabs (IZR n))
    /\ Rabs (IZR n) < pow2 1024.
Proof.
  destruct a as [s|s| |s m e]; try discriminate; intros Hv _.
  - exists 0%Z. cbn [SFround SFval]. split; [apply rounds_zero|].
    split; [lra|]. rewrite Rabs_R0. split; [now left|apply pow2_pos].
  - pose proof Hv as Hv'. apply valid_finite in Hv' as [Hc He].
    pose proof (canonical_facts _ _ Hc) as (_ & Hemin & _ & _ & Hm53 & _).
    cbn [SFround]. destruct (Z.leb_spec 0 e) as [He0|He0].
    + (* an integer already *)
      exists (cond_Zopp s (Z.pos m) * 2 ^ e)%Z.
      assert (Hval : IZR (cond_Zopp s (Z.pos m) * 2 ^ e) = SFval (S754_finite s m e)).
      { cbn [SFval]. unfold F2R. now rewrite mult_IZR, pow2_IZR. }
      rewrite Hval. split; [now apply rounds_finite|]. split; [lra|].
      cbn [SFval]. rewrite F2R_cond_Zopp.
      pose proof (canonical_pos _ _ Hc).
      replace (Rabs (signed s (F2R (Z.pos m) e))) with (F2R (Z.pos m) e).
      * split; [right; now exists (Z.pos m), e|].
        now apply finite_below_infinity.
      * destruct s; cbn [signed]; [rewrite Rabs_left by lra|rewrite Rabs_right by lra]; lra.
    + (* a fraction to round *)
      cbv zeta.
      set (P := (2 ^ (- e))%Z).
      assert (HP : (2 <= P)%Z).
      { unfold P. change 2%Z with (2 ^ 1)%Z at 1. apply Z.pow_le_mono_r; lia. }
      assert (HK : (2 ^ (1 - e) = 2 * P)%Z).
      { unfold P. replace (1 - e)%Z with (Z.succ (- e)) by lia.
        rewrite Z.pow_succ_r by lia. reflexivity. }
      rewrite HK.
      set (num := ((if s then Z.neg m else Z.pos m) * 2 + P)%Z).
      set (n := (num / (2 * P))%Z).
      assert (Hnum : (num = cond_Zopp s (Z.pos m) * 2 + P)%Z) by (destruct s; reflexivity).
      pose proof (Z_div_mod num (2 * P) ltac:(lia)) as Hdm.
      unfold Z.div in n. destruct (Z.div_eucl num (2 * P)) as [q r] eqn:Ediv.
      cbn [fst] in n. subst n. destruct Hdm as [Hq Hr].
      assert (Hbound : (- 2 ^ 52 <= q <= 2 ^ 52)%Z).
      { assert (- 2 ^ 53 < cond_Zopp s (Z.pos m) < 2 ^ 53)%Z by (destruct s; cbn; lia).
        nia. }
      (* the value *)
      assert (HPpos : 0 < IZR P) by (apply IZR_lt; lia).
      assert (HPR : pow2 e = / IZR P).
      { assert (H1 : pow2 e * IZR P = 1).
        { unfold P. rewrite <- pow2_IZR by lia. rewrite <- pow2_add.
          replace (e + - e)%Z with 0%Z by lia. apply pow2_0. }
        apply Rmult_eq_reg_r with (IZR P); [|lra].
        rewrite H1. field. lra. }
      assert (Hfloor : IZR q <= SFval (S754_finite s m e) + / 2 < IZR q + 1).
      { cbn [SFval]. unfold F2R. rewrite HPR.
        assert (Hnr : IZR num = IZR (cond_Zopp s (Z.pos m)) * 2 + IZR P)
          by (rewrite Hnum, plus_IZR, mult_IZR; reflexivity).
        assert (Hqr : IZR num = 2 * IZR P * IZR q + IZR r)
          by (rewrite Hq, plus_IZR, !mult_IZR; reflexivity).
        assert (0 <= IZR r < 2 * IZR P).
        { split; [apply IZR_le; lia|].
          replace (2 * IZR P) with (IZR (2 * P)) by (rewrite mult_IZR; reflexivity).
          apply IZR_lt. lia. }
        assert (Hx : IZR (cond_Zopp s (Z.pos m)) * / IZR P + / 2
                     = IZR q + IZR r / (2 * IZR P)).
        { field_simplify_eq; [|lra]. lra. }
        rewrite Hx.
        assert (0 <= IZR r / (2 * IZR P) < 1).
        { split.
          - apply Rmult_le_pos; [lra|]. apply Rlt_le, Rinv_0_lt_compat. lra.
          - apply Rmult_lt_reg_r with (2 * IZR P); [lra|].
            replace (IZR r / (2 * IZR P) * (2 * IZR P)) with (IZR r) by (field; lra).
            lra. }
        lra. }
      exists q. split; [|split; [exact Hfloor|]].
      * pose proof (binary_normalize_rounds (Z.abs q) 0 false) as Hr0.
        replace (F2R (Z.abs q) 0) with (IZR (Z.abs q)) in Hr0
          by (unfold F2R; rewrite pow2_0; ring).
        destruct (Z.ltb_spec q 0) as [Hneg|Hnn]; cbn [orb].
        -- replace (IZR (Z.abs q)) with (- IZR q) in Hr0
             by (rewrite Z.abs_neq, opp_IZR by lia; reflexivity).
           apply rounds_opp in Hr0. now rewrite Ropp_involutive in Hr0.
        -- destruct (Z.eqb_spec q 0) as [->|Hne]; cbn [andb].
           ++ cbn [Z.abs binary_normalize]. destruct s; cbn [SFopp]; apply rounds_zero.
           ++ replace (IZR (Z.abs q)) with (IZR q) in Hr0
                by (rewrite Z.abs_eq by lia; reflexivity).
              exact Hr0.
      * rewrite <- abs_IZR. split; [apply float_value_integer; lia|].
        apply Rle_lt_trans with (pow2 52); [|apply pow2_lt; lia].
        rewrite pow2_IZR by lia. apply IZR_le. lia.
Qed.

Lemma SFround_monotone a b :
  valid a -> valid b -> SFleb a b = true ->
  SFleb (SFround a) (SFround b) = true.
Proof.
  apply (op_monotone SFround round_half_up).
  - intros x y H. unfold round_half_up. apply IZR_le, Zfloor_le. lra.
  - intros c Hc Fc. destruct (SFround_rounds c Hc Fc) as (n & Hr & Hfl & _).
    unfold round_half_up. now rewrite (Zfloor_eq n _ Hfl).
  - intros c d Hc Hd Fc Fd H.
    destruct (SFround_rounds c Hc Fc) as (n & Hr & Hfl & Hfv & _).
    destruct (SFround_rounds d Hd Fd) as (n' & Hr' & Hfl' & _).
    unfold round_half_up in H.
    rewrite (Zfloor_eq n _ Hfl), (Zfloor_eq n' _ Hfl') in H.
    rewrite <- H in Hr'. now apply (rounds_unique _ _ _ Hr Hr').
  - reflexivity.
Qed.

(** The value of [SFround]: the integer [floor (v + 1/2)], exactly. *)
Lemma SFround_floor a :
  valid a -> finite_or_zero a = true ->
  rank (SFround a) = round_half_up (SFval a).
Proof.
  intros Hv Hf. destruct (SFround_rounds a Hv Hf) as (n & Hr & Hfl & Hfv & Hlt).
  unfold round_half_up. rewrite (Zfloor_eq n _ Hfl).
  destruct Hr as (s & m & e & -> & Hg & Hn & Hpos & Hneg).
  rewrite (rank_encode _ _ _ Hg), (nearest_exact _ _ Hn Hfv).
  unfold clamp. rewrite Rmin_left by lra.
  destruct (Rtotal_order (IZR n) 0) as [H|[H|H]].
  - rewrite (Hneg H). cbn [signed]. rewrite Rabs_left by lra. lra.
  - rewrite H, Rabs_R0. destruct s; cbn [signed]; lra.
  - rewrite (Hpos H). cbn [signed]. rewrite Rabs_right by lra. reflexivity.
Qed.

End Binary64Facts.

(** ** The same, on the doubles of the kernel *)

Lemma Prim2SF_valid' (x : float) : Binary64.valid (Prim2SF x).
Proof. apply Prim2SF_valid. Qed.

Lemma Prim2SF_ten : Prim2SF 10 = Binary64.ten.
Proof. reflexivity. Qed.

Lemma Prim2SF_Math_round (x : float) :
  Prim2SF (Math_round x) = Binary64.SFround (Prim2SF x).
Proof.
  unfold Math_round. pose proof (Prim2SF_valid' x) as Hv.
  destruct (Prim2SF x) as [s|s| |s m e] eqn:E; try exact E.
  cbn [Binary64.SFround]. destruct (0 <=? e)%Z eqn:He; [exact E|].
  apply Z.leb_gt in He. cbv zeta.
  apply Binary64Facts.valid_finite in Hv as [Hc _].
  pose proof (Binary64Facts.canonical_facts _ _ Hc) as (_ & _ & _ & _ & Hm53 & _).
  pose proof (Binary64Facts.round_quotient_bound s m e Hm53 He) as Hb.
  set (n := (((if s then Z.neg m else Z.pos m) * 2 + 2 ^ (- e)) / 2 ^ (1 - e))%Z) in *.
  assert (Hr : Prim2SF (of_uint63 (Uint63.of_Z (Z.abs n)))
               = binary_normalize prec emax (Z.abs n) 0 false).
  { rewrite of_uint63_spec, Uint63.of_Z_spec. f_equal.
    apply Z.mod_small. change Uint63.wB with (2 ^ 63)%Z. lia. }
  destruct ((n <? 0)%Z || ((n =? 0)%Z && s)).
  - now rewrite FloatAxioms.opp_spec, Hr.
  - exact Hr.
Qed.

Lemma leb_true_valid (a b : float) :
  (a <=? b)%float = true -> SFleb (Prim2SF a) (Prim2SF b) = true.
Proof. now rewrite leb_spec. Qed.

Lemma leb_times_10 (a b : float) :
  (a <=? b)%float = true -> (a * 10 <=? b * 10)%float = true.
Proof.
  rewrite !leb_spec, !mul_spec, Prim2SF_ten.
  apply Binary64Facts.times_ten_monotone; apply Prim2SF_valid'.
Qed.

Lemma leb_over_10 (a b : float) :
  (a <=? b)%float = true -> (a / 10 <=? b / 10)%float = true.
Proof.
  rewrite !leb_spec, !div_spec, Prim2SF_ten.
  apply Binary64Facts.over_ten_monotone; apply Prim2SF_valid'.
Qed.

Lemma leb_Math_round (a b : float) :
  (a <=? b)%float = true -> (Math_round a <=? Math_round b)%float = true.
Proof.
  rewrite !leb_spec, !Prim2SF_Math_round.
  apply Binary64Facts.SFround_monotone; apply Prim2SF_valid'.
Qed.

(** [Math_round] returns the integer [floor (x + 1/2)]: the nearest one,
    a half going up. *)
Lemma Math_round_floor (x : float) :
  Binary64.finite_or_zero (Prim2SF x) = true ->
  Binary64.rank (Prim2SF (Math_round x))
  = IZR (Zfloor (Binary64.SFval (Prim2SF x) + / 2)).
Proof.
  intros Hf. rewrite Prim2SF_Math_round.
  apply Binary64Facts.SFround_floor; [apply Prim2SF_valid'|assumption].
Qed.

Lemma is_nan_false (x : float) :
  is_nan x = false -> Binary64.is_number (Prim2SF x) = true.
Proof.
  unfold is_nan. rewrite FloatAxioms.eqb_spec.
  destruct (Prim2SF x); try reflexivity. discriminate.
Qed.

(** Adding a positive number does not decrease, unless the sum is NaN. *)
Lemma leb_add_positive (a c : float) :
  (0 <? c)%float = true -> is_nan (a + c) = false ->
  (a <=? a + c)%float = true.
Proof.
  intros Hc Hn. apply is_nan_false in Hn.
  rewrite ltb_spec in Hc. rewrite leb_spec. rewrite add_spec in *.
  apply Binary64Facts.add_positive_le; try apply Prim2SF_valid'; assumption.
Qed.

(** Rounding to one decimal place is monotone. *)
Lemma round_1_decimal_monotone (a b : Number) :
  (a <=? b) = true -> (round_1_decimal a <=? round_1_decimal b) = true.
Proof.
  intros H. unfold round_1_decimal.
  now apply leb_over_10, leb_Math_round, leb_times_10.
Qed.

(** *** When a sum is NaN *)

Lemma is_number_not_nan (x : float) :
  Binary64.is_number (Prim2SF x) = true -> is_nan x = false.
Proof.
  intros H. unfold is_nan. rewrite FloatAxioms.eqb_spec. unfold SFeqb.
  destruct (Binary64Facts.SFcompare_rank _ _ (Prim2SF_valid' x) (Prim2SF_valid' x) H H)
    as (c & -> & Hc).
  destruct c; cbn in Hc; try reflexivity; exfalso; lra.
Qed.

Lemma is_nan_true (x : float) : is_nan x = true <-> Prim2SF x = S754_nan.
Proof.
  split.
  - intros H. destruct (Prim2SF x) eqn:E; try reflexivity;
      rewrite is_number_not_nan in H by (now rewrite E); discriminate H.
  - intros E. unfold is_nan. now rewrite FloatAxioms.eqb_spec, E.
Qed.

Lemma Prim2SF_inj (x y : float) : Prim2SF x = Prim2SF y -> x = y.
Proof.
  intros H. rewrite <- (SF2Prim_Prim2SF x), <- (SF2Prim_Prim2SF y). now rewrite H.
Qed.

(** Adding a positive double gives NaN only to NaN and, when it is
    [+infinity], to [-infinity]. *)
Lemma SFadd_nan (a c : spec_float) :
  Binary64.valid a -> Binary64.valid c ->
  SFltb (S754_zero false) c = true ->
  SFadd prec emax a c = S754_nan
  <-> a = S754_nan \/ (a = S754_infinity true /\ c = S754_infinity false).
Proof.
  intros Ha Hc Pc.
  destruct c as [sc|[|]| |[|] mc ec]; try (exfalso; cbv in Pc; discriminate Pc).
  - destruct a as [sa|[|]| |sa ma ea]; cbn; split; intros H;
      try discriminate H; try reflexivity; auto;
      destruct H as [H|[H _]]; discriminate H.
  - destruct a as [sa|[|]| |sa ma ea];
      try (cbn; split; intros H; try discriminate H; try reflexivity; auto;
           destruct H as [H|[H H']]; discriminate).
    pose proof (Binary64Facts.SFadd_rounds sa ma ea false mc ec) as Hr.
    destruct (Binary64Facts.rounds_valid _ _ Hr) as [_ Nr].
    split; intros H.
    + rewrite H in Nr. discriminate Nr.
    + destruct H as [H|[H _]]; discriminate H.
Qed.

Lemma add_nan_iff (h c : float) :
  (0 <? c) = true ->
  (is_nan (h + c) = true <-> is_nan h = true \/ (h = neg_infinity /\ c = infinity)).
Proof.
  intros Hc. rewrite ltb_spec in Hc. change (Prim2SF 0) with (S754_zero false) in Hc.
  rewrite !is_nan_true, add_spec.
  rewrite (SFadd_nan _ _ (Prim2SF_valid' h) (Prim2SF_valid' c) Hc).
  split; intros [H|[H H']]; auto; right.
  - split; apply Prim2SF_inj; assumption.
  - now rewrite H, H'.
Qed.

(** *** The sum of the hours *)

(** C8 as stated fails: the sum of [long_etch] is 1e16 hours, the step
    [plain_etch] contributes one hour, and the sum of both is 1e16 hours
    again, since the doubles next to 1e16 are two apart. *)
Lemma totalHours_absorbs_one_hour :
  totalHours [long_etch] = Hours 1e16
  /\ contribution plain_etch = 1
  /\ (0 <? contribution plain_etch) = true
  /\ totalHours ([long_etch] ++ [plain_etch]) = Hours 1e16
  /\ (1e16 <? 1e16) = false.
Proof. repeat split; vm_compute; reflexivity. Qed.

(** C8, amended: for steps whose sum is a number [h], appending a step
    whose hours are added as a number (a [duration_min] that counts, or an
    operation that is not an inherited name) and whose contribution [c] is
    positive makes the sum [h + c]. That sum is NaN exactly when [h] is
    NaN, or [h] is [-infinity] and [c] is [+infinity]. When it is not NaN
    it is not below [h] (it may equal [h], when the addition absorbs
    [c]), and the rounded [estimated_duration_hours] does not decrease. *)
Theorem totalHours_never_decreases
    (steps : list Step.t) (step : Step.t) (h : Number) :
  totalHours steps = Hours h ->
  adds_hours step = true ->
  (0 <? contribution step) = true ->
  totalHours (steps ++ [step]) = Hours (h + contribution step)
  /\ (is_nan (h + contribution step) = true
      <-> is_nan h = true \/ (h = neg_infinity /\ contribution step = infinity))
  /\ (is_nan (h + contribution step) = false ->
      (h <=? h + contribution step) = true
      /\ (calculateDuration steps <=? calculateDuration (steps ++ [step])) = true).
Proof.
  intros Hsum Hadds Hpos.
  assert (Hnew : totalHours (steps ++ [step]) = Hours (h + contribution step)).
  { unfold totalHours in *. rewrite fold_left_app, Hsum. cbn [fold_left].
    now apply addDuration_contribution. }
  split; [exact Hnew|]. split; [now apply add_nan_iff|].
  intros Hnan.
  pose proof (leb_add_positive h (contribution step) Hpos Hnan) as Hle.
  split; [exact Hle|].
  unfold calculateDuration. rewrite Hnew, Hsum.
  now apply round_1_decimal_monotone.
Qed.

Lemma totalHours_never_decreases_demo :
  totalHours (Recipe.steps demo_recipe ++ [plain_etch])
  = Hours (3.5 + contribution plain_etch)
  /\ (is_nan (3.5 + contribution plain_etch) = true
      <-> is_nan 3.5 = true
          \/ (3.5 = neg_infinity /\ contribution plain_etch = infinity))
  /\ (is_nan (3.5 + contribution plain_etch) = false ->
      (3.5 <=? 3.5 + contribution plain_etch) = true
      /\ (calculateDuration (Recipe.steps demo_recipe)
          <=? calculateDuration (Recipe.steps demo_recipe ++ [plain_etch])) = true).
Proof.
  apply (totalHours_never_decreases (Recipe.steps demo_recipe) plain_etch 3.5);
    reflexivity.
Defined.

(** * More of the planner, the parser and the command line *)

(** ** generateFlow: the three outcomes and the header of the flow *)

(** X1: what [generateFlow] does with a process type, whatever the layout.
    A key of the table gives a flow whose steps are the mapped steps of
    the recipe; a name that is no key and that no object inherits gives
    the error "Unknown process type: ..."; a name that is no key but is
    inherited from [Object.prototype] gives a [TypeError]. The call
    throws exactly when the process type is no key of the table. *)
Theorem generateFlow_outcome (recipes : gmap string Recipe.t)
    (layout : Layout.t) (processType : string) :
  (forall recipe, recipes !! processType = Some recipe ->
     exists flow,
       generateFlow recipes layout processType = Return flow
       /\ ProcessFlow.steps flow = mapLayersToSteps layout recipe)
  /\ (recipes !! processType = None -> inherited processType = false ->
      generateFlow recipes layout processType
      = Throw (Error ("Unknown process type: " +:+ processType)))
  /\ (recipes !! processType = None -> inherited processType = true ->
      generateFlow recipes layout processType
      = Throw (TypeError "Cannot read properties of undefined (reading 'forEach')"))
  /\ ((exists e, generateFlow recipes layout processType = Throw e)
      <-> recipes !! processType = None).
Proof.
  split; [|split; [|split]].
  - intros recipe H. now apply generateFlow_known.
  - intros H Hk. now apply generateFlow_unknown.
  - intros H Hk. now apply generateFlow_inherited.
  - unfold generateFlow, get. destruct (recipes !! processType) as [recipe|].
    + split; [intros [e He]; discriminate|discriminate].
    + split; [reflexivity|]. intros _. destruct (inherited processType); eauto.
Qed.

Lemma or_default_spec (x : option string) (d : string) :
  d <> ""%string ->
  or_default x d <> ""%string
  /\ (forall s, x = Some s -> s <> ""%string -> or_default x d = s)
  /\ (x = None \/ x = Some ""%string -> or_default x d = d).
Proof.
  intros Hd. destruct x as [s|]; unfold or_default.
  - destruct (truthy_string s) eqn:E.
    + apply truthy_string_true in E. split; [assumption|]. split.
      * now intros s' [= ->].
      * intros [?|[= ->]]; [discriminate|congruence].
    + split; [assumption|]. split.
      * intros s' [= ->] Hs. apply truthy_string_true in Hs. congruence.
      * reflexivity.
  - split; [assumption|]. split; [discriminate|reflexivity].
Qed.

(** X2: the header of the flow of a known process type. The name is the
    recipe's, the process type the one asked for, the layout file and the
    number of layers those of the layout. The technology node and the
    application are never empty: a recipe that has none, or an empty one,
    gets "N/A" and "General". *)
Theorem generateFlow_header (recipes : gmap string Recipe.t)
    (layout : Layout.t) (processType : string) (recipe : Recipe.t) :
  recipes !! processType = Some recipe ->
  exists flow,
    generateFlow recipes layout processType = Return flow
    /\ ProcessFlow.name flow = Recipe.name recipe
    /\ ProcessFlow.process_type flow = processType
    /\ ProcessFlow.layout_file flow = Layout.filename layout
    /\ ProcessFlow.layers_used flow = length (Layout.layers layout)
    /\ ProcessFlow.technology_node flow <> ""%string
    /\ ProcessFlow.application flow <> ""%string
    /\ (forall s, Recipe.technology_node recipe = Some s -> s <> ""%string ->
        ProcessFlow.technology_node flow = s)
    /\ (Recipe.technology_node recipe = None
        \/ Recipe.technology_node recipe = Some ""%string ->
        ProcessFlow.technology_node flow = "N/A"%string)
    /\ (forall s, Recipe.application recipe = Some s -> s <> ""%string ->
        ProcessFlow.application flow = s)
    /\ (Recipe.application recipe = None
        \/ Recipe.application recipe = Some ""%string ->
        ProcessFlow.application flow = "General"%string).
Proof.
  intros H. unfold generateFlow. rewrite (get_own _ _ _ H).
  eexists. split; [reflexivity|]. cbn.
  destruct (or_default_spec (Recipe.technology_node recipe) "N/A" ltac:(discriminate))
    as (? & ? & ?).
  destruct (or_default_spec (Recipe.application recipe) "General" ltac:(discriminate))
    as (? & ? & ?).
  repeat split; assumption.
Qed.

Lemma generateFlow_header_demo :
  exists flow,
    generateFlow demo_recipes (mockLayout "chip.gds") "cmos_standard" = Return flow
    /\ ProcessFlow.name flow = Recipe.name demo_recipe
    /\ ProcessFlow.process_type flow = "cmos_standard"%string
    /\ ProcessFlow.layout_file flow = Layout.filename (mockLayout "chip.gds")
    /\ ProcessFlow.layers_used flow = length (Layout.layers (mockLayout "chip.gds"))
    /\ ProcessFlow.technology_node flow <> ""%string
    /\ ProcessFlow.application flow <> ""%string
    /\ (forall s, Recipe.technology_node demo_recipe = Some s -> s <> ""%string ->
        ProcessFlow.technology_node flow = s)
    /\ (Recipe.technology_node demo_recipe = None
        \/ Recipe.technology_node demo_recipe = Some ""%string ->
        ProcessFlow.technology_node flow = "N/A"%string)
    /\ (forall s, Recipe.application demo_recipe = Some s -> s <> ""%string ->
        ProcessFlow.application flow = s)
    /\ (Recipe.application demo_recipe = None
        \/ Recipe.application demo_recipe = Some ""%string ->
        ProcessFlow.application flow = "General"%string).
Proof.
  apply (generateFlow_header demo_recipes (mockLayout "chip.gds") "cmos_standard"
           demo_recipe).
  reflexivity.
Defined.

(** ** mapLayersToSteps: statuses, warnings and a second pass *)

Lemma mockLayout_no_proto path l :
  l ∈ Layout.layers (mockLayout path) -> Layer.name l <> "__proto__"%string.
Proof.
  intros H. cbn [mockLayout Layout.layers] in H.
  repeat (apply elem_of_cons in H as [->|H]; [discriminate|]).
  now apply not_elem_of_nil in H.
Qed.

Lemma mockLayout_no_VIA2 path : ~ in_layout (Layout.layers (mockLayout path)) "VIA2".
Proof.
  intros (l & H & Hn). cbn [mockLayout Layout.layers] in H.
  repeat (apply elem_of_cons in H as [->|H]; [discriminate|]).
  now apply not_elem_of_nil in H.
Qed.

Lemma demo_recipe_layers template name :
  template ∈ Recipe.steps demo_recipe ->
  Step.layer template = Some name -> inherited name = false.
Proof.
  intros H. cbn [demo_recipe Recipe.steps] in H.
  repeat (apply elem_of_cons in H as [->|H];
          [intros Hl; try discriminate Hl; injection Hl as <-; reflexivity|]).
  now apply not_elem_of_nil in H.
Qed.

(** X3: the statuses of the steps of [mapLayersToSteps], step by step in
    the order of the recipe, on a layout with no layer called [__proto__]
    and a recipe whose steps name no layer after a property of
    [Object.prototype]. A step is matched exactly when it names a layer of
    the layout, and then carries the number and the feature count of the
    last layer of that name; it misses its layer exactly when it names a
    layer the layout lacks, and then carries the warning "Layer ... not
    found in layout" and nothing else new; it is layer independent exactly
    when it names no layer (an empty name is no name). *)
Theorem mapLayersToSteps_statuses (layout : Layout.t) (recipe : Recipe.t) :
  (forall l, l ∈ Layout.layers layout -> Layer.name l <> "__proto__"%string) ->
  (forall template name, template ∈ Recipe.steps recipe ->
     Step.layer template = Some name -> inherited name = false) ->
  Forall2
    (fun template mapped =>
       (Step.status mapped = Some "matched"%string
        <-> exists name, names_layer template name
                         /\ in_layout (Layout.layers layout) name)
       /\ (Step.status mapped = Some "layer_missing"%string
           <-> exists name, names_layer template name
                            /\ ~ in_layout (Layout.layers layout) name)
       /\ (Step.status mapped = Some "layer_independent"%string
           <-> ~ exists name, names_layer template name)
       /\ (forall name, names_layer template name ->
           in_layout (Layout.layers layout) name ->
           exists l, last_named name (Layout.layers layout) = Some l
             /\ Step.layout_layer mapped = Some (Layer.number l)
             /\ Step.feature_count mapped = Some (Layer.feature_count l)
             /\ Step.warning mapped = Step.warning template)
       /\ (forall name, names_layer template name ->
           ~ in_layout (Layout.layers layout) name ->
           Step.warning mapped = Some ("Layer " +:+ name +:+ " not found in layout")
           /\ Step.layout_layer mapped = Step.layout_layer template
           /\ Step.feature_count mapped = Step.feature_count template))
    (Recipe.steps recipe) (mapLayersToSteps layout recipe).
Proof.
  intros Hproto Hinh. unfold mapLayersToSteps.
  apply Forall2_fmap_r, Forall_Forall2_diag, Forall_forall.
  intros template Hin.
  apply (mapStep_status (Layout.layers layout) template Hproto).
  intros name. now apply Hinh.
Qed.

Lemma mapLayersToSteps_statuses_demo :
  Forall2
    (fun template mapped =>
       (Step.status mapped = Some "matched"%string
        <-> exists name, names_layer template name
                         /\ in_layout (Layout.layers (mockLayout "chip.gds")) name)
       /\ (Step.status mapped = Some "layer_missing"%string
           <-> exists name, names_layer template name
                            /\ ~ in_layout (Layout.layers (mockLayout "chip.gds")) name)
       /\ (Step.status mapped = Some "layer_independent"%string
           <-> ~ exists name, names_layer template name)
       /\ (forall name, names_layer template name ->
           in_layout (Layout.layers (mockLayout "chip.gds")) name ->
           exists l, last_named name (Layout.layers (mockLayout "chip.gds")) = Some l
             /\ Step.layout_layer mapped = Some (Layer.number l)
             /\ Step.feature_count mapped = Some (Layer.feature_count l)
             /\ Step.warning mapped = Step.warning template)
       /\ (forall name, names_layer template name ->
           ~ in_layout (Layout.layers (mockLayout "chip.gds")) name ->
           Step.warning mapped = Some ("Layer " +:+ name +:+ " not found in layout")
           /\ Step.layout_layer mapped = Step.layout_layer template
           /\ Step.feature_count mapped = Step.feature_count template))
    (Recipe.steps demo_recipe) (mapLayersToSteps (mockLayout "chip.gds") demo_recipe).
Proof.
  apply (mapLayersToSteps_statuses (mockLayout "chip.gds") demo_recipe).
  - apply mockLayout_no_proto.
  - apply demo_recipe_layers.
Defined.

(** X4: what holds of every mapped step, on every layout and recipe, the
    inherited names included. Its status is one of matched, layer_missing
    and layer_independent; it is layer_independent exactly when the step
    has no layer or an empty one; a step that misses its layer gets the
    warning that names it and keeps its [layout_layer] and
    [feature_count]; any other step keeps the warning it had. *)
Theorem mapLayersToSteps_status_and_warning (layout : Layout.t) (recipe : Recipe.t) :
  Forall2
    (fun template mapped =>
       (Step.status mapped = Some "matched"%string
        \/ Step.status mapped = Some "layer_missing"%string
        \/ Step.status mapped = Some "layer_independent"%string)
       /\ (Step.status mapped = Some "layer_independent"%string
           <-> truthy_opt truthy_string (Step.layer template) = false)
       /\ (Step.status mapped = Some "layer_missing"%string ->
           exists name,
             Step.layer template = Some name
             /\ Step.warning mapped = Some ("Layer " +:+ name +:+ " not found in layout")
             /\ Step.layout_layer mapped = Step.layout_layer template
             /\ Step.feature_count mapped = Step.feature_count template)
       /\ (Step.status mapped <> Some "layer_missing"%string ->
           Step.warning mapped = Step.warning template))
    (Recipe.steps recipe) (mapLayersToSteps layout recipe).
Proof.
  unfold mapLayersToSteps. apply Forall2_fmap_r, Forall_Forall2_diag, Forall_forall.
  intros template _. unfold mapStep.
  destruct template as [? ? ? [name|] ? ? ? ? ? ? ? ? ?]; cbn [Step.layer truthy_opt].
  2:{ cbn. repeat split; try naive_solver. }
  destruct (truthy_string name) eqn:Ht.
  2:{ cbn. rewrite Ht. cbn. repeat split; try naive_solver. }
  destruct (LayerMap.get (buildLayerMap (Layout.layers layout)) name) as [l|[|]|] eqn:Hg;
    cbn; rewrite Ht, Hg; cbn; repeat split; try naive_solver.
Qed.

Lemma mapStep_idempotent layerMap step :
  mapStep layerMap (mapStep layerMap step) = mapStep layerMap step.
Proof.
  unfold mapStep.
  destruct step as [? ? ? [name|] ? ? ? ? ? ? ? ? ?]; cbn [Step.layer]; [|reflexivity].
  destruct (truthy_string name) eqn:Ht; [|cbn; now rewrite Ht].
  destruct (LayerMap.get layerMap name) as [l|[|]|] eqn:Hg; cbn; rewrite Ht, Hg; reflexivity.
Qed.

(** X5: mapping the mapped steps again, on the same layout, changes
    nothing: a flow that is fed back as a recipe comes out as it went
    in. *)
Theorem mapLayersToSteps_idempotent (layout : Layout.t) (recipe : Recipe.t) :
  mapLayersToSteps layout (with_steps (mapLayersToSteps layout recipe) recipe)
  = mapLayersToSteps layout recipe.
Proof.
  unfold mapLayersToSteps, with_steps. cbn [Recipe.steps].
  rewrite map_map. apply map_ext. intros step. apply mapStep_idempotent.
Qed.

(** ** calculateDuration: what the estimate depends on, and its sign *)

Lemma addDuration_mapStep layerMap total step :
  addDuration total (mapStep layerMap step) = addDuration total step.
Proof.
  destruct (mapStep_template layerMap step) as (_ & Hop & _ & _ & _ & _ & _ & _ & Hd).
  unfold addDuration. now rewrite Hop, Hd.
Qed.

Lemma totalHours_mapStep layerMap steps : forall total,
  fold_left addDuration (map (mapStep layerMap) steps) total
  = fold_left addDuration steps total.
Proof.
  induction steps as [|step steps IH]; intros total; [reflexivity|].
  cbn [map fold_left]. now rewrite addDuration_mapStep, IH.
Qed.

(** X6: the estimated duration is a matter of the recipe alone. The
    duration of the mapped steps is the duration of the steps of the
    recipe, and two layouts get the same [estimated_duration_hours] for
    the same process type, whichever layers they have or lack. *)
Theorem estimated_duration_ignores_layout (recipes : gmap string Recipe.t) :
  (forall layout recipe,
     calculateDuration (mapLayersToSteps layout recipe)
     = calculateDuration (Recipe.steps recipe))
  /\ (forall layout layout' processType flow flow',
        generateFlow recipes layout processType = Return flow ->
        generateFlow recipes layout' processType = Return flow' ->
        ProcessFlow.estimated_duration_hours flow
        = ProcessFlow.estimated_duration_hours flow').
Proof.
  assert (H : forall layout recipe,
             calculateDuration (mapLayersToSteps layout recipe)
             = calculateDuration (Recipe.steps recipe)).
  { intros layout recipe. unfold calculateDuration, totalHours, mapLayersToSteps.
    now rewrite totalHours_mapStep. }
  split; [exact H|].
  intros layout layout' processType flow flow'. unfold generateFlow.
  destruct (get recipes processType) as [recipe|[|]|]; try discriminate.
  intros [= <-] [= <-]. cbn. now rewrite !H.
Qed.

Lemma SFleb_zero_rank (a : spec_float) :
  Binary64.valid a -> Binary64.is_number a = true ->
  (0 <= Binary64.rank a)%R -> SFleb (S754_zero false) a = true.
Proof.
  intros Ha Na H.
  apply (Binary64Facts.SFleb_rank (S754_zero false) a); try assumption; reflexivity.
Qed.

(** The sum of two doubles that are not below zero is not below zero. *)
Lemma SFadd_nonneg (a c : spec_float) :
  Binary64.valid a -> Binary64.valid c ->
  SFleb (S754_zero false) a = true -> SFleb (S754_zero false) c = true ->
  SFleb (S754_zero false) (SFadd prec emax a c) = true.
Proof.
  intros Ha Hc Pa Pc.
  destruct a as [sa|[|]| |[|] ma ea]; try (exfalso; cbv in Pa; discriminate Pa);
    destruct c as [sc|[|]| |[|] mc ec]; try (exfalso; cbv in Pc; discriminate Pc);
    try reflexivity; try (destruct sa; reflexivity);
    try (destruct sa; destruct sc; reflexivity).
  pose proof (Binary64Facts.SFadd_rounds false ma ea false mc ec) as Hr.
  destruct (Binary64Facts.rounds_valid _ _ Hr) as [Vr Nr].
  apply SFleb_zero_rank; try assumption.
  apply (Binary64Facts.rounds_rank_sign _ _ Hr).
  apply Binary64Facts.valid_finite in Ha as [Hca _].
  apply Binary64Facts.valid_finite in Hc as [Hcc _].
  pose proof (Binary64Facts.canonical_pos _ _ Hca).
  pose proof (Binary64Facts.canonical_pos _ _ Hcc).
  cbn [Binary64.SFval cond_Zopp]. lra.
Qed.

Lemma leb_add_nonneg (a c : float) :
  (0 <=? a) = true -> (0 <=? c) = true -> (0 <=? a + c) = true.
Proof.
  rewrite !leb_spec, add_spec. change (Prim2SF 0) with (S754_zero false).
  apply SFadd_nonneg; apply Prim2SF_valid'.
Qed.

(** The quotient of two positive doubles, the divisor finite, is not below
    zero. *)
Lemma SFdiv_positive (d c : spec_float) :
  Binary64.valid d -> Binary64.valid c ->
  SFltb (S754_zero false) d = true -> SFltb (S754_zero false) c = true ->
  Binary64.finite_or_zero c = true ->
  SFleb (S754_zero false) (SFdiv prec emax d c) = true.
Proof.
  intros Hd Hc Pd Pc Fc.
  destruct c as [sc|sc| |[|] mc ec]; try discriminate;
    try (exfalso; cbv in Pc; discriminate Pc).
  destruct d as [sd|[|]| |[|] md ed]; try (exfalso; cbv in Pd; discriminate Pd);
    try reflexivity.
  pose proof (Binary64Facts.SFdiv_rounds false md ed false mc ec) as Hr.
  destruct (Binary64Facts.rounds_valid _ _ Hr) as [Vr Nr].
  apply SFleb_zero_rank; try assumption.
  apply (Binary64Facts.rounds_rank_sign _ _ Hr).
  apply Binary64Facts.valid_finite in Hd as [Hcd _].
  apply Binary64Facts.valid_finite in Hc as [Hcc _].
  pose proof (Binary64Facts.canonical_pos _ _ Hcd).
  pose proof (Binary64Facts.canonical_pos _ _ Hcc).
  cbn [Binary64.SFval cond_Zopp].
  apply Rlt_le, Rdiv_lt_0_compat; assumption.
Qed.

(** A number that is truthy and not negative is positive. *)
Lemma truthy_not_negative (d : float) :
  truthy_number d = true -> (d <? 0) = false -> (0 <? d) = true.
Proof.
  unfold truthy_number, is_nan. rewrite ltb_spec, ltb_spec, !FloatAxioms.eqb_spec.
  change (Prim2SF 0) with (S754_zero false).
  destruct (Prim2SF d) as [s|[|]| |[|] m e]; cbv; try reflexivity; try discriminate;
    destruct s; discriminate.
Qed.

Lemma minutes_to_hours_nonneg (d : float) :
  (0 <? d) = true -> (0 <=? d / 60) = true.
Proof.
  rewrite ltb_spec, leb_spec, div_spec. change (Prim2SF 0) with (S754_zero false).
  intros H. apply SFdiv_positive; try apply Prim2SF_valid'; try assumption; reflexivity.
Qed.

Lemma spec_default_hours_nonneg operation :
  (0 <=? spec_default_hours operation) = true.
Proof.
  unfold spec_default_hours.
  repeat match goal with
         | |- context [String.eqb operation ?k] =>
             destruct (String.eqb operation k); [reflexivity|]
         end.
  reflexivity.
Qed.

Lemma contribution_nonneg step :
  no_negative_minutes step = true -> (0 <=? contribution step) = true.
Proof.
  unfold no_negative_minutes, contribution.
  destruct (Step.duration_min step) as [d|]; [|intros _; apply spec_default_hours_nonneg].
  intros H. apply negb_true_iff in H.
  destruct (truthy_number d) eqn:Ht; [|apply spec_default_hours_nonneg].
  apply minutes_to_hours_nonneg. now apply truthy_not_negative.
Qed.

Lemma sum_hours_nonneg steps : forall h,
  forallb no_negative_minutes steps = true ->
  (0 <=? h) = true ->
  (0 <=? fold_left (fun total step => total + contribution step) steps h) = true.
Proof.
  induction steps as [|step steps IH]; intros h Hall Hh; [exact Hh|].
  cbn [forallb] in Hall. apply andb_true_iff in Hall as [Hstep Hrest].
  cbn [fold_left]. apply IH; [assumption|].
  apply leb_add_nonneg; [assumption|now apply contribution_nonneg].
Qed.

(** What is above something is a number. *)
Lemma leb_number (a b : float) : (a <=? b) = true -> is_nan b = false.
Proof.
  rewrite leb_spec. intros H. apply Binary64Facts.SFleb_number in H as [_ H].
  now apply is_number_not_nan.
Qed.

(** X7: the estimate is never negative and never NaN, as long as no step
    has a negative [duration_min] (and no operation is an inherited name):
    the sum of the hours, in binary64, and its rounding to one decimal
    place stay at or above zero. *)
Theorem calculateDuration_nonnegative (steps : list Step.t) :
  forallb adds_hours steps = true ->
  forallb no_negative_minutes steps = true ->
  (0 <=? calculateDuration steps) = true
  /\ is_nan (calculateDuration steps) = false.
Proof.
  intros Hadds Hall.
  assert (H : (0 <=? calculateDuration steps) = true).
  { unfold calculateDuration, totalHours.
    rewrite (totalHours_sum steps 0 Hadds).
    change 0 with (round_1_decimal 0) at 1.
    apply round_1_decimal_monotone. now apply sum_hours_nonneg. }
  split; [exact H|]. now apply (leb_number 0).
Qed.

Lemma calculateDuration_nonnegative_demo :
  (0 <=? calculateDuration (Recipe.steps demo_recipe)) = true
  /\ is_nan (calculateDuration (Recipe.steps demo_recipe)) = false.
Proof.
  apply (calculateDuration_nonnegative (Recipe.steps demo_recipe)); reflexivity.
Defined.

(** A [duration_min] is not checked: a negative one is subtracted, and
    the estimate of the step alone is negative. *)
Lemma calculateDuration_negative_minutes :
  calculateDuration [Step.template 1 "etch" "Etch" None (Some (-120))] = (-2).
Proof. vm_compute. reflexivity. Qed.

(** X8: rounding keeps the order of two sums. When the hours of one list
    of steps add up to no more than the hours of another, its
    [estimated_duration_hours] is no more than the other's. *)
Theorem calculateDuration_preserves_order (a b : list Step.t) (x y : Number) :
  totalHours a = Hours x ->
  totalHours b = Hours y ->
  (x <=? y) = true ->
  (calculateDuration a <=? calculateDuration b) = true.
Proof.
  intros Ha Hb H. unfold calculateDuration. rewrite Ha, Hb.
  now apply round_1_decimal_monotone.
Qed.

Lemma calculateDuration_preserves_order_demo :
  (calculateDuration (Recipe.steps demo_recipe)
   <=? calculateDuration (Recipe.steps demo_recipe ++ [plain_etch])) = true.
Proof.
  apply (calculateDuration_preserves_order
           (Recipe.steps demo_recipe) (Recipe.steps demo_recipe ++ [plain_etch]) 3.5 4.5);
    reflexivity.
Defined.

(** ** formatText and formatMarkdown: what reaches the rendering *)

Lemma concat_steps_elem (render : Step.t -> string) (step : Step.t) steps :
  step ∈ steps ->
  exists pre post, concat_steps render steps = pre +:+ render step +:+ post.
Proof.
  induction steps as [|s steps IH]; intros Hin; [now apply not_elem_of_nil in Hin|].
  apply elem_of_cons in Hin as [->|Hin].
  - exists ""%string, (concat_steps render steps). reflexivity.
  - destruct (IH Hin) as (pre & post & E).
    exists (render s +:+ pre), post. cbn [concat_steps]. now rewrite E, append_assoc.
Qed.

Lemma includes_here (needle b : string) : includes needle (needle +:+ b) = true.
Proof. apply includes_spec. now exists ""%string, b. Qed.

Lemma includes_right (needle a hay : string) :
  includes needle hay = true -> includes needle (a +:+ hay) = true.
Proof.
  rewrite !includes_spec. intros (pre & post & ->).
  exists (a +:+ pre), post. now rewrite append_assoc.
Qed.

Lemma includes_left (needle hay b : string) :
  includes needle hay = true -> includes needle (hay +:+ b) = true.
Proof.
  rewrite !includes_spec. intros (pre & post & ->).
  exists pre, (post +:+ b). now rewrite !append_assoc.
Qed.

Section Renderings.

Context {host : Host}.

(** X9: the flow of a recipe with no step. It has no step, a total of 0
    steps and a duration of 0 hours, and each rendering of it is the
    header alone. *)
Theorem renderings_of_an_empty_flow (recipes : gmap string Recipe.t)
    (layout : Layout.t) (processType : string) (recipe : Recipe.t) :
  recipes !! processType = Some recipe ->
  Recipe.steps recipe = [] ->
  exists flow,
    generateFlow recipes layout processType = Return flow
    /\ ProcessFlow.steps flow = []
    /\ ProcessFlow.total_steps flow = 0%nat
    /\ ProcessFlow.estimated_duration_hours flow = 0
    /\ formatText flow = formatText_header flow
    /\ formatMarkdown flow = formatMarkdown_header flow.
Proof.
  intros H Hs. unfold generateFlow. rewrite (get_own _ _ _ H).
  eexists. split; [reflexivity|].
  unfold formatText, formatMarkdown, mapLayersToSteps. cbn. rewrite Hs. cbn.
  repeat split; reflexivity.
Qed.

(** X10: each rendering is its header followed by the texts of the steps,
    one after the other in the order of the flow, and nothing else. *)
Theorem renderings_in_flow_order (processFlow : ProcessFlow.t) :
  formatText processFlow
  = formatText_header processFlow
    +:+ concat_steps formatText_step (ProcessFlow.steps processFlow)
  /\ formatMarkdown processFlow
     = formatMarkdown_header processFlow
       +:+ concat_steps formatMarkdown_step (ProcessFlow.steps processFlow).
Proof. split; apply fold_left_append. Qed.

Lemma formatText_step_warning (step : Step.t) (w : string) :
  Step.warning step = Some w -> w <> ""%string ->
  includes (text_warning w) (formatText_step step) = true.
Proof.
  intros Hw Hne. apply truthy_string_true in Hne.
  unfold formatText_step. rewrite Hw. cbn [when_string]. rewrite Hne.
  fold (text_warning w). rewrite ?append_assoc.
  repeat first [apply includes_here | apply includes_right].
Qed.

Lemma formatMarkdown_step_warning (step : Step.t) (w : string) :
  Step.warning step = Some w -> w <> ""%string ->
  includes (markdown_warning w) (formatMarkdown_step step) = true.
Proof.
  intros Hw Hne. apply truthy_string_true in Hne.
  unfold formatMarkdown_step. rewrite Hw. cbn [when_string]. rewrite Hne.
  fold (markdown_warning w). rewrite <- !append_assoc. apply includes_spec.
  eexists _, ""%string. now rewrite append_empty_r.
Qed.

Lemma warning_rendered (flow : ProcessFlow.t) (step : Step.t) (w : string) :
  step ∈ ProcessFlow.steps flow ->
  Step.warning step = Some w -> w <> ""%string ->
  includes (text_warning w) (formatText flow) = true
  /\ includes (markdown_warning w) (formatMarkdown flow) = true.
Proof.
  intros Hin Hw Hne.
  rewrite formatText_in_flow_order, formatMarkdown_in_flow_order.
  destruct (concat_steps_elem formatText_step step _ Hin) as (p & q & ->).
  destruct (concat_steps_elem formatMarkdown_step step _ Hin) as (p' & q' & ->).
  split; do 2 apply includes_right; apply includes_left.
  - now apply formatText_step_warning.
  - now apply formatMarkdown_step_warning.
Qed.

(** X11: a layer the layout lacks is reported in the output. When a step
    of the recipe names a layer that the layout has not (the name not an
    inherited one, no layer called [__proto__]), the flow is generated all
    the same, and both renderings of it hold the warning line
    "Layer ... not found in layout" of that step. *)
Theorem missing_layer_warning_rendered (recipes : gmap string Recipe.t)
    (layout : Layout.t) (processType : string) (recipe : Recipe.t)
    (template : Step.t) (name : string) :
  recipes !! processType = Some recipe ->
  template ∈ Recipe.steps recipe ->
  names_layer template name ->
  inherited name = false ->
  (forall l, l ∈ Layout.layers layout -> Layer.name l <> "__proto__"%string) ->
  ~ in_layout (Layout.layers layout) name ->
  exists flow,
    generateFlow recipes layout processType = Return flow
    /\ includes (text_warning ("Layer " +:+ name +:+ " not found in layout"))
         (formatText flow) = true
    /\ includes (markdown_warning ("Layer " +:+ name +:+ " not found in layout"))
         (formatMarkdown flow) = true.
Proof.
  intros H Hin Hname Hinh Hproto Hmiss.
  destruct (generateFlow_known recipes layout processType recipe H)
    as (flow & Hflow & Hsteps).
  exists flow. split; [exact Hflow|].
  assert (Hone : forall n, Step.layer template = Some n -> inherited n = false).
  { intros n Hn. destruct Hname as [Hl _]. congruence. }
  destruct (mapStep_status (Layout.layers layout) template Hproto Hone)
    as (_ & _ & _ & _ & Hwarn).
  destruct (Hwarn name Hname Hmiss) as (Hw & _).
  apply (warning_rendered flow (mapStep (buildLayerMap (Layout.layers layout)) template)).
  - rewrite Hsteps. unfold mapLayersToSteps. apply list_elem_of_fmap. eauto.
  - exact Hw.
  - discriminate.
Qed.

(** X12: the text rendering shows the mask layer of every step that has
    one: a step of the flow with a non-empty layer has its line
    "  Mask Layer: ..." in the output of [formatText], whatever its other
    fields. *)
Theorem formatText_renders_every_mask_layer
    (flow : ProcessFlow.t) (step : Step.t) (name : string) :
  step ∈ ProcessFlow.steps flow ->
  Step.layer step = Some name ->
  name <> ""%string ->
  includes (text_mask_layer name) (formatText flow) = true.
Proof.
  intros Hin Hl Hne. apply truthy_string_true in Hne.
  rewrite formatText_in_flow_order.
  destruct (concat_steps_elem formatText_step step _ Hin) as (p & q & ->).
  do 2 apply includes_right. apply includes_left.
  unfold formatText_step. rewrite Hl. cbn [when_string]. rewrite Hne.
  fold (text_mask_layer name). rewrite ?append_assoc.
  repeat first [apply includes_here | apply includes_right].
Qed.

End Renderings.

Lemma renderings_of_an_empty_flow_demo :
  exists flow,
    generateFlow sample_recipes (mockLayout "chip.gds") "bare" = Return flow
    /\ ProcessFlow.steps flow = []
    /\ ProcessFlow.total_steps flow = 0%nat
    /\ ProcessFlow.estimated_duration_hours flow = 0
    /\ @formatText ascii_host flow = @formatText_header ascii_host flow
    /\ @formatMarkdown ascii_host flow = @formatMarkdown_header ascii_host flow.
Proof.
  apply (@renderings_of_an_empty_flow ascii_host sample_recipes (mockLayout "chip.gds")
           "bare" empty_recipe); reflexivity.
Defined.

Lemma missing_layer_warning_rendered_demo :
  exists flow,
    generateFlow demo_recipes (mockLayout "chip.gds") "cmos_standard" = Return flow
    /\ includes (text_warning "Layer VIA2 not found in layout")
         (@formatText ascii_host flow) = true
    /\ includes (markdown_warning "Layer VIA2 not found in layout")
         (@formatMarkdown ascii_host flow) = true.
Proof.
  apply (@missing_layer_warning_rendered ascii_host demo_recipes (mockLayout "chip.gds")
           "cmos_standard" demo_recipe
           (Step.template 2 "etch" "Etch second via" (Some "VIA2"%string) (Some 30))
           "VIA2").
  - reflexivity.
  - apply list_elem_of_further, list_elem_of_here.
  - split; [reflexivity|discriminate].
  - reflexivity.
  - apply mockLayout_no_proto.
  - apply mockLayout_no_VIA2.
Defined.

Lemma formatText_renders_every_mask_layer_demo :
  exists flow,
    generateFlow demo_recipes (mockLayout "chip.gds") "cmos_standard" = Return flow
    /\ includes (text_mask_layer "VIA2") (@formatText ascii_host flow) = true.
Proof.
  eexists. split; [reflexivity|].
  eapply (@formatText_renders_every_mask_layer ascii_host _ _ "VIA2").
  - cbn [ProcessFlow.steps]. apply list_elem_of_further, list_elem_of_here.
  - reflexivity.
  - discriminate.
Defined.

Lemma formatMarkdown_step_without_parameters_demo :
  @formatMarkdown_step ascii_host lithography_step
  = "### Step " +:+ @Number_toString ascii_host (Step.step lithography_step) +:+ ": "
      +:+ Step.operation lithography_step +:+ nl +:+ nl
    +:+ Step.description lithography_step +:+ nl +:+ nl
    +:+ when_string (Step.warning lithography_step)
          (fun v => "> ⚠️ **Warning**: " +:+ v +:+ nl +:+ nl).
Proof.
  apply (@formatMarkdown_step_without_parameters ascii_host lithography_step);
    reflexivity.
Defined.

(** ** gds_parser.js *)

Lemma parseGDS_Return {fs : FileSystem} (path : string) (layout : Layout.t) :
  parseGDS path = Return layout
  <-> existsSync path = true /\ statSync path = None /\ layout = mockLayout path.
Proof.
  unfold parseGDS. destruct (existsSync path); cbn [negb].
  - destruct (statSync path) as [e|].
    + split; [discriminate|]. intros (_ & [=] & _).
    + split; [intros [= <-]; auto|]. now intros (_ & _ & ->).
  - split; [discriminate|]. intros ([=] & _).
Qed.

(** X14: what [parseGDS] does with a path. A path that does not exist
    gives the error "GDS file not found: ..."; an error of [statSync] is
    thrown on; otherwise the layout is returned, with the path as its
    file name. The contents of the file are never read: whatever the
    file system and the path, the layers, the feature count, the units
    and the bounding box of the layout are the same. *)
Theorem parseGDS_outcome {fs : FileSystem} (path : string) :
  (existsSync path = false ->
     parseGDS path = Throw (Error ("GDS file not found: " +:+ path)))
  /\ (forall e, existsSync path = true -> statSync path = Some e ->
       parseGDS path = Throw e)
  /\ (forall layout,
        parseGDS path = Return layout
        <-> existsSync path = true /\ statSync path = None
            /\ layout = mockLayout path)
  /\ (forall (fs' : FileSystem) (path' : string) (layout layout' : Layout.t),
        parseGDS path = Return layout ->
        @parseGDS fs' path' = Return layout' ->
        Layout.filename layout = path
        /\ Layout.layers layout' = Layout.layers layout
        /\ Layout.feature_count layout' = Layout.feature_count layout
        /\ Layout.units layout' = Layout.units layout
        /\ Layout.bounding_box layout' = Layout.bounding_box layout).
Proof.
  split; [|split; [|split]].
  - intros H. unfold parseGDS. now rewrite H.
  - intros e H He. unfold parseGDS. now rewrite H, He.
  - intros layout. apply parseGDS_Return.
  - intros fs' path' layout layout' H H'.
    apply parseGDS_Return in H as (_ & _ & ->).
    apply (@parseGDS_Return fs') in H' as (_ & _ & ->).
    repeat split; reflexivity.
Qed.

Lemma analyzeLayout_mock {host : Host} (path : string) :
  Forall (fun name => toUpperCase name = name) mock_layer_names ->
  analyzeLayout (mockLayout path)
  = {| LayoutAnalysis.suggested_process := "cmos_standard";
       LayoutAnalysis.reason := "Standard CMOS layers detected (POLY, ACTIVE)";
       LayoutAnalysis.complexity := "medium";
       LayoutAnalysis.min_feature_size := 32.4;
       LayoutAnalysis.layer_count := 5;
       LayoutAnalysis.feature_density := 0.00095 |}.
Proof.
  intros Hup. unfold mock_layer_names in Hup.
  repeat (apply Forall_cons in Hup as [? Hup]).
  unfold analyzeLayout.
  cbn [mockLayout Layout.layers map Layer.name].
  repeat match goal with H : toUpperCase _ = _ |- _ => rewrite H; clear H end.
  vm_compute. reflexivity.
Qed.

(** X15: every file that [parseGDS] accepts gets the same analysis and the
    same statistics (a host whose [toUpperCase] leaves the five upper-case
    layer names as they are): standard CMOS, medium complexity, a feature
    size of 32.4, five layers, a density of 0.00095 per square micron; and
    an area of 1 square millimetre with 950 features per square
    millimetre. *)
Theorem analysis_of_a_parsed_file {host : Host} {fs : FileSystem}
    (path : string) (layout : Layout.t) :
  Forall (fun name => toUpperCase name = name) mock_layer_names ->
  parseGDS path = Return layout ->
  analyzeLayout layout
  = {| LayoutAnalysis.suggested_process := "cmos_standard";
       LayoutAnalysis.reason := "Standard CMOS layers detected (POLY, ACTIVE)";
       LayoutAnalysis.complexity := "medium";
       LayoutAnalysis.min_feature_size := 32.4;
       LayoutAnalysis.layer_count := 5;
       LayoutAnalysis.feature_density := 0.00095 |}
  /\ getLayoutStats layout
     = {| LayoutStats.total_layers := 5;
          LayoutStats.total_features := 950;
          LayoutStats.area_mm2 := 1;
          LayoutStats.density := 950 |}.
Proof.
  intros Hup H. apply parseGDS_Return in H as (_ & _ & ->).
  split; [now apply analyzeLayout_mock|]. vm_compute. reflexivity.
Qed.

Lemma analysis_of_a_parsed_file_demo :
  @analyzeLayout ascii_host (mockLayout "chip.gds")
  = {| LayoutAnalysis.suggested_process := "cmos_standard";
       LayoutAnalysis.reason := "Standard CMOS layers detected (POLY, ACTIVE)";
       LayoutAnalysis.complexity := "medium";
       LayoutAnalysis.min_feature_size := 32.4;
       LayoutAnalysis.layer_count := 5;
       LayoutAnalysis.feature_density := 0.00095 |}
  /\ getLayoutStats (mockLayout "chip.gds")
     = {| LayoutStats.total_layers := 5;
          LayoutStats.total_features := 950;
          LayoutStats.area_mm2 := 1;
          LayoutStats.density := 950 |}.
Proof.
  apply (@analysis_of_a_parsed_file ascii_host (disk ["chip.gds"%string]) "chip.gds").
  - repeat constructor.
  - reflexivity.
Defined.

(** Subtracting zero changes no double, the sign of a zero included. *)
Lemma sub_zero (x : float) : x - 0 = x.
Proof.
  apply Prim2SF_inj. rewrite sub_spec. change (Prim2SF 0) with (S754_zero false).
  destruct (Prim2SF x) as [[|]|[|]| |s m e]; reflexivity.
Qed.

(** X16: on a bounding box whose minimum corner is the origin, the
    statistics of the parser and the analysis of the planner measure the
    same area, [max_x max_y]: the statistics report it in square
    millimetres and the density per square millimetre, the analysis the
    density per square micron. *)
Theorem getLayoutStats_at_origin {host : Host} (layout : Layout.t) :
  BoundingBox.min_x (Layout.bounding_box layout) = 0 ->
  BoundingBox.min_y (Layout.bounding_box layout) = 0 ->
  let area := BoundingBox.max_x (Layout.bounding_box layout)
              * BoundingBox.max_y (Layout.bounding_box layout) in
  LayoutStats.area_mm2 (getLayoutStats layout) = area / 1e6
  /\ LayoutStats.density (getLayoutStats layout)
     = Layout.feature_count layout / (area / 1e6)
  /\ LayoutAnalysis.feature_density (analyzeLayout layout)
     = Layout.feature_count layout / area.
Proof.
  intros Hx Hy. cbv zeta. unfold getLayoutStats.
  cbn [LayoutStats.area_mm2 LayoutStats.density].
  rewrite Hx, Hy, !sub_zero.
  split; [reflexivity|]. split; [reflexivity|]. apply analyzeLayout_numbers.
Qed.

Lemma getLayoutStats_at_origin_demo :
  LayoutStats.area_mm2 (getLayoutStats (mockLayout "chip.gds")) = 1000 * 1000 / 1e6
  /\ LayoutStats.density (getLayoutStats (mockLayout "chip.gds"))
     = 950 / (1000 * 1000 / 1e6)
  /\ LayoutAnalysis.feature_density (@analyzeLayout ascii_host (mockLayout "chip.gds"))
     = 950 / (1000 * 1000).
Proof.
  apply (@getLayoutStats_at_origin ascii_host (mockLayout "chip.gds")); reflexivity.
Defined.

Lemma zero_times_finite (w h : float) :
  (w =? 0) = true -> non_finite h = false -> (w * h =? 0) = true.
Proof.
  intros Hw Hh. apply zero_spec in Hw as [s Hw].
  rewrite FloatAxioms.eqb_spec, mul_spec, Hw. unfold non_finite in Hh.
  change (Prim2SF 0) with (S754_zero false).
  destruct (Prim2SF h) as [sh|sh| |sh m e]; try discriminate;
    destruct s, sh; reflexivity.
Qed.

Lemma zero_over_million (z : float) : (z =? 0) = true -> (z / 1e6 =? 0) = true.
Proof.
  intros Hz. apply zero_spec in Hz as [s Hz].
  rewrite FloatAxioms.eqb_spec, div_spec, Hz. destruct s; reflexivity.
Qed.

(** X17: [getLayoutStats] does not guard an empty bounding box. When the
    box has no width ([max_x - min_x] is zero) and a finite height, the
    area is zero and the density, a division by it, is NaN or an
    infinity. *)
Theorem getLayoutStats_empty_box (layout : Layout.t) :
  let box := Layout.bounding_box layout in
  (BoundingBox.max_x box - BoundingBox.min_x box =? 0) = true ->
  non_finite (BoundingBox.max_y box - BoundingBox.min_y box) = false ->
  (LayoutStats.area_mm2 (getLayoutStats layout) =? 0) = true
  /\ non_finite (LayoutStats.density (getLayoutStats layout)) = true.
Proof.
  cbv zeta. intros Hw Hh. unfold getLayoutStats.
  cbn [LayoutStats.area_mm2 LayoutStats.density].
  pose proof (zero_over_million _ (zero_times_finite _ _ Hw Hh)) as Hz.
  split; [exact Hz|]. now apply div_by_zero_non_finite.
Qed.

Lemma getLayoutStats_empty_box_demo :
  (LayoutStats.area_mm2 (getLayoutStats empty_box_layout) =? 0) = true
  /\ non_finite (LayoutStats.density (getLayoutStats empty_box_layout)) = true.
Proof.
  apply (getLayoutStats_empty_box empty_box_layout); reflexivity.
Defined.

(** X18: [extractLayers] lists the layers of the layout one for one, in
    order, each with its number, name and feature count (the datatype is
    dropped). And on a layout with no layer called [__proto__], for a
    step that names a layer of the layout by a non-empty name that is not
    an inherited one, the number and the feature count that
    [mapLayersToSteps] writes on the step are those of an entry of that
    list with the name of the step's layer. *)
Theorem extractLayers_lists_the_matched_layers (layout : Layout.t) :
  length (extractLayers layout) = length (Layout.layers layout)
  /\ (forall (i : nat) (layer : Layer.t),
        Layout.layers layout !! i = Some layer ->
        extractLayers layout !! i
        = Some {| LayerSummary.number := Layer.number layer;
                  LayerSummary.name := Layer.name layer;
                  LayerSummary.feature_count := Layer.feature_count layer |})
  /\ (forall (template : Step.t) (name : string),
        (forall l, l ∈ Layout.layers layout -> Layer.name l <> "__proto__"%string) ->
        inherited name = false ->
        names_layer template name ->
        in_layout (Layout.layers layout) name ->
        exists summary,
          summary ∈ extractLayers layout
          /\ LayerSummary.name summary = name
          /\ Step.layout_layer (mapStep (buildLayerMap (Layout.layers layout)) template)
             = Some (LayerSummary.number summary)
          /\ Step.feature_count (mapStep (buildLayerMap (Layout.layers layout)) template)
             = Some (LayerSummary.feature_count summary)).
Proof.
  unfold extractLayers. split; [apply length_map|]. split.
  - intros i layer Hi. now rewrite list_lookup_fmap, Hi.
  - intros template name Hproto Hinh Hname Hin.
    assert (Hone : forall n, Step.layer template = Some n -> inherited n = false).
    { intros n Hn. destruct Hname as [Hl _]. congruence. }
    destruct (mapStep_status (Layout.layers layout) template Hproto Hone)
      as (_ & _ & _ & Hm & _).
    destruct (Hm name Hname Hin) as (l & Hlast & Hnum & Hcount & _).
    apply last_named_Some in Hlast as [Hl Hn].
    eexists. split; [apply list_elem_of_fmap; exists l; split; [reflexivity|exact Hl]|].
    cbn. auto.
Qed.

(** ** cli/generate_flow.js *)

Section Commands.

Variable recipes : gmap string Recipe.t.
Context {host : Host} {fs : FileSystem} {libraries : Libraries}.

(** X19: on a path that does not exist, [generate] and [analyze] print
    their banner, report "GDS file not found: ..." on the error stream
    and exit with code 1; [generate] writes no file. *)
Theorem commands_report_a_missing_file (gdsFile : string) (options : Options.t) :
  existsSync gdsFile = false ->
  generate recipes gdsFile options
  = ([ console_log (chalk blue_bold (nl +:+ "=== Fab Process Generator ===" +:+ nl));
       console_log (chalk yellow "Parsing GDS-II file...");
       console_error
         (chalk red (nl +:+ "✗ Error: " +:+ ("GDS file not found: " +:+ gdsFile) +:+ nl));
       process_exit 1 ],
     Return tt)
  /\ analyze gdsFile
     = ([ console_log (chalk blue_bold (nl +:+ "=== Layout Analysis ===" +:+ nl));
          console_error
            (chalk red (nl +:+ "✗ Error: " +:+ ("GDS file not found: " +:+ gdsFile) +:+ nl));
          process_exit 1 ],
        Return tt).
Proof.
  intros H. unfold generate, analyze, parseGDS. rewrite H. split; reflexivity.
Qed.

(** X20: [generate] with a process type that is no key of the table,
    on a file the parser accepts: after the five layers are found, the
    message of the error of [generateFlow] goes to the error stream (the
    "Unknown process type: ..." of the guard, or, for an inherited name,
    the text of the [TypeError]), the process exits with code 1, and no
    file is written. *)
Theorem generate_reports_an_unknown_process (gdsFile : string) (options : Options.t)
    (layout : Layout.t) :
  parseGDS gdsFile = Return layout ->
  recipes !! Options.process options = None ->
  generate recipes gdsFile options
  = ([ console_log (chalk blue_bold (nl +:+ "=== Fab Process Generator ===" +:+ nl));
       console_log (chalk yellow "Parsing GDS-II file...");
       console_log (chalk green ("✓ Found " +:+ Number_toString 5 +:+ " layers"));
       console_log (chalk yellow (nl +:+ "Generating process flow..."));
       console_error
         (chalk red
            (nl +:+ "✗ Error: "
             +:+ (if inherited (Options.process options)
                  then "Cannot read properties of undefined (reading 'forEach')"
                  else "Unknown process type: " +:+ Options.process options)
             +:+ nl));
       process_exit 1 ],
     Return tt).
Proof.
  intros Hp Hr. pose proof Hp as Hl. apply parseGDS_Return in Hl as (_ & _ & ->).
  unfold generate. rewrite Hp. unfold generateFlow, get. rewrite Hr.
  destruct (inherited (Options.process options)); reflexivity.
Qed.

(** X21: the ways [generate] ends. The action never throws; it calls
    [process.exit(1)] exactly when the parser, [generateFlow] or the
    write throws, and that call is then the last thing it does; it calls
    [fs.writeFileSync] only once the parser and [generateFlow] have
    returned, on the output path and with the rendering of the flow in
    the format asked for. *)
Theorem generate_exits_exactly_on_failure (gdsFile : string) (options : Options.t) :
  let run := generate recipes gdsFile options in
  snd run = Return tt
  /\ (exits run
      <-> ~ exists layout flow,
            parseGDS gdsFile = Return layout
            /\ generateFlow recipes layout (Options.process options) = Return flow
            /\ writeFileSync (Options.output options)
                 (render (Options.format options) flow) = None)
  /\ (exits run -> last (events run) = Some (process_exit 1))
  /\ (forall path data,
        In (fs_writeFileSync path data) (events run)
        <-> exists layout flow,
              parseGDS gdsFile = Return layout
              /\ generateFlow recipes layout (Options.process options) = Return flow
              /\ path = Options.output options
              /\ data = render (Options.format options) flow).
Proof.
  cbv zeta. unfold exits, events, generate.
  destruct (parseGDS gdsFile) as [layout|e].
  2:{ cbn. repeat split; try naive_solver. }
  destruct (generateFlow recipes layout (Options.process options)) as [flow|e] eqn:Hflow.
  2:{ cbn. rewrite Hflow. cbn. split; [reflexivity|]. split; [|split; [reflexivity|]].
      - split; [|now auto 10]. intros _ (l & f & [= <-] & Hf & _). congruence.
      - intros path data. split.
        + intros H. repeat (destruct H as [H|H]; [discriminate H|]). destruct H.
        + intros (l & f & [= <-] & Hf & _). congruence. }
  destruct (writeFileSync (Options.output options) (render (Options.format options) flow))
    as [e|] eqn:Hw; cbn; rewrite Hflow; cbn; rewrite Hw; cbn.
  - split; [reflexivity|]. split; [|split; [reflexivity|]].
    + split; [|now auto 10]. intros _ (l & f & [= <-] & Hf & Hw'). congruence.
    + intros path data. split.
      * intros H. repeat (destruct H as [H|H]; [try discriminate H|]); [|destruct H].
        injection H as <- <-. now exists layout, flow.
      * intros (l & f & [= <-] & Hf & -> & ->).
        assert (f = flow) as -> by congruence. auto 10.
  - split; [reflexivity|]. split; [|split].
    + split.
      * intros H. repeat (destruct H as [H|H]; [discriminate H|]). destruct H.
      * intros H. exfalso. apply H. now exists layout, flow.
    + intros H. repeat (destruct H as [H|H]; [discriminate H|]). destruct H.
    + intros path data. split.
      * intros H. repeat (destruct H as [H|H]; [try discriminate H|]); [|destruct H].
        injection H as <- <-. now exists layout, flow.
      * intros (l & f & [= <-] & Hf & -> & ->).
        assert (f = flow) as -> by congruence. auto 15.
Qed.

(** X22: a format that is neither "json" nor "markdown" is written as
    text, without a word: the data handed to [fs.writeFileSync] is the
    output of [formatText]. *)
Theorem generate_falls_back_to_text (gdsFile : string) (options : Options.t)
    (layout : Layout.t) (flow : ProcessFlow.t) :
  parseGDS gdsFile = Return layout ->
  generateFlow recipes layout (Options.process options) = Return flow ->
  Options.format options <> "json"%string ->
  Options.format options <> "markdown"%string ->
  In (fs_writeFileSync (Options.output options) (formatText flow))
     (events (generate recipes gdsFile options)).
Proof.
  intros Hp Hf Hj Hm. unfold events, generate. rewrite Hp. cbn. rewrite Hf. cbn.
  unfold render.
  destruct (String.eqb_spec (Options.format options) "json"); [contradiction|].
  destruct (String.eqb_spec (Options.format options) "markdown"); [contradiction|].
  destruct (writeFileSync _ _); cbn; auto 10.
Qed.

(** X23: [analyze] prints the same report for every file the parser
    accepts (a host whose [toUpperCase] leaves the five upper-case layer
    names as they are): five layers, 950 features, a feature size of 32.4,
    medium complexity and the suggestion of the standard CMOS process. *)
Theorem analyze_prints_the_same_for_every_file (gdsFile : string) :
  Forall (fun name => toUpperCase name = name) mock_layer_names ->
  existsSync gdsFile = true ->
  statSync gdsFile = None ->
  analyze gdsFile
  = ([ console_log (chalk blue_bold (nl +:+ "=== Layout Analysis ===" +:+ nl));
       console_log (chalk cyan "Layout Information:");
       console_log ("  Layers: " +:+ Number_toString 5);
       console_log ("  Features: " +:+ Number_toString 950);
       console_log ("  Min Feature Size: " +:+ Number_toString 32.4 +:+ " µm");
       console_log "  Complexity: medium";
       console_log (chalk cyan (nl +:+ "Suggested Process:"));
       console_log ("  Type: " +:+ chalk green_bold "cmos_standard");
       console_log "  Reason: Standard CMOS layers detected (POLY, ACTIVE)";
       console_log "" ],
     Return tt).
Proof.
  intros Hup He Hs. unfold analyze, parseGDS. rewrite He, Hs. cbn [negb].
  cbn [mbind io_bind lift]. rewrite (analyzeLayout_mock gdsFile Hup). reflexivity.
Qed.

End Commands.

Lemma commands_report_a_missing_file_demo :
  @generate demo_recipes ascii_host (disk ["chip.gds"%string]) plain_libraries
    "nochip.gds" Options.defaults
  = ([ console_log (nl +:+ "=== Fab Process Generator ===" +:+ nl);
       console_log "Parsing GDS-II file...";
       console_error (nl +:+ "✗ Error: GDS file not found: nochip.gds" +:+ nl);
       process_exit 1 ],
     Return tt)
  /\ @analyze ascii_host (disk ["chip.gds"%string]) plain_libraries "nochip.gds"
     = ([ console_log (nl +:+ "=== Layout Analysis ===" +:+ nl);
          console_error (nl +:+ "✗ Error: GDS file not found: nochip.gds" +:+ nl);
          process_exit 1 ],
        Return tt).
Proof.
  apply (@commands_report_a_missing_file demo_recipes ascii_host (disk ["chip.gds"%string])
           plain_libraries "nochip.gds" Options.defaults).
  reflexivity.
Defined.

Lemma generate_reports_an_unknown_process_demo :
  @generate demo_recipes ascii_host (disk ["chip.gds"%string]) plain_libraries
    "chip.gds" finfet_options
  = ([ console_log (nl +:+ "=== Fab Process Generator ===" +:+ nl);
       console_log "Parsing GDS-II file...";
       console_log "✓ Found 5 layers";
       console_log (nl +:+ "Generating process flow...");
       console_error (nl +:+ "✗ Error: Unknown process type: finfet" +:+ nl);
       process_exit 1 ],
     Return tt).
Proof.
  apply (@generate_reports_an_unknown_process demo_recipes ascii_host
           (disk ["chip.gds"%string]) plain_libraries "chip.gds" finfet_options
           (mockLayout "chip.gds")); reflexivity.
Defined.

Lemma generate_falls_back_to_text_demo :
  exists flow,
    generateFlow demo_recipes (mockLayout "chip.gds") "cmos_standard" = Return flow
    /\ In (fs_writeFileSync "flow.yaml" (@formatText ascii_host flow))
         (events (@generate demo_recipes ascii_host (disk ["chip.gds"%string])
                    plain_libraries "chip.gds" yaml_options)).
Proof.
  eexists. split; [reflexivity|].
  apply (@generate_falls_back_to_text demo_recipes ascii_host (disk ["chip.gds"%string])
           plain_libraries "chip.gds" yaml_options (mockLayout "chip.gds"));
    [reflexivity|reflexivity|discriminate|discriminate].
Defined.

Lemma analyze_prints_the_same_for_every_file_demo :
  @analyze ascii_host (disk ["chip.gds"; "mems.gds"]%string) plain_libraries "chip.gds"
  = @analyze ascii_host (disk ["chip.gds"; "mems.gds"]%string) plain_libraries "mems.gds".
Proof.
  etransitivity.
  - apply (@analyze_prints_the_same_for_every_file ascii_host
             (disk ["chip.gds"; "mems.gds"]%string) plain_libraries "chip.gds");
      [repeat constructor|reflexivity|reflexivity].
  - symmetry.
    apply (@analyze_prints_the_same_for_every_file ascii_host
             (disk ["chip.gds"; "mems.gds"]%string) plain_libraries "mems.gds");
      [repeat constructor|reflexivity|reflexivity].
Defined.
